(** * The CRM client of the TYG middleware ([api/lib/ghl-api.js])

    A shallow embedding of the GoHighLevel helper functions and proofs of
    the properties the specification states about them.

    Modelling conventions.
    - Values received from the CRM are dynamically typed JSON values
      ([value]); property access, truthiness, [||] and string coercion
      follow the JavaScript rules.  A number [VNum n] is the double whose
      value is the integer [n]; fractions are not modelled.
    - Strings are Rocq strings holding the text; [includes], [startsWith]
      and [===] are exact on them, while operations that count positions
      ([substring], spreading a string) agree with JavaScript on ASCII text.
    - An [async] function is a computation in a state-and-exception monad
      [M]: the state holds the outside world (the CRM) and the chronological
      log of the HTTP requests issued through [fetch]; a rejected promise is
      a thrown [error].  [console.log] lines are not modelled, except in
      [updateContactCustomFields], where the conversions of their
      template literals are, since they can raise.
    - What the engine or the network provides ([fetch], [JSON.parse],
      [JSON.stringify], [toLowerCase], [trim], [encodeURIComponent], the
      text of engine-raised errors, the names of the functions of
      [Array.prototype]) is a field of [runtime]; every theorem holds for
      all runtimes. *)

From stdpp Require Import base strings list gmap pretty.
From Stdlib Require Import ZArith Ascii.

(** ** JavaScript values *)

#[local] Set Warnings "-register-all".

Inductive value : Type :=
  | VUndefined
  | VNull
  | VBool (b : bool)
  | VNum (n : Z)
  | VStr (s : string)
  | VArr (elems : list value)
  | VObj (props : list (string * value)).

(** ToBoolean. *)
Definition truthy (v : value) : bool :=
  match v with
  | VUndefined | VNull => false
  | VBool b => b
  | VNum n => negb (n =? 0)%Z
  | VStr s => negb (String.eqb s "")
  | VArr _ | VObj _ => true
  end.

(** [a || b] *)
Definition js_or (a b : value) : value := if truthy a then a else b.

(** [Array.isArray] *)
Definition isArray (v : value) : bool :=
  match v with VArr _ => true | _ => false end.

(** Own properties of an object, in insertion order. *)
Fixpoint assoc {A : Type} (k : string) (ps : list (string * A)) : option A :=
  match ps with
  | [] => None
  | (k', v) :: ps' => if String.eqb k k' then Some v else assoc k ps'
  end.

(** [o[k] = v] on an object: overwrite in place or append. *)
Fixpoint set_prop {A : Type} (k : string) (v : A) (ps : list (string * A))
  : list (string * A) :=
  match ps with
  | [] => [(k, v)]
  | (k', v') :: ps' =>
      if String.eqb k k' then (k, v) :: ps' else (k', v') :: set_prop k v ps'
  end.

(** [{...base, ...extra}] *)
Definition spread_into {A : Type} (base extra : list (string * A))
  : list (string * A) :=
  fold_left (fun acc kv => set_prop (fst kv) (snd kv) acc) extra base.

(** Reading a property of an object held by the caller: absent is
    [undefined]. *)
Definition field (k : string) (o : list (string * value)) : value :=
  default VUndefined (assoc k o).

Fixpoint join (sep : string) (l : list string) : string :=
  match l with
  | [] => ""
  | [s] => s
  | s :: l' => s +:+ sep +:+ join sep l'
  end.

(** *** Printing a number

    JavaScript prints the shortest decimal that reads back as the same
    double, in plain digits below 10^21 and with an exponent from there
    on. *)

(** The number of decimal digits of a positive integer. *)
Definition decimal_length (n : Z) : Z := Z.of_nat (String.length (pretty n)).

(** Whether [x] is the double nearest to the integer [c]: [c] lies within
    half a unit in the last place of [x], the ends included when the
    significand of [x] is even. *)
Definition rounds_to (x c : Z) : bool :=
  let e := (Z.log2 x - 52)%Z in
  let m := (x / 2 ^ e)%Z in
  let up := (2 * 2 ^ e)%Z in
  let down := (if m =? 2 ^ 52 then 2 ^ e else 2 * 2 ^ e)%Z in
  let d := (4 * c - 4 * x)%Z in
  if Z.even m then (- down <=? d)%Z && (d <=? up)%Z
  else (- down <? d)%Z && (d <? up)%Z.

(** The decimal with [k] significant digits nearest to [x] among those that
    round to [x], if there is one. *)
Definition with_digits (x k : Z) : option Z :=
  let p := (10 ^ (decimal_length x - k))%Z in
  let lo := (x / p * p)%Z in
  let hi := (lo + p)%Z in
  match rounds_to x lo, rounds_to x hi with
  | true, true =>
      if (x - lo <? hi - x)%Z then Some lo
      else if (hi - x <? x - lo)%Z then Some hi
      else if Z.even (x / p) then Some lo else Some hi
  | true, false => Some lo
  | false, true => Some hi
  | false, false => None
  end.

Fixpoint shortest_from (x k : Z) (fuel : nat) : Z :=
  match fuel with
  | O => x
  | S fuel' =>
      match with_digits x k with
      | Some c => c
      | None => shortest_from x (k + 1)%Z fuel'
      end
  end.

(** The integer whose digits are printed for the double [x] > 0: [x] itself
    below 2^53, and from there on the shortest decimal that rounds to [x];
    seventeen digits always suffice. *)
Definition shortest_decimal (x : Z) : Z :=
  if (Z.log2 x <? 53)%Z then x else shortest_from x 1 17.

Fixpoint strip_zeros (reversed : string) : string :=
  match reversed with
  | String "0" s => strip_zeros s
  | _ => reversed
  end.

Definition print_positive (x : Z) : string :=
  let c := shortest_decimal x in
  if (c <? 10 ^ 21)%Z then pretty c
  else
    let digits := String.rev (strip_zeros (String.rev (pretty c))) in
    match digits with
    | String d EmptyString =>
        String d EmptyString +:+ "e+" +:+ pretty (decimal_length c - 1)%Z
    | String d rest =>
        String d EmptyString +:+ "." +:+ rest +:+ "e+" +:+
        pretty (decimal_length c - 1)%Z
    | EmptyString => "0"
    end.

(** Number::toString on an integer-valued double. *)
Definition Number_toString (n : Z) : string :=
  if (n =? 0)%Z then "0"
  else if (n <? 0)%Z then "-" +:+ print_positive (- n)
  else print_positive n.

(** ToString, as applied by template literals and [String(v)], for the
    values it cannot raise on. *)
Fixpoint js_String (v : value) : string :=
  match v with
  | VUndefined => "undefined"
  | VNull => "null"
  | VBool true => "true"
  | VBool false => "false"
  | VNum n => Number_toString n
  | VStr s => s
  | VArr l =>
      join "," (map (fun x => match x with
                              | VUndefined | VNull => ""
                              | _ => js_String x
                              end) l)
  | VObj _ => "[object Object]"
  end.

(** ToString with its failure.  An object converts through its
    [toString]: [Object.prototype.toString] unless the object carries a
    property [toString] of its own, which in a parsed response is never a
    function; the conversion then falls back on [valueOf], which does not
    give a primitive either, and a [TypeError] is raised.  An array joins
    the conversions of its elements. *)
Fixpoint ToString (v : value) : option string :=
  match v with
  | VArr l =>
      join "," <$>
      (fix elems (l : list value) : option (list string) :=
         match l with
         | [] => Some []
         | x :: l' =>
             match x with
             | VUndefined | VNull => Some ""
             | _ => ToString x
             end ≫= fun a => cons a <$> elems l'
         end) l
  | VObj ps =>
      match assoc "toString" ps with
      | Some _ => None
      | None => Some "[object Object]"
      end
  | _ => Some (js_String v)
  end.

(** *** A plain object used as a map

    A property of an object is read and written through the prototype
    chain.  What is read is a value of the program, a built-in function,
    or [Object.prototype] itself. *)
Inductive slot : Type :=
  | Data (v : value)
  | Builtin
  | ObjectPrototype.

Definition slot_truthy (p : slot) : bool :=
  match p with
  | Data v => truthy v
  | Builtin | ObjectPrototype => true
  end.

(** The prototype of the map: [Object.prototype] as for every object
    literal, or an object or array of a response once the setter of
    [__proto__] has stored it. *)
Inductive prototype : Type :=
  | PlainObject
  | ResponseObject (ps : list (string * value))
  | ResponseArray (l : list value).

(** The function-valued properties of [Object.prototype]; its one other
    property is the accessor [__proto__]. *)
Definition Object_prototype : list string :=
  ["constructor"; "__defineGetter__"; "__defineSetter__"; "hasOwnProperty";
   "__lookupGetter__"; "__lookupSetter__"; "isPrototypeOf";
   "propertyIsEnumerable"; "toString"; "valueOf"; "toLocaleString"].

(** The properties an array has of its own: [length] and its indices. *)
Definition array_own (l : list value) (k : string) : option value :=
  if String.eqb k "length" then Some (VNum (Z.of_nat (length l)))
  else assoc k (imap (fun i x => (pretty i, x)) l).

Record field_map := mkFieldMap {
  own : gmap string value;
  proto : prototype
}.

(** [{}] *)
Definition empty_object : field_map := mkFieldMap ∅ PlainObject.

(** What [Object.prototype] gives for [k]; the getter of [__proto__] returns
    the prototype of the object the property is read on. *)
Definition from_Object_prototype (p : prototype) (k : string) : slot :=
  if String.eqb k "__proto__" then
    match p with
    | PlainObject => ObjectPrototype
    | ResponseObject ps => Data (VObj ps)
    | ResponseArray l => Data (VArr l)
    end
  else if bool_decide (k ∈ Object_prototype) then Builtin
  else Data VUndefined.

(** [m[k]], with [Array_prototype] the names of the function-valued
    properties of [Array.prototype]; its one other property, [length], is
    hidden by the [length] of the array. *)
Definition read (Array_prototype : list string) (m : field_map) (k : string)
  : slot :=
  match own m !! k with
  | Some v => Data v
  | None =>
      match proto m with
      | PlainObject => from_Object_prototype (proto m) k
      | ResponseObject ps =>
          match assoc k ps with
          | Some v => Data v
          | None => from_Object_prototype (proto m) k
          end
      | ResponseArray l =>
          match array_own l k with
          | Some v => Data v
          | None =>
              if bool_decide (k ∈ Array_prototype) then Builtin
              else from_Object_prototype (proto m) k
          end
      end
  end.

(** [m[k] = v] for a truthy [v].  Every property met on the chain is a
    writable data property, so that the assignment makes or updates a
    property of [m] itself, except for the accessor [__proto__] of
    [Object.prototype]: when no data property of that name comes first on
    the chain, its setter makes an object [v] the prototype of [m] and
    ignores any other [v]. *)
Definition assign (m : field_map) (k : string) (v : value) : field_map :=
  let shadowed :=
    match own m !! k, proto m with
    | Some _, _ => true
    | None, ResponseObject ps => bool_decide (is_Some (assoc k ps))
    | None, _ => false
    end in
  if negb (String.eqb k "__proto__") || shadowed then
    mkFieldMap (<[k := v]> (own m)) (proto m)
  else
    match v with
    | VObj ps => mkFieldMap (own m) (ResponseObject ps)
    | VArr l => mkFieldMap (own m) (ResponseArray l)
    | _ => m
    end.

(** [s.includes(sub)] *)
Fixpoint includes (s sub : string) : bool :=
  String.prefix sub s ||
  match s with
  | EmptyString => false
  | String _ s' => includes s' sub
  end.

(** [s.startsWith(p)] *)
Definition startsWith (s p : string) : bool := String.prefix p s.

(** [s.substring(n)] *)
Definition substring_from (n : nat) (s : string) : string :=
  String.substring n (String.length s - n) s.

(** SameValueZero, the equality of [Set]: primitives compare by value;
    arrays and objects compare by identity, and the ones met here (parsed
    from distinct places of a response) are pairwise distinct. *)
Definition same_value_zero (a b : value) : bool :=
  match a, b with
  | VUndefined, VUndefined => true
  | VNull, VNull => true
  | VBool x, VBool y => Bool.eqb x y
  | VNum x, VNum y => (x =? y)%Z
  | VStr x, VStr y => String.eqb x y
  | _, _ => false
  end.

(** [[...new Set(l)]]: first occurrences, in order. *)
Fixpoint set_of (seen l : list value) : list value :=
  match l with
  | [] => []
  | x :: l' =>
      if existsb (same_value_zero x) seen then set_of seen l'
      else x :: set_of (seen ++ [x]) l'
  end.

(** ** Errors, requests, responses *)

Record error := mkError {
  err_name : string;
  err_message : string;
  err_code : option string;
  err_status : option Z
}.

(** [new Error(msg)] *)
Definition Error (msg : string) : error := mkError "Error" msg None None.

Inductive result (A : Type) : Type :=
  | Ok (a : A)
  | Throw (e : error).
Arguments Ok {A} a.
Arguments Throw {A} e.

(** The arguments of a call of [fetch]; no [method] stands for [GET]. *)
Record request := mkRequest {
  req_url : string;
  req_method : option string;
  req_headers : list (string * string);
  req_body : option string
}.

(** What the client reads of a response: [status], [statusText],
    [headers.get('content-type')] and [text()]. *)
Record response := mkResponse {
  resp_status : Z;
  resp_statusText : string;
  resp_content_type : option string;
  resp_text : string
}.

(** [response.ok] *)
Definition resp_ok (r : response) : bool :=
  (200 <=? resp_status r)%Z && (resp_status r <=? 299)%Z.

Inductive fetch_outcome : Type :=
  | Rejected (e : error)
  | Responded (r : response).

(** What the engine and the network provide. *)
Record runtime := mkRuntime {
  World : Type;
  upstream : request -> World -> fetch_outcome * World;
  JSON_parse : string -> value + string;
  JSON_stringify : value -> string;
  toLowerCase : string -> string;
  trim : string -> string;
  encodeURIComponent : string -> string;
  TypeError_message : string -> string;
  Array_prototype : list string
}.

(** [process.env], read once at module load. *)
Record environment := mkEnv {
  GHL_API_KEY : option string;
  GHL_LOCATION_ID : option string
}.

(** Truthiness of an environment variable. *)
Definition is_set (v : option string) : bool :=
  match v with
  | Some s => negb (String.eqb s "")
  | None => false
  end.

(** An environment variable inside a template literal. *)
Definition env_String (v : option string) : string := default "undefined" v.

(** The [options] argument of the request helpers. *)
Record request_options := mkOptions {
  opt_method : option string;
  opt_headers : list (string * string);
  opt_body : option string
}.

Definition no_options : request_options := mkOptions None [] None.

Definition GHL_API_BASE : string := "https://rest.gohighlevel.com/v1".
Definition GHL_SERVICES_BASE : string := "https://services.leadconnectorhq.com".

(** ** The client *)

Section Client.

Context (rt : runtime) (env : environment).

(** The state threaded through every call: the outside world and the
    requests sent to it so far, oldest first. *)
Record state := mkState {
  world : World rt;
  log : list request
}.

Definition M (A : Type) : Type := state -> result A * state.

Definition ret {A} (a : A) : M A := fun s => (Ok a, s).

Definition throw {A} (e : error) : M A := fun s => (Throw e, s).

Definition bind {A B} (m : M A) (k : A -> M B) : M B :=
  fun s =>
    match m s with
    | (Ok a, s') => k a s'
    | (Throw e, s') => (Throw e, s')
    end.

Notation "'let!' x ':=' m 'in' k" := (bind m (fun x => k))
  (at level 10, x name, m at level 100, k at level 200).

(** Lifting a pure step that may raise. *)
Definition lift {A} (r : result A) : M A := fun s => (r, s).

(** [await fetch(url, init)]: the request is logged and handed to the
    world. *)
Definition fetch (r : request) : M response :=
  fun s =>
    match upstream rt r (world s) with
    | (Rejected e, w') => (Throw e, mkState w' (log s ++ [r]))
    | (Responded resp, w') => (Ok resp, mkState w' (log s ++ [r]))
    end.

(** The [TypeError] the engine raises at an illegal operation on [what]. *)
Definition TypeError (what : string) : error :=
  mkError "TypeError" (TypeError_message rt what) None None.

(** [v.k], with [what] the source text of the expression. *)
Definition get_prop (what : string) (v : value) (k : string) : result value :=
  match v with
  | VUndefined | VNull => Throw (TypeError what)
  | VObj ps => Ok (field k ps)
  | VBool _ | VNum _ | VStr _ | VArr _ => Ok VUndefined
  end.

(** The error body of a failed response: [JSON.parse(errorText)], or
    [{ message: errorText }] when that throws. *)
Definition parse_error_body (errorText : string) : value :=
  match JSON_parse rt errorText with
  | inl v => v
  | inr _ => VObj [("message", VStr errorText)]
  end.

(** [!responseText || responseText.trim() === ''] *)
Definition blank (responseText : string) : bool :=
  String.eqb responseText "" || String.eqb (trim rt responseText) "".

Definition default_headers : list (string * string) :=
  [("Authorization", "Bearer " +:+ env_String (GHL_API_KEY env));
   ("Content-Type", "application/json");
   ("Version", "2021-07-28")].

Definition missing_key_message : string :=
  "GHL_API_KEY environment variable is not set. Please configure it in Vercel project settings → Environment Variables.".

Definition auth_failed_message (detail : value) : string :=
  "GHL API Authentication Failed (401): " +:+ js_String detail +:+
  ". Please verify your GHL_API_KEY in Vercel environment variables.".

Definition invalid_json_message (responseText : string) : string :=
  "Invalid JSON response: " +:+ String.substring 0 100 responseText.

(** [errorData.msg || errorData.message || fallback] *)
Definition error_detail (errorData : value) (fallback : string)
  : result value :=
  match get_prop "errorData.msg" errorData "msg" with
  | Throw e => Throw e
  | Ok msg =>
      if truthy msg then Ok msg
      else
        match get_prop "errorData.message" errorData "message" with
        | Throw e => Throw e
        | Ok message => Ok (js_or message (VStr fallback))
        end
  end.

(** What both request helpers do with the response; [label] is the name
    that starts the message of a generic failure. *)
Definition handle_response (label : string) (resp : response) : M value :=
  if negb (resp_ok resp) then
    let errorText := resp_text resp in
    let errorData := parse_error_body errorText in
    if (resp_status resp =? 401)%Z then
      let! detail := lift (error_detail errorData "Invalid API key") in
      throw (mkError "Error" (auth_failed_message detail)
               (Some "AUTH_ERROR") (Some 401%Z))
    else
      let! detail := lift (error_detail errorData (resp_statusText resp)) in
      throw (Error (label +:+ ": " +:+ pretty (resp_status resp) +:+ " - " +:+
                    js_String detail))
  else
    let contentType := default "" (resp_content_type resp) in
    let responseText := resp_text resp in
    if blank responseText then
      ret (VObj [("success", VBool true)])
    else if includes contentType "application/json" then
      match JSON_parse rt responseText with
      | inl v => ret v
      | inr _ => throw (Error (invalid_json_message responseText))
      end
    else
      ret (VObj [("success", VBool true);
                 ("message", VStr responseText);
                 ("raw", VStr responseText)]).

Definition request_of (base endpoint : string) (options : request_options)
  : request :=
  mkRequest (base +:+ endpoint) (opt_method options)
    (spread_into default_headers (opt_headers options)) (opt_body options).

(** [ghlRequest(endpoint, options)], lines 9-86.  The outer [catch] logs and
    rethrows. *)
Definition ghlRequest (endpoint : string) (options : request_options)
  : M value :=
  if negb (is_set (GHL_API_KEY env)) then
    throw (mkError "Error" missing_key_message (Some "MISSING_API_KEY") None)
  else
    let! resp := fetch (request_of GHL_API_BASE endpoint options) in
    handle_response "GHL API Error" resp.

(** [ghlServicesRequest(endpoint, options)], lines 289-361. *)
Definition ghlServicesRequest (endpoint : string) (options : request_options)
  : M value :=
  if negb (is_set (GHL_API_KEY env)) then
    throw (Error missing_key_message)
  else
    let! resp := fetch (request_of GHL_SERVICES_BASE endpoint options) in
    handle_response "GHL Services API Error" resp.

(** *** Contacts *)

(** Sequencing of pure steps that may raise. *)
Definition rbind {A B} (r : result A) (k : A -> result B) : result B :=
  match r with
  | Ok a => k a
  | Throw e => Throw e
  end.

Notation "'let?' x ':=' r 'in' k" := (rbind r (fun x => k))
  (at level 10, x name, r at level 100, k at level 200).

Definition elements (v : value) : list value :=
  match v with VArr l => l | _ => [] end.

(** Lines 96-103: the contacts carried by a search response. *)
Definition contact_list (data : value) : result (list value) :=
  let? cs := get_prop "data.contacts" data "contacts" in
  if truthy cs && isArray cs then Ok (elements cs)
  else
    let? c := get_prop "data.contact" data "contact" in
    if truthy c then Ok [c]
    else if isArray data then Ok (elements data)
    else Ok [].

(** The predicate of the filter at lines 106-108. *)
Definition exact_match (email : string) (contact : value) : result bool :=
  let? e := get_prop "contact.email" contact "email" in
  if truthy e then
    match e with
    | VStr s => Ok (String.eqb (toLowerCase rt s) (toLowerCase rt email))
    | _ => Throw (TypeError "contact.email.toLowerCase")
    end
  else Ok false.

(** [l.filter(p)] for a predicate that may raise: elements are visited in
    order and the first raise aborts the filter. *)
Fixpoint filter_r {A} (p : A -> result bool) (l : list A) : result (list A) :=
  match l with
  | [] => Ok []
  | x :: l' =>
      let? b := p x in
      let? r := filter_r p l' in
      Ok (if b then x :: r else r)
  end.

(** [exactMatches.length > 0 ? exactMatches[0] : null] *)
Definition first_or_null (l : list value) : value :=
  match l with
  | x :: _ => x
  | [] => VNull
  end.

(** [searchContactByEmail(email)], lines 89-119. *)
Definition searchContactByEmail (email : string) : M value :=
  let url := "/contacts/?query=" +:+ encodeURIComponent rt email in
  let! data := ghlRequest url no_options in
  let! contacts := lift (contact_list data) in
  let! exactMatches := lift (filter_r (exact_match email) contacts) in
  ret (first_or_null exactMatches).

(** The body of the [forEach] at lines 134-142.  [fieldMap] is a plain
    object used as a map from field key to field id. *)
Definition add_field (fieldMap : field_map) (fld : value)
  : result field_map :=
  let? id := get_prop "field.id" fld "id" in
  if truthy id then
    let? fieldKey := get_prop "field.fieldKey" fld "fieldKey" in
    if truthy fieldKey then
      match fieldKey with
      | VStr k =>
          let normalizedKey :=
            if startsWith k "contact." then substring_from 8 k else k in
          Ok (assign fieldMap normalizedKey id)
      | _ => Throw (TypeError "field.fieldKey.startsWith")
      end
    else Ok fieldMap
  else Ok fieldMap.

Fixpoint add_fields (fieldMap : field_map) (l : list value)
  : result field_map :=
  match l with
  | [] => Ok fieldMap
  | fld :: l' =>
      let? fieldMap' := add_field fieldMap fld in
      add_fields fieldMap' l'
  end.

(** [getCustomFieldDefinitions()], lines 122-147. *)
Definition getCustomFieldDefinitions : M field_map :=
  let endpoint :=
    if is_set (GHL_LOCATION_ID env)
    then "/custom-fields/?locationId=" +:+ env_String (GHL_LOCATION_ID env)
    else "/custom-fields/" in
  let! data := ghlRequest endpoint no_options in
  let! cfs := lift (get_prop "data.customFields" data "customFields") in
  if truthy cfs && isArray cfs then lift (add_fields empty_object (elements cfs))
  else ret empty_object.

(** [...(contactData.k && { k: contactData.k })]: spreading a falsy value
    adds nothing. *)
Definition optional (k : string) (contactData : list (string * value))
  : list (string * value) :=
  if truthy (field k contactData) then [(k, field k contactData)] else [].

(** The payload object built at lines 153-159. *)
Definition contact_payload (contactData : list (string * value))
  : list (string * value) :=
  spread_into
    (spread_into
       (spread_into
          (spread_into [("email", field "email" contactData)]
             (optional "firstName" contactData))
          (optional "lastName" contactData))
       (optional "name" contactData))
    (optional "phone" contactData).

(** [data.contact || data] *)
Definition unwrap_contact (data : value) : result value :=
  let? c := get_prop "data.contact" data "contact" in
  Ok (js_or c data).

(** [createContact(contactData)], lines 150-170. *)
Definition createContact (contactData : list (string * value)) : M value :=
  let payload := VObj (contact_payload contactData) in
  let! data := ghlRequest "/contacts/"
                 (mkOptions (Some "POST") [] (Some (JSON_stringify rt payload))) in
  lift (unwrap_contact data).

(** [String(v)] and the conversion of [v] in a template literal. *)
Definition to_string (what : string) (v : value) : result string :=
  match ToString v with
  | Some text => Ok text
  | None => Throw (TypeError what)
  end.

(** The conversion of a field id in the template literal of line 188: a
    function and [Object.prototype] always convert. *)
Definition slot_to_string (what : string) (fieldId : slot) : result unit :=
  match fieldId with
  | Data id => let? _ := to_string what id in Ok tt
  | Builtin | ObjectPrototype => Ok tt
  end.

(** The object [{ id: fieldId, value: text }] of lines 186-189 as
    [JSON.stringify] writes it at line 206: a property whose value is a
    function is left out, and [Object.prototype] is written as the empty
    object, since none of its properties is enumerable. *)
Definition custom_field_entry (fieldId : slot) (text : string) : value :=
  match fieldId with
  | Data id => VObj [("id", id); ("value", VStr text)]
  | Builtin => VObj [("value", VStr text)]
  | ObjectPrototype => VObj [("id", VObj []); ("value", VStr text)]
  end.

(** The loop at lines 182-194; [fieldUpdates] is given by its entries. *)
Fixpoint resolve_fields (fieldDefinitions : field_map)
    (fieldUpdates : list (string * value)) : result (list value) :=
  match fieldUpdates with
  | [] => Ok []
  | (fieldKey, fieldValue) :: rest =>
      let fieldId := read (Array_prototype rt) fieldDefinitions fieldKey in
      if slot_truthy fieldId then
        let? text := to_string "String(fieldValue)" fieldValue in
        let? _ := slot_to_string "fieldId" fieldId in
        let? customFields := resolve_fields fieldDefinitions rest in
        Ok (custom_field_entry fieldId text :: customFields)
      else resolve_fields fieldDefinitions rest
  end.

(** [updateContactCustomFields(contactId, fieldUpdates)], lines 173-212.
    The contact id is converted first, in the template literal of line
    174. *)
Definition updateContactCustomFields (contactId : value)
    (fieldUpdates : list (string * value)) : M value :=
  let! id := lift (to_string "contactId" contactId) in
  let! fieldDefinitions := getCustomFieldDefinitions in
  let! customFields := lift (resolve_fields fieldDefinitions fieldUpdates) in
  if (length customFields =? 0)%nat then ret VNull
  else
    let! data :=
      ghlRequest ("/contacts/" +:+ id)
        (mkOptions (Some "PUT") []
           (Some (JSON_stringify rt
                    (VObj [("customField", VArr customFields)])))) in
    lift (unwrap_contact data).

(** [findOrCreateContact(email, contactData)], lines 215-231. *)
Definition findOrCreateContact (email : string)
    (contactData : list (string * value)) : M value :=
  let! contact := searchContactByEmail email in
  if negb (truthy contact) then
    createContact (spread_into [("email", VStr email)] contactData)
  else ret contact.

(** [deleteContact(contactId)], lines 234-243. *)
Definition deleteContact (contactId : value) : M value :=
  let! _ := ghlRequest ("/contacts/" +:+ js_String contactId)
              (mkOptions (Some "DELETE") [] None) in
  ret (VBool true).

(** [deleteContactByEmail(email)], lines 246-258. *)
Definition deleteContactByEmail (email : string) : M value :=
  let! contact := searchContactByEmail email in
  if negb (truthy contact) then ret (VBool false)
  else
    let! id := lift (get_prop "contact.id" contact "id") in
    let! _ := deleteContact id in
    ret (VBool true).

(** *** Tags *)

(** The elements a spread [...v] yields. *)
Definition spread_elements (what : string) (v : value) : result (list value) :=
  match v with
  | VArr l => Ok l
  | VStr str => Ok (map (fun c => VStr (String c "")) (String.list_ascii_of_string str))
  | _ => Throw (TypeError what)
  end.

(** [Array.isArray(tags) ? tags : [tags]] *)
Definition tags_array (tags : value) : list value :=
  if isArray tags then elements tags else [tags].

(** [addTagsToContact(contactId, tags)], lines 261-286. *)
Definition addTagsToContact (contactId tags : value) : M value :=
  let tagsArray := tags_array tags in
  let! currentContact :=
    ghlRequest ("/contacts/" +:+ js_String contactId) no_options in
  let! contact := lift (unwrap_contact currentContact) in
  let! t := lift (get_prop "contact.tags" contact "tags") in
  let existingTags := js_or t (VArr []) in
  let! existing := lift (spread_elements "existingTags" existingTags) in
  let newTags := set_of [] (existing ++ tagsArray) in
  let! data :=
    ghlRequest ("/contacts/" +:+ js_String contactId)
      (mkOptions (Some "PUT") []
         (Some (JSON_stringify rt (VObj [("tags", VArr newTags)])))) in
  lift (unwrap_contact data).

(** *** Templated e-mail *)

Definition emailPayload (contactId templateId : value) : value :=
  VObj [("type", VStr "Email");
        ("contactId", contactId);
        ("templateId", templateId);
        ("subject", VStr "Someone shared encouragement with you")].

(** The request of the first candidate, lines 384-398. *)
Definition location_header_request (payload : value) : request :=
  mkRequest (GHL_SERVICES_BASE +:+ "/conversations/messages") (Some "POST")
    [("Authorization", "Bearer " +:+ env_String (GHL_API_KEY env));
     ("Content-Type", "application/json");
     ("Version", "2021-07-28");
     ("locationId", env_String (GHL_LOCATION_ID env))]
    (Some (JSON_stringify rt payload)).

(** The first candidate, written out in place at lines 383-431: no check of
    the credential, only [errorData.message] is consulted, and
    [JSON.parse] is not guarded. *)
Definition services_with_location_header (payload : value) : M value :=
  let! resp := fetch (location_header_request payload) in
  if negb (resp_ok resp) then
    let errorText := resp_text resp in
    let errorData := parse_error_body errorText in
    if (resp_status resp =? 401)%Z then
      let! message := lift (get_prop "errorData.message" errorData "message") in
      throw (mkError "Error"
               ("GHL API Authentication Failed (401): " +:+
                js_String (js_or message (VStr "Invalid API key")))
               (Some "AUTH_ERROR") (Some 401%Z))
    else
      let! message := lift (get_prop "errorData.message" errorData "message") in
      throw (Error ("GHL Services API Error: " +:+ pretty (resp_status resp) +:+
                    " - " +:+
                    js_String (js_or message (VStr (resp_statusText resp)))))
  else
    let contentType := default "" (resp_content_type resp) in
    let responseText := resp_text resp in
    if blank responseText then ret (VObj [("success", VBool true)])
    else if includes contentType "application/json" then
      match JSON_parse rt responseText with
      | inl v => ret v
      | inr msg => throw (mkError "SyntaxError" msg None None)
      end
    else
      ret (VObj [("success", VBool true); ("message", VStr responseText)]).

(** The second candidate, lines 436-442. *)
Definition services_plain (payload : value) : M value :=
  ghlServicesRequest "/conversations/messages"
    (mkOptions (Some "POST") [] (Some (JSON_stringify rt payload))).

(** The third candidate, lines 445-453. *)
Definition rest_with_location_path (payload : value) : M value :=
  ghlRequest
    ("/locations/" +:+ env_String (GHL_LOCATION_ID env) +:+
     "/conversations/messages")
    (mkOptions (Some "POST") [] (Some (JSON_stringify rt payload))).

(** The [endpoints] array built at lines 377-453. *)
Definition endpoints (payload : value) : list (M value) :=
  (if is_set (GHL_LOCATION_ID env)
   then [services_with_location_header payload] else []) ++
  [services_plain payload] ++
  (if is_set (GHL_LOCATION_ID env)
   then [rest_with_location_path payload] else []).

(** The test at line 467. *)
Definition try_next (e : error) : bool :=
  negb (String.eqb (err_message e) "") &&
  (includes (err_message e) "404" ||
   includes (err_message e) "Not found" ||
   includes (err_message e) "401" ||
   includes (err_message e) "Invalid JWT").

(** How the loop at lines 457-474 is left. *)
Inductive loop_exit : Type :=
  | Returned (data : value)
  | Exhausted (lastError : option error).

Fixpoint try_endpoints (eps : list (M value)) (lastError : option error)
  : M loop_exit :=
  match eps with
  | [] => ret (Exhausted lastError)
  | ep :: rest =>
      fun s =>
        match ep s with
        | (Ok data, s') => (Ok (Returned data), s')
        | (Throw e, s') =>
            if try_next e then try_endpoints rest (Some e) s'
            else (Throw e, s')
        end
  end.

(** [lastError?.message || 'Unknown error'] *)
Definition last_message (lastError : option error) : string :=
  match lastError with
  | Some e =>
      if String.eqb (err_message e) "" then "Unknown error" else err_message e
  | None => "Unknown error"
  end.

(** The message of the error thrown at line 477. *)
Definition all_failed_message (lastError : option error) (templateId : value)
  : string :=
  "All email endpoints failed. Last error: " +:+ last_message lastError +:+
  ". Please verify the template ID (" +:+ js_String templateId +:+
  ") and API configuration. If you're getting 401 errors, you may need to use an OAuth token instead of an API key for the services endpoint.".

(** [sendEmailTemplate(contactId, templateId)], lines 364-478. *)
Definition sendEmailTemplate (contactId templateId : value) : M value :=
  let payload := emailPayload contactId templateId in
  let! exit := try_endpoints (endpoints payload) None in
  match exit with
  | Returned data => ret data
  | Exhausted lastError =>
      throw (Error (all_failed_message lastError templateId))
  end.

(** [sendEmailTemplateByEmail(email, templateId)], lines 481-493. *)
Definition sendEmailTemplateByEmail (email : string) (templateId : value)
  : M value :=
  let! contact := searchContactByEmail email in
  if negb (truthy contact) then
    throw (Error ("Contact not found with email: " +:+ email))
  else
    let! id := lift (get_prop "contact.id" contact "id") in
    sendEmailTemplate id templateId.

End Client.

Arguments mkState {rt} _ _.
Arguments world {rt} _.
Arguments log {rt} _.
Arguments ret {rt A} _ _.
Arguments throw {rt A} _ _.
Arguments bind {rt A B} _ _ _.
Arguments lift {rt A} _ _.
Arguments rbind {A B} _ _.
Arguments filter_r {A} _ _.

(** ** A scripted runtime

    A concrete runtime on which the client can be run: the world is the
    list of the outcomes the next calls of [fetch] will meet, [JSON.parse]
    is a table from the bodies of the exchange to their values, and the
    string functions are the ASCII ones. *)

Definition lower_char (c : ascii) : ascii :=
  let n := nat_of_ascii c in
  if (65 <=? n)%nat && (n <=? 90)%nat then ascii_of_nat (n + 32) else c.

Fixpoint ascii_toLowerCase (s : string) : string :=
  match s with
  | EmptyString => EmptyString
  | String c s' => String (lower_char c) (ascii_toLowerCase s')
  end.

Definition white_char (c : ascii) : bool :=
  let n := nat_of_ascii c in
  ((9 <=? n)%nat && (n <=? 13)%nat) || (n =? 32)%nat.

Fixpoint trim_start (s : string) : string :=
  match s with
  | EmptyString => EmptyString
  | String c s' => if white_char c then trim_start s' else s
  end.

Definition ascii_trim (s : string) : string :=
  String.rev (trim_start (String.rev (trim_start s))).

Definition unreserved (c : ascii) : bool :=
  let n := nat_of_ascii c in
  ((48 <=? n)%nat && (n <=? 57)%nat) ||
  ((65 <=? n)%nat && (n <=? 90)%nat) ||
  ((97 <=? n)%nat && (n <=? 122)%nat) ||
  includes "-_.!~*'()" (String c "").

Definition hex_digit (n : nat) : ascii :=
  ascii_of_nat (if (n <? 10)%nat then 48 + n else 55 + n).

Fixpoint percent_encode (s : string) : string :=
  match s with
  | EmptyString => EmptyString
  | String c s' =>
      if unreserved c then String c (percent_encode s')
      else
        let n := nat_of_ascii c in
        String "%" (String (hex_digit (n / 16))
                      (String (hex_digit (n mod 16)) (percent_encode s')))
  end.

(** A stand-in for [JSON.stringify] that writes strings between single
    quotes and does not escape them. *)
Fixpoint show_json (v : value) : string :=
  match v with
  | VUndefined | VNull => "null"
  | VBool true => "true"
  | VBool false => "false"
  | VNum n => Number_toString n
  | VStr s => "'" +:+ s +:+ "'"
  | VArr l => "[" +:+ join "," (map show_json l) +:+ "]"
  | VObj ps =>
      "{" +:+
      join ","
        ((fix props (ps : list (string * value)) : list string :=
            match ps with
            | [] => []
            | (_, VUndefined) :: ps' => props ps'
            | (k, x) :: ps' => ("'" +:+ k +:+ "':" +:+ show_json x) :: props ps'
            end) ps) +:+
      "}"
  end.

Definition next_outcome (r : request) (w : list fetch_outcome)
  : fetch_outcome * list fetch_outcome :=
  match w with
  | o :: w' => (o, w')
  | [] => (Rejected (mkError "TypeError" "fetch failed" None None), [])
  end.

Definition scripted (bodies : list (string * value)) : runtime :=
  mkRuntime (list fetch_outcome) next_outcome
    (fun text => match assoc text bodies with
                 | Some v => inl v
                 | None => inr "Unexpected token"
                 end)
    show_json ascii_toLowerCase ascii_trim percent_encode
    (fun what => "illegal operation: " +:+ what)
    ["constructor"; "at"; "concat"; "copyWithin"; "fill"; "find";
     "findIndex"; "findLast"; "findLastIndex"; "lastIndexOf"; "pop"; "push";
     "reverse"; "shift"; "unshift"; "slice"; "sort"; "splice"; "includes";
     "indexOf"; "join"; "keys"; "entries"; "values"; "forEach"; "filter";
     "flat"; "flatMap"; "map"; "every"; "some"; "reduce"; "reduceRight";
     "toReversed"; "toSorted"; "toSpliced"; "with"; "toLocaleString";
     "toString"].

(** A JSON response with status 200. *)
Definition json_ok (text : string) : fetch_outcome :=
  Responded (mkResponse 200 "OK" (Some "application/json; charset=utf-8") text).

(** A failed response with the given status and a JSON body unknown to the
    table, so that the raw text becomes the message. *)
Definition failed (st : Z) (text : string) : fetch_outcome :=
  Responded (mkResponse st "" (Some "text/plain") text).

(** The state in which the outcomes [w] are still to come and the requests
    [l] have been sent. *)
Definition script {bodies} (w : list fetch_outcome) (l : list request)
  : state (scripted bodies) :=
  mkState (w : World (scripted bodies)) l.

Definition start {bodies} (w : list fetch_outcome) : state (scripted bodies) :=
  script w [].

Definition with_key : environment := mkEnv (Some "key") None.
Definition with_key_and_location : environment := mkEnv (Some "key") (Some "loc").
Definition without_key : environment := mkEnv None (Some "loc").

(** ** Vocabulary of the specification *)

(** The requests a computation sends when started in [s]. *)
Definition sent_by {rt A} (m : M rt A) (s : state rt) : list request :=
  drop (length (log s)) (log (snd (m s))).

(** The request of a contact search. *)
Definition search_request (rt : runtime) (env : environment) (email : string)
  : request :=
  request_of env GHL_API_BASE
    ("/contacts/?query=" +:+ encodeURIComponent rt email) no_options.


(** The contact has an e-mail address, and it equals [email] up to case. *)
Definition email_matches (rt : runtime) (email : string) (c : value) : bool :=
  match c with
  | VObj ps =>
      match field "email" ps with
      | VStr s =>
          negb (String.eqb s "") &&
          String.eqb (toLowerCase rt s) (toLowerCase rt email)
      | _ => false
      end
  | _ => false
  end.

(** The three shapes of a search response the code looks for. *)
Definition has_contacts_array (data : value) : bool :=
  match data with
  | VObj ps => match assoc "contacts" ps with Some (VArr _) => true | _ => false end
  | _ => false
  end.

Definition has_contact_field (data : value) : bool :=
  match data with
  | VObj ps => match assoc "contact" ps with Some _ => true | None => false end
  | _ => false
  end.

Definition recognized_shape (data : value) : bool :=
  has_contacts_array data || has_contact_field data || isArray data.


Definition nullish (v : value) : bool :=
  match v with
  | VUndefined | VNull => true
  | _ => false
  end.

(** The request of a contact creation. *)
Definition create_request (rt : runtime) (env : environment)
    (contactData : list (string * value)) : request :=
  request_of env GHL_API_BASE "/contacts/"
    (mkOptions (Some "POST") []
       (Some (JSON_stringify rt (VObj (contact_payload contactData))))).

(** The request of a contact deletion. *)
Definition delete_request (env : environment) (contactId : value) : request :=
  request_of env GHL_API_BASE ("/contacts/" +:+ js_String contactId)
    (mkOptions (Some "DELETE") [] None).

(** The optional fields of a contact. *)
Definition optional_fields : list string :=
  ["firstName"; "lastName"; "name"; "phone"].

(** The request of the custom-field definitions. *)
Definition definitions_request (env : environment) : request :=
  request_of env GHL_API_BASE
    (if is_set (GHL_LOCATION_ID env)
     then "/custom-fields/?locationId=" +:+ env_String (GHL_LOCATION_ID env)
     else "/custom-fields/")
    no_options.

(** The request that writes custom fields. *)
Definition fields_request (rt : runtime) (env : environment)
    (contactId : value) (customFields : list value) : request :=
  request_of env GHL_API_BASE ("/contacts/" +:+ js_String contactId)
    (mkOptions (Some "PUT") []
       (Some (JSON_stringify rt (VObj [("customField", VArr customFields)])))).

(** The request that reads a contact, and the one that writes its tags. *)
Definition contact_request (env : environment) (contactId : value) : request :=
  request_of env GHL_API_BASE ("/contacts/" +:+ js_String contactId) no_options.

Definition tags_request (rt : runtime) (env : environment)
    (contactId : value) (newTags : list value) : request :=
  request_of env GHL_API_BASE ("/contacts/" +:+ js_String contactId)
    (mkOptions (Some "PUT") []
       (Some (JSON_stringify rt (VObj [("tags", VArr newTags)])))).

(** The tag argument stands for the tags [given]: a single string, or an
    array of strings. *)
Definition tag_argument (tags : value) (given : list string) : Prop :=
  (exists t, tags = VStr t /\ given = [t]) \/ tags = VArr (map VStr given).

(** The contact holds the tags [old]: an array of strings, or no tags at
    all. *)
Definition current_tags (contact : value) (old : list string) : Prop :=
  exists ps,
    contact = VObj ps /\
    (field "tags" ps = VArr (map VStr old) \/
     (truthy (field "tags" ps) = false /\ old = [])).

(** The requests of the second and third candidate of [sendEmailTemplate]. *)
Definition services_request (rt : runtime) (env : environment)
    (payload : value) : request :=
  request_of env GHL_SERVICES_BASE "/conversations/messages"
    (mkOptions (Some "POST") [] (Some (JSON_stringify rt payload))).

Definition location_path_request (rt : runtime) (env : environment)
    (payload : value) : request :=
  request_of env GHL_API_BASE
    ("/locations/" +:+ env_String (GHL_LOCATION_ID env) +:+
     "/conversations/messages")
    (mkOptions (Some "POST") [] (Some (JSON_stringify rt payload))).

(** The marks of a failure that only says the endpoint does not fit the
    account: not found, or not authorised. *)
Definition continue_marks : list string :=
  ["404"; "Not found"; "401"; "Invalid JWT"].

(** The message of the error holds one of the marks. *)
Definition continue_shaped (e : error) : bool :=
  existsb (includes (err_message e)) continue_marks.

(** The requests of the three candidates for the location [loc], in their
    order of priority: the services base with the location in a header,
    the services base without it, the legacy base with the location in the
    path. *)
Definition candidate_requests (rt : runtime) (env : environment)
    (loc : string) (payload : value) : list request :=
  let headers :=
    [("Authorization", "Bearer " +:+ default "undefined" (GHL_API_KEY env));
     ("Content-Type", "application/json");
     ("Version", "2021-07-28")] in
  let body := Some (JSON_stringify rt payload) in
  [mkRequest "https://services.leadconnectorhq.com/conversations/messages"
     (Some "POST") (headers ++ [("locationId", loc)]) body;
   mkRequest "https://services.leadconnectorhq.com/conversations/messages"
     (Some "POST") headers body;
   mkRequest
     ("https://rest.gohighlevel.com/v1/locations/" +:+ loc +:+
      "/conversations/messages")
     (Some "POST") headers body].

(** ** Regular expressions

    The e-mail check of the handlers is a regular expression tested against
    the UTF-16 code units of a string.  Expressions are matched by
    derivatives; [matches] is what it means for a word to belong to an
    expression. *)

Inductive regex : Type :=
  | Void
  | Eps
  | Class (p : N -> bool)
  | Cat (r1 r2 : regex)
  | Alt (r1 r2 : regex)
  | Star (r : regex).

(** [r+] *)
Definition Plus (r : regex) : regex := Cat r (Star r).

Inductive matches : regex -> list N -> Prop :=
  | matches_Eps : matches Eps []
  | matches_Class p a : p a = true -> matches (Class p) [a]
  | matches_Cat r1 r2 l1 l2 :
      matches r1 l1 -> matches r2 l2 -> matches (Cat r1 r2) (l1 ++ l2)
  | matches_Alt_l r1 r2 l : matches r1 l -> matches (Alt r1 r2) l
  | matches_Alt_r r1 r2 l : matches r2 l -> matches (Alt r1 r2) l
  | matches_Star_nil r : matches (Star r) []
  | matches_Star_app r l1 l2 :
      matches r l1 -> matches (Star r) l2 -> matches (Star r) (l1 ++ l2).

Fixpoint nullable (r : regex) : bool :=
  match r with
  | Void => false
  | Eps => true
  | Class _ => false
  | Cat r1 r2 => nullable r1 && nullable r2
  | Alt r1 r2 => nullable r1 || nullable r2
  | Star _ => true
  end.

Fixpoint deriv (a : N) (r : regex) : regex :=
  match r with
  | Void => Void
  | Eps => Void
  | Class p => if p a then Eps else Void
  | Cat r1 r2 =>
      Alt (Cat (deriv a r1) r2) (if nullable r1 then deriv a r2 else Void)
  | Alt r1 r2 => Alt (deriv a r1) (deriv a r2)
  | Star r1 => Cat (deriv a r1) (Star r1)
  end.

(** [/^r$/.test(l)] *)
Definition regex_test (r : regex) (l : list N) : bool :=
  nullable (fold_left (fun r a => deriv a r) l r).

(** The UTF-16 code units of a text held as UTF-8.  Bytes that are not
    well-formed UTF-8, which the encoding of a JavaScript string never
    holds, are read as U+FFFD one at a time. *)
Definition continuation (c : ascii) : bool :=
  (128 <=? N_of_ascii c)%N && (N_of_ascii c <? 192)%N.

Definition units_of (cp : N) : list N :=
  if (cp <? 65536)%N then [cp]
  else [(55296 + (cp - 65536) / 1024)%N; (56320 + (cp - 65536) mod 1024)%N].

Fixpoint utf16 (s : string) : list N :=
  match s with
  | EmptyString => []
  | String c0 s1 =>
      let b0 := N_of_ascii c0 in
      if (b0 <? 128)%N then b0 :: utf16 s1
      else
        match s1 with
        | EmptyString => [65533%N]
        | String c1 s2 =>
            if (192 <=? b0)%N && (b0 <? 224)%N && continuation c1 then
              ((b0 - 192) * 64 + (N_of_ascii c1 - 128))%N :: utf16 s2
            else
              match s2 with
              | EmptyString => 65533%N :: utf16 s1
              | String c2 s3 =>
                  if (224 <=? b0)%N && (b0 <? 240)%N &&
                     continuation c1 && continuation c2 then
                    ((b0 - 224) * 4096 + (N_of_ascii c1 - 128) * 64 +
                     (N_of_ascii c2 - 128))%N :: utf16 s3
                  else
                    match s3 with
                    | EmptyString => 65533%N :: utf16 s1
                    | String c3 s4 =>
                        if (240 <=? b0)%N && (b0 <? 248)%N &&
                           continuation c1 && continuation c2 &&
                           continuation c3 then
                          units_of ((b0 - 240) * 262144 +
                                    (N_of_ascii c1 - 128) * 4096 +
                                    (N_of_ascii c2 - 128) * 64 +
                                    (N_of_ascii c3 - 128))%N ++ utf16 s4
                        else 65533%N :: utf16 s1
                    end
              end
        end
  end.

(** The class [\s]: the white space and line terminators of ECMAScript. *)
Definition white_space (c : N) : bool :=
  ((9 <=? c)%N && (c <=? 13)%N) || (c =? 32)%N || (c =? 160)%N ||
  (c =? 5760)%N || ((8192 <=? c)%N && (c <=? 8202)%N) ||
  (c =? 8232)%N || (c =? 8233)%N || (c =? 8239)%N || (c =? 8287)%N ||
  (c =? 12288)%N || (c =? 65279)%N.

Definition at_sign : N := 64%N.
Definition full_stop : N := 46%N.

(** The class [[^\s@]] *)
Definition address_unit (c : N) : bool :=
  negb (white_space c || (c =? at_sign)%N).

(** [/^[^\s@]+@[^\s@]+\.[^\s@]+$/] *)
Definition emailRegex : regex :=
  Cat (Plus (Class address_unit))
    (Cat (Class (N.eqb at_sign))
       (Cat (Plus (Class address_unit))
          (Cat (Class (N.eqb full_stop))
             (Plus (Class address_unit))))).

(** [isValidEmail(email)], the same in every handler file. *)
Definition isValidEmail (email : string) : bool :=
  regex_test emailRegex (utf16 email).

(** ** The handlers *)

(** The origins every handler lists. *)
Definition allowedOrigins : list string :=
  ["https://dailyhug.com";
   "http://localhost:3000";
   "http://localhost:5173";
   "http://127.0.0.1:3000"].

(** [origin && allowedOrigins.some(allowed => origin.includes(allowed))
     ? origin : '*'] *)
Definition corsOrigin (origin : option string) : string :=
  match origin with
  | Some o =>
      if negb (String.eqb o "") &&
         existsb (fun allowed => includes o allowed) allowedOrigins
      then o else "*"
  | None => "*"
  end.

(** What a deployment adds to the runtime: [process.env.NODE_ENV], the
    text [new Date().toISOString()] gives when a response is built, and
    the entries [new URLSearchParams(text)] yields. *)
Record deployment := mkDeployment {
  NODE_ENV : option string;
  now : string;
  URLSearchParams : string -> list (string * string)
}.

(** What a handler reads of [req]. *)
Record incoming := mkIncoming {
  http_method : string;
  http_origin : option string;
  http_query : value;
  http_body : value
}.

(** What a handler has put in [res] when it returns. *)
Record outgoing := mkOutgoing {
  res_status : Z;
  res_headers : list (string * string);
  res_json : value
}.

(** The four [res.setHeader] calls that open every handler. *)
Definition cors_headers (methods : string) (origin : option string)
  : list (string * string) :=
  [("Access-Control-Allow-Origin", corsOrigin origin);
   ("Access-Control-Allow-Methods", methods);
   ("Access-Control-Allow-Headers",
    "Content-Type, Authorization, X-Requested-With");
   ("Access-Control-Max-Age", "86400")].

(** The error of reading a variable that is not in scope, with the text
    V8 gives it. *)
Definition ReferenceError (name : string) : error :=
  mkError "ReferenceError" (name +:+ " is not defined") None None.

Definition quotation_mark : string := String (ascii_of_nat 34) EmptyString.

Section Handlers.

Context (rt : runtime) (env : environment) (site : deployment).

Notation "'let!' x ':=' m 'in' k" := (bind m (fun x => k))
  (at level 10, x name, m at level 100, k at level 200).

Notation "'let?' x ':=' r 'in' k" := (rbind r (fun x => k))
  (at level 10, x name, r at level 100, k at level 200).

(** [try { m } catch (error) { h }] *)
Definition catch {A} (m : M rt A) (h : error -> M rt A) : M rt A :=
  fun s =>
    match m s with
    | (Ok a, s') => (Ok a, s')
    | (Throw e, s') => h e s'
    end.

(** [process.env.NODE_ENV === 'development'] *)
Definition development : bool :=
  match NODE_ENV site with
  | Some mode => String.eqb mode "development"
  | None => false
  end.

(** [error.code === code] *)
Definition has_code (e : error) (code : string) : bool :=
  match err_code e with
  | Some c => String.eqb c code
  | None => false
  end.

(** The text of a field for which [!v || v.trim() === ''] is false, and
    nothing for a field for which it is true; [what] names the field. *)
Definition required (what : string) (v : value) : result (option string) :=
  if negb (truthy v) then Ok None
  else
    match v with
    | VStr str => Ok (if String.eqb (trim rt str) "" then None else Some str)
    | _ => Throw (TypeError rt (what +:+ ".trim"))
    end.

(** [params.get(name)] *)
Definition params_get (text name : string) : value :=
  match assoc name (URLSearchParams site text) with
  | Some v => VStr v
  | None => VNull
  end.

(** The e-mail parameter of a webhook call, read as the send and the
    delete handlers do: from the query first, then from the body. *)
Definition email_parameter (name : string) (req : incoming) : result value :=
  let? fromQuery :=
    if truthy (http_query req) then
      let? q := get_prop rt "req.query" (http_query req) name in
      Ok (if truthy q then q else VNull)
    else Ok VNull in
  if negb (truthy fromQuery) && truthy (http_body req) then
    match http_body req with
    | VStr text => Ok (params_get text name)
    | body =>
        let? b := get_prop rt "req.body" body name in
        Ok (if truthy b then b else fromQuery)
    end
  else Ok fromQuery.

End Handlers.

Arguments catch {rt A} _ _ _.

(** *** [api/submit-tyg-form.js] *)

Module SubmitTygForm.

Section Handler.

Context (rt : runtime) (env : environment) (site : deployment).

Notation "'let!' x ':=' m 'in' k" := (bind m (fun x => k))
  (at level 10, x name, m at level 100, k at level 200).

(** Lines 53-62: the form fields, from a parsed body or from a
    URL-encoded one. *)
Definition body_data (body : value) : value :=
  match js_or body (VObj []) with
  | VStr text =>
      VObj (fold_left (fun acc kv => set_prop (fst kv) (VStr (snd kv)) acc)
              (URLSearchParams site text) [])
  | bodyData => bodyData
  end.

(** [flag === 'true' || flag === true] *)
Definition is_true (flag : value) : bool :=
  match flag with
  | VStr str => String.eqb str "true"
  | VBool b => b
  | _ => false
  end.

(** ['true'] or ['false'] *)
Definition flag_text (b : bool) : value :=
  VStr (if b then "true" else "false").

(** [submissionData.senderName || undefined] *)
Definition or_undefined (str : string) : value :=
  if String.eqb str "" then VUndefined else VStr str.

(** The validated submission, lines 108-117. *)
Record submission := mkSubmission {
  recipientName : string;
  recipientEmail : string;
  message : string;
  senderEmail : string;
  senderName : string;
  sendAnonymously : bool;
  subscribeDailyHug : bool;
  timestamp : value
}.

(** Lines 78-99: the list of validation errors, with the texts of the
    four required fields when it is empty. *)
Definition validate (bodyData : value)
  : result (list string * option (string * string * string * string)) :=
  rbind (get_prop rt "bodyData" bodyData "recipientName") (fun v1 =>
  rbind (get_prop rt "bodyData" bodyData "recipientEmail") (fun v2 =>
  rbind (get_prop rt "bodyData" bodyData "message") (fun v3 =>
  rbind (get_prop rt "bodyData" bodyData "senderEmail") (fun v4 =>
  rbind (required rt "recipientName" v1) (fun f1 =>
  rbind (required rt "recipientEmail" v2) (fun f2 =>
  rbind (required rt "message" v3) (fun f3 =>
  rbind (required rt "senderEmail" v4) (fun f4 =>
  let errors :=
    (match f1 with None => ["recipientName is required"] | Some _ => [] end) ++
    (match f2 with
     | None => ["recipientEmail is required"]
     | Some e =>
         if isValidEmail e then []
         else ["recipientEmail must be a valid email address"]
     end) ++
    (match f3 with None => ["message is required"] | Some _ => [] end) ++
    (match f4 with
     | None => ["senderEmail is required"]
     | Some e =>
         if isValidEmail e then []
         else ["senderEmail must be a valid email address"]
     end) in
  Ok (errors,
      match f1, f2, f3, f4 with
      | Some a, Some b, Some c, Some d => Some (a, b, c, d)
      | _, _, _, _ => None
      end))))))))).

(** Lines 108-117. *)
Definition prepare (bodyData : value) (fields : string * string * string * string)
  : result submission :=
  let '(name, email, text, sender) := fields in
  rbind (get_prop rt "bodyData" bodyData "senderName") (fun v5 =>
  rbind (get_prop rt "bodyData" bodyData "sendAnonymously") (fun v6 =>
  rbind (get_prop rt "bodyData" bodyData "subscribeDailyHug") (fun v7 =>
  rbind (get_prop rt "bodyData" bodyData "timestamp") (fun v8 =>
  rbind (if truthy v5 then
           match v5 with
           | VStr str => Ok (trim rt str)
           | _ => Throw (TypeError rt "senderName.trim")
           end
         else Ok "") (fun sname =>
  Ok (mkSubmission (trim rt name) (toLowerCase rt (trim rt email))
        (trim rt text) (toLowerCase rt (trim rt sender)) sname
        (is_true v6) (is_true v7) (js_or v8 (VStr (now site))))))))).

(** Lines 126-176: the four calls to the CRM and the answer that follows
    them. *)
Definition synchronise (headers : list (string * string)) (d : submission)
  : M rt outgoing :=
  let! senderContact :=
    findOrCreateContact rt env (senderEmail d)
      [("firstName", or_undefined (senderName d));
       ("name", or_undefined (senderName d))] in
  let! senderContactId := lift (get_prop rt "senderContact" senderContact "id") in
  let! _ :=
    updateContactCustomFields rt env senderContactId
      [("tyg_recipientname", VStr (recipientName d));
       ("tyg_recipientemail", VStr (recipientEmail d));
       ("tyg_message", VStr (message d));
       ("tyg_sendername", VStr (senderName d));
       ("tyg_sendanonymously", flag_text (sendAnonymously d));
       ("tyg_subscribedailyhug", flag_text (subscribeDailyHug d))] in
  let! _ := addTagsToContact rt env senderContactId (VStr "tyg--> sender") in
  let! recipientContact :=
    findOrCreateContact rt env (recipientEmail d)
      [("firstName", VStr (recipientName d));
       ("name", VStr (recipientName d))] in
  let! recipientContactId :=
    lift (get_prop rt "recipientContact" recipientContact "id") in
  ret (mkOutgoing 200 headers
         (VObj [("success", VBool true);
                ("message", VStr "Form submitted successfully");
                ("data",
                 VObj [("recipientEmail", VStr (recipientEmail d));
                       ("senderEmail", VStr (senderEmail d));
                       ("timestamp", timestamp d);
                       ("ghl",
                        VObj [("senderContactId", senderContactId);
                              ("recipientContactId", recipientContactId)])])])).

(** Lines 178-191: the answer when a call to the CRM has thrown. *)
Definition sync_failed (headers : list (string * string)) (d : submission)
    (ghlError : error) : outgoing :=
  mkOutgoing 200 headers
    (VObj [("success", VBool true);
           ("message", VStr "Form submitted successfully (GHL sync had issues)");
           ("warning", VStr "GoHighLevel integration encountered an error");
           ("data",
            VObj [("recipientEmail", VStr (recipientEmail d));
                  ("timestamp", timestamp d)]);
           ("error",
            if development site then VStr (err_message ghlError)
            else VUndefined)]).

(** [handler(req, res)], lines 14-206. *)
Definition handler (req : incoming) : M rt outgoing :=
  let headers := cors_headers "POST, OPTIONS, GET" (http_origin req) in
  if String.eqb (http_method req) "OPTIONS" then
    ret (mkOutgoing 200 headers (VObj [("message", VStr "OK")]))
  else if negb (String.eqb (http_method req) "POST") then
    ret (mkOutgoing 405 headers
           (VObj [("success", VBool false);
                  ("message", VStr "Method not allowed")]))
  else
    catch
      (let bodyData := body_data (http_body req) in
       let! checked := lift (validate bodyData) in
       match checked with
       | ([], Some fields) =>
           let! d := lift (prepare bodyData fields) in
           catch (synchronise headers d)
             (fun ghlError => ret (sync_failed headers d ghlError))
       | (errors, _) =>
           ret (mkOutgoing 400 headers
                  (VObj [("success", VBool false);
                         ("errors", VArr (map VStr errors))]))
       end)
      (fun error =>
         ret (mkOutgoing 500 headers
                (VObj [("success", VBool false);
                       ("message", VStr "Internal server error");
                       ("error",
                        if development site then VStr (err_message error)
                        else VUndefined)]))).

End Handler.

End SubmitTygForm.

(** *** [api/send_anonymous_tyg.js] *)

Module SendAnonymousTyg.

Section Handler.

Context (rt : runtime) (env : environment) (site : deployment).

Notation "'let!' x ':=' m 'in' k" := (bind m (fun x => k))
  (at level 10, x name, m at level 100, k at level 200).

Definition EMAIL_TEMPLATE_ID : string := "6957be6d9f487e131420364b".

(** The [catch] block, lines 110-160.  [targetEmail] is declared with
    [let] inside the [try] block, so the two answers that mention it are
    never built: reading it throws. *)
Definition on_error (headers : list (string * string)) (error : error)
  : M rt outgoing :=
  if has_code error "MISSING_API_KEY" then
    ret (mkOutgoing 500 headers
           (VObj [("success", VBool false);
                  ("message", VStr "Server configuration error");
                  ("error", VStr "GHL_API_KEY is not configured")]))
  else if has_code error "AUTH_ERROR" then
    ret (mkOutgoing 500 headers
           (VObj [("success", VBool false);
                  ("message", VStr "Authentication error");
                  ("error", VStr "Invalid GoHighLevel API key")]))
  else if negb (String.eqb (err_message error) "") &&
          includes (err_message error) "Contact not found" then
    throw (ReferenceError "targetEmail")
  else if has_code error "TEMPLATE_ERROR" then
    throw (ReferenceError "targetEmail")
  else
    ret (mkOutgoing 500 headers
           (VObj [("success", VBool false);
                  ("message", VStr "Internal server error");
                  ("error",
                   VStr (if development site then err_message error
                         else "An error occurred while sending the email"))])).

(** [handler(req, res)], lines 13-161. *)
Definition handler (req : incoming) : M rt outgoing :=
  let headers := cors_headers "POST, GET, OPTIONS" (http_origin req) in
  if String.eqb (http_method req) "OPTIONS" then
    ret (mkOutgoing 200 headers (VObj [("message", VStr "OK")]))
  else if negb (existsb (String.eqb (http_method req)) ["POST"; "GET"]) then
    ret (mkOutgoing 405 headers
           (VObj [("success", VBool false);
                  ("message", VStr "Method not allowed. Use POST or GET.")]))
  else
    catch
      (let! targetEmail := lift (email_parameter rt site "target_email" req) in
       let! provided := lift (required rt "targetEmail" targetEmail) in
       match provided with
       | None =>
           ret (mkOutgoing 400 headers
                  (VObj [("success", VBool false);
                         ("message", VStr "target_email parameter is required");
                         ("error",
                          VStr "Please provide target_email in the query parameter (?target_email=...) or request body")]))
       | Some text =>
           let emailTrimmed := toLowerCase rt (trim rt text) in
           if negb (isValidEmail emailTrimmed) then
             ret (mkOutgoing 400 headers
                    (VObj [("success", VBool false);
                           ("message", VStr "Invalid email format");
                           ("error",
                            VStr (quotation_mark +:+ emailTrimmed +:+
                                  quotation_mark +:+
                                  " is not a valid email address"))]))
           else
             let! _ := sendEmailTemplateByEmail rt env emailTrimmed
                         (VStr EMAIL_TEMPLATE_ID) in
             ret (mkOutgoing 200 headers
                    (VObj [("success", VBool true);
                           ("message", VStr "Email sent successfully");
                           ("data",
                            VObj [("targetEmail", VStr emailTrimmed);
                                  ("templateId", VStr EMAIL_TEMPLATE_ID);
                                  ("sent", VBool true)])]))
       end)
      (on_error headers).

End Handler.

End SendAnonymousTyg.

(** *** The delete handler ([src/unnamed/part_001], second file) *)

Module DeleteContact.

Section Handler.

Context (rt : runtime) (env : environment) (site : deployment).

Notation "'let!' x ':=' m 'in' k" := (bind m (fun x => k))
  (at level 10, x name, m at level 100, k at level 200).

(** The [catch] block. *)
Definition on_error (headers : list (string * string)) (error : error)
  : outgoing :=
  if has_code error "MISSING_API_KEY" then
    mkOutgoing 500 headers
      (VObj [("success", VBool false);
             ("message", VStr "Server configuration error");
             ("error", VStr "GHL_API_KEY is not configured")])
  else if has_code error "AUTH_ERROR" then
    mkOutgoing 500 headers
      (VObj [("success", VBool false);
             ("message", VStr "Authentication error");
             ("error", VStr "Invalid GoHighLevel API key")])
  else
    mkOutgoing 500 headers
      (VObj [("success", VBool false);
             ("message", VStr "Internal server error");
             ("error",
              VStr (if development site then err_message error
                    else "An error occurred while processing the request"))]).

(** [handler(req, res)] of the delete endpoint. *)
Definition handler (req : incoming) : M rt outgoing :=
  let headers := cors_headers "POST, GET, OPTIONS, DELETE" (http_origin req) in
  if String.eqb (http_method req) "OPTIONS" then
    ret (mkOutgoing 200 headers (VObj [("message", VStr "OK")]))
  else if negb (existsb (String.eqb (http_method req))
                  ["POST"; "GET"; "DELETE"]) then
    ret (mkOutgoing 405 headers
           (VObj [("success", VBool false);
                  ("message",
                   VStr "Method not allowed. Use POST, GET, or DELETE.")]))
  else
    catch
      (let! email := lift (email_parameter rt site "email" req) in
       let! provided := lift (required rt "email" email) in
       match provided with
       | None =>
           ret (mkOutgoing 400 headers
                  (VObj [("success", VBool false);
                         ("message", VStr "Email parameter is required");
                         ("error",
                          VStr "Please provide an email address in the query parameter (?email=...) or request body")]))
       | Some text =>
           let emailTrimmed := toLowerCase rt (trim rt text) in
           if negb (isValidEmail emailTrimmed) then
             ret (mkOutgoing 400 headers
                    (VObj [("success", VBool false);
                           ("message", VStr "Invalid email format");
                           ("error",
                            VStr (quotation_mark +:+ emailTrimmed +:+
                                  quotation_mark +:+
                                  " is not a valid email address"))]))
           else
             let! deleted := deleteContactByEmail rt env emailTrimmed in
             if truthy deleted then
               ret (mkOutgoing 200 headers
                      (VObj [("success", VBool true);
                             ("message", VStr "Contact deleted successfully");
                             ("data",
                              VObj [("email", VStr emailTrimmed);
                                    ("deleted", VBool true)])]))
             else
               ret (mkOutgoing 404 headers
                      (VObj [("success", VBool false);
                             ("message", VStr "Contact not found");
                             ("data",
                              VObj [("email", VStr emailTrimmed);
                                    ("deleted", VBool false)])]))
       end)
      (fun error => ret (on_error headers error)).

End Handler.

End DeleteContact.

(** A deployment for the scripted runtime: [forms] lists the URL-encoded
    bodies of the exchange with their entries. *)
Definition scripted_site (mode : option string)
    (forms : list (string * list (string * string))) : deployment :=
  mkDeployment mode "2026-01-01T00:00:00.000Z"
    (fun text => default [] (assoc text forms)).

(** The key a definition is stored under, lines 137-139. *)
Definition normalized_key (fieldKey : string) : string :=
  if startsWith fieldKey "contact." then substring_from 8 fieldKey
  else fieldKey.

(** The names every plain object inherits from [Object.prototype]. *)
Definition inherited_names : list string :=
  ["__proto__"; "constructor"; "__defineGetter__"; "__defineSetter__";
   "hasOwnProperty"; "__lookupGetter__"; "__lookupSetter__"; "isPrototypeOf";
   "propertyIsEnumerable"; "toString"; "valueOf"; "toLocaleString"].

(** The value converts to a string without raising: it is not an object
    with a property [toString] of its own, nor an array holding one. *)
Definition converts (v : value) : Prop := is_Some (ToString v).

(** The endpoint of the custom-field definitions, lines 125-127. *)
Definition definitions_endpoint (env : environment) : string :=
  if is_set (GHL_LOCATION_ID env)
  then "/custom-fields/?locationId=" +:+ env_String (GHL_LOCATION_ID env)
  else "/custom-fields/".

(** Neither the value of the update nor the id its key reads as raises
    when it is converted to a string. *)
Definition convertible_update (rt : runtime) (fieldDefinitions : field_map)
    (kv : string * value) : Prop :=
  slot_truthy (read (Array_prototype rt) fieldDefinitions (fst kv)) = true ->
  converts (snd kv) /\
  match read (Array_prototype rt) fieldDefinitions (fst kv) with
  | Data id => converts id
  | Builtin | ObjectPrototype => True
  end.

(** The entries of [customField] for the updates whose key reads as a
    truthy property of the map, in the order of the updates. *)
Definition resolved_fields (rt : runtime) (fieldDefinitions : field_map)
    (fieldUpdates : list (string * value)) : list value :=
  omap (fun kv =>
          let fieldId := read (Array_prototype rt) fieldDefinitions (fst kv) in
          if slot_truthy fieldId
          then Some (custom_field_entry fieldId (js_String (snd kv)))
          else None)
       fieldUpdates.

(** ** Strings *)

Lemma prefix_app (p s : string) : String.prefix p (p +:+ s) = true.
Proof.
  induction p as [|c p IH]; simpl.
  - by destruct s.
  - destruct (Ascii.ascii_dec c c); [exact IH | done].
Qed.

Lemma includes_prefix (s sub : string) :
  String.prefix sub s = true -> includes s sub = true.
Proof. intros H. destruct s; simpl in *; rewrite H; done. Qed.

Lemma includes_app_r (a s sub : string) :
  includes s sub = true -> includes (a +:+ s) sub = true.
Proof.
  intros H. induction a as [|c a IH]; simpl; [exact H|].
  rewrite IH. apply orb_true_r.
Qed.

(** A text contains each of the pieces it is assembled from. *)
Lemma includes_middle (a sub b : string) :
  includes (a +:+ sub +:+ b) sub = true.
Proof. apply includes_app_r, includes_prefix, prefix_app. Qed.

(** ** The request helpers *)

Section Executor.

Context (rt : runtime) (env : environment).

(** The monad laws, pointwise. *)
Lemma bind_ret_l {A B} (a : A) (k : A -> M rt B) s : bind (ret a) k s = k a s.
Proof. reflexivity. Qed.

Lemma bind_ret_r {A} (m : M rt A) s : bind m ret s = m s.
Proof. unfold bind, ret. by destruct (m s) as [[a|e] s']. Qed.

Lemma bind_assoc {A B C} (m : M rt A) (k : A -> M rt B) (h : B -> M rt C) s :
  bind (bind m k) h s = bind m (fun a => bind (k a) h) s.
Proof. unfold bind. by destruct (m s) as [[a|e] s']. Qed.

Lemma bind_Ok {A B} (m : M rt A) (k : A -> M rt B) s a s' :
  m s = (Ok a, s') -> bind m k s = k a s'.
Proof. intros H. unfold bind. by rewrite H. Qed.

Lemma bind_Throw {A B} (m : M rt A) (k : A -> M rt B) s e s' :
  m s = (Throw e, s') -> bind m k s = (Throw e, s').
Proof. intros H. unfold bind. by rewrite H. Qed.

Lemma fetch_log (r : request) (s : state rt) :
  log (snd (fetch rt r s)) = log s ++ [r].
Proof. unfold fetch. by destruct (upstream rt r (world s)) as [[e|resp] w']. Qed.

(** Interpreting a response touches neither the world nor the log. *)
Lemma handle_response_state (label : string) (resp : response) (s : state rt) :
  snd (handle_response rt label resp s) = s.
Proof.
  unfold handle_response, bind, lift, throw, ret.
  repeat (case_match; simpl in *; simplify_eq; try done).
Qed.

Lemma ghlRequest_unset (endpoint : string) (options : request_options) s :
  is_set (GHL_API_KEY env) = false ->
  ghlRequest rt env endpoint options s =
  (Throw (mkError "Error" missing_key_message (Some "MISSING_API_KEY") None), s).
Proof. intros H. unfold ghlRequest. by rewrite H. Qed.

Lemma ghlServicesRequest_unset (endpoint : string) (options : request_options) s :
  is_set (GHL_API_KEY env) = false ->
  ghlServicesRequest rt env endpoint options s =
  (Throw (Error missing_key_message), s).
Proof. intros H. unfold ghlServicesRequest. by rewrite H. Qed.

Lemma ghlRequest_set (endpoint : string) (options : request_options) s :
  is_set (GHL_API_KEY env) = true ->
  ghlRequest rt env endpoint options s =
  bind (fetch rt (request_of env GHL_API_BASE endpoint options))
    (handle_response rt "GHL API Error") s.
Proof. intros H. unfold ghlRequest. by rewrite H. Qed.

Lemma ghlServicesRequest_set (endpoint : string) (options : request_options) s :
  is_set (GHL_API_KEY env) = true ->
  ghlServicesRequest rt env endpoint options s =
  bind (fetch rt (request_of env GHL_SERVICES_BASE endpoint options))
    (handle_response rt "GHL Services API Error") s.
Proof. intros H. unfold ghlServicesRequest. by rewrite H. Qed.

(** Sending a request and interpreting the response adds that request to
    the log and nothing else. *)
Lemma fetch_handle_log (r : request) (label : string) (s : state rt) :
  log (snd (bind (fetch rt r) (handle_response rt label) s)) = log s ++ [r].
Proof.
  unfold bind. pose proof (fetch_log r s) as L.
  destruct (fetch rt r s) as [[resp|e] s1]; simpl in *; [|done].
  by rewrite (surjective_pairing (handle_response _ _ _ _)),
    handle_response_state.
Qed.

(** A call of a request helper sends one request when the credential is
    set and none otherwise. *)
Lemma ghlRequest_log (endpoint : string) (options : request_options) s :
  log (snd (ghlRequest rt env endpoint options s)) =
  log s ++ (if is_set (GHL_API_KEY env)
            then [request_of env GHL_API_BASE endpoint options] else []).
Proof.
  destruct (is_set (GHL_API_KEY env)) eqn:K.
  - rewrite ghlRequest_set by done. apply fetch_handle_log.
  - rewrite ghlRequest_unset by done. simpl. by rewrite app_nil_r.
Qed.

Lemma ghlServicesRequest_log (endpoint : string) (options : request_options) s :
  log (snd (ghlServicesRequest rt env endpoint options s)) =
  log s ++ (if is_set (GHL_API_KEY env)
            then [request_of env GHL_SERVICES_BASE endpoint options] else []).
Proof.
  destruct (is_set (GHL_API_KEY env)) eqn:K.
  - rewrite ghlServicesRequest_set by done. apply fetch_handle_log.
  - rewrite ghlServicesRequest_unset by done. simpl. by rewrite app_nil_r.
Qed.

(** A call of [ghlRequest] that returns has sent its request. *)
Lemma ghlRequest_Ok (endpoint : string) (options : request_options) s data s' :
  ghlRequest rt env endpoint options s = (Ok data, s') ->
  is_set (GHL_API_KEY env) = true /\
  log s' = log s ++ [request_of env GHL_API_BASE endpoint options].
Proof.
  intros H. pose proof (ghlRequest_log endpoint options s) as L.
  rewrite H in L. simpl in L.
  destruct (is_set (GHL_API_KEY env)) eqn:K; [done|].
  by rewrite ghlRequest_unset in H.
Qed.

End Executor.

(** ** The credential (C6) *)

(** C6.  When the credential is not configured both request helpers fail
    at once and leave the world and the request log untouched, so no
    network call is made.  [ghlRequest] marks the error with the code
    [MISSING_API_KEY]; [ghlServicesRequest] raises the same message without
    any code, which is where the code departs from the claim. *)
Theorem missing_credential_fails_before_any_request
    (rt : runtime) (env : environment) (endpoint : string)
    (options : request_options) (s : state rt) :
  is_set (GHL_API_KEY env) = false ->
  (exists e,
      ghlRequest rt env endpoint options s = (Throw e, s) /\
      err_message e = missing_key_message /\
      err_code e = Some "MISSING_API_KEY") /\
  (exists e,
      ghlServicesRequest rt env endpoint options s = (Throw e, s) /\
      err_message e = missing_key_message /\
      err_code e = None).
Proof.
  intros K. split; eexists; split.
  - by apply ghlRequest_unset.
  - done.
  - by apply ghlServicesRequest_unset.
  - done.
Qed.

Lemma missing_credential_witness :
  (exists e,
      ghlRequest (scripted []) without_key "/contacts/1" no_options (start [])
      = (Throw e, start []) /\
      err_message e = missing_key_message /\
      err_code e = Some "MISSING_API_KEY") /\
  (exists e,
      ghlServicesRequest (scripted []) without_key "/conversations/messages"
        (mkOptions (Some "POST") [] (Some "{}")) (start [])
      = (Throw e, start []) /\
      err_message e = missing_key_message /\
      err_code e = None).
Proof.
  split.
  - apply (missing_credential_fails_before_any_request (scripted [])
             without_key "/contacts/1" no_options (start [])).
    reflexivity.
  - apply (missing_credential_fails_before_any_request (scripted [])
             without_key "/conversations/messages"
             (mkOptions (Some "POST") [] (Some "{}")) (start [])).
    reflexivity.
Defined.

(** ** Content negotiation (C7) *)

Section Negotiation.

Context (rt : runtime) (env : environment).

Lemma handle_response_ok (label : string) (resp : response) (s : state rt) :
  resp_ok resp = true ->
  handle_response rt label resp s =
  (if blank rt (resp_text resp) then Ok (VObj [("success", VBool true)])
   else if includes (default "" (resp_content_type resp)) "application/json"
   then match JSON_parse rt (resp_text resp) with
        | inl v => Ok v
        | inr _ => Throw (Error (invalid_json_message (resp_text resp)))
        end
   else Ok (VObj [("success", VBool true);
                  ("message", VStr (resp_text resp));
                  ("raw", VStr (resp_text resp))]),
   s).
Proof.
  intros H. unfold handle_response. rewrite H. simpl.
  repeat case_match; done.
Qed.

(** C7, as amended.  For a successful response the result of [ghlRequest]
    follows from the body and the content type: a blank body gives
    [{success: true}]; otherwise a content type containing
    [application/json] gives the parsed body when the body parses and the
    error "Invalid JSON response" when it does not; any other body gives
    [{success: true, message: text, raw: text}]. *)
Theorem ghlRequest_content_negotiation
    (endpoint : string) (options : request_options) (s : state rt)
    (resp : response) (w' : World rt) :
  is_set (GHL_API_KEY env) = true ->
  upstream rt (request_of env GHL_API_BASE endpoint options) (world s)
  = (Responded resp, w') ->
  resp_ok resp = true ->
  let text := resp_text resp in
  let contentType := default "" (resp_content_type resp) in
  let r := ghlRequest rt env endpoint options s in
  snd r = mkState w' (log s ++ [request_of env GHL_API_BASE endpoint options]) /\
  (blank rt text = true -> fst r = Ok (VObj [("success", VBool true)])) /\
  (blank rt text = false -> includes contentType "application/json" = true ->
   forall v, JSON_parse rt text = inl v -> fst r = Ok v) /\
  (blank rt text = false -> includes contentType "application/json" = true ->
   forall m, JSON_parse rt text = inr m ->
   fst r = Throw (Error (invalid_json_message text))) /\
  (blank rt text = false -> includes contentType "application/json" = false ->
   fst r = Ok (VObj [("success", VBool true);
                     ("message", VStr text); ("raw", VStr text)])).
Proof.
  intros K U O text contentType r. subst r.
  rewrite ghlRequest_set by done. unfold bind, fetch. rewrite U.
  rewrite handle_response_ok by done. simpl. fold text contentType.
  split; [done|].
  repeat split.
  - by intros ->.
  - intros -> -> v ->. done.
  - intros -> -> m ->. done.
  - by intros -> ->.
Qed.

(** X5.  [ghlServicesRequest] negotiates the result of a successful
    response in the same way: [{success: true}] for a blank body, the
    parsed body or the error "Invalid JSON response" for a content type
    containing [application/json], and [{success, message, raw}] for any
    other body. *)
Lemma ghlServicesRequest_content_negotiation
    (endpoint : string) (options : request_options) (s : state rt)
    (resp : response) (w' : World rt) :
  is_set (GHL_API_KEY env) = true ->
  upstream rt (request_of env GHL_SERVICES_BASE endpoint options) (world s)
  = (Responded resp, w') ->
  resp_ok resp = true ->
  ghlServicesRequest rt env endpoint options s =
  (if blank rt (resp_text resp) then Ok (VObj [("success", VBool true)])
   else if includes (default "" (resp_content_type resp)) "application/json"
   then match JSON_parse rt (resp_text resp) with
        | inl v => Ok v
        | inr _ => Throw (Error (invalid_json_message (resp_text resp)))
        end
   else Ok (VObj [("success", VBool true);
                  ("message", VStr (resp_text resp));
                  ("raw", VStr (resp_text resp))]),
   mkState w' (log s ++ [request_of env GHL_SERVICES_BASE endpoint options])).
Proof.
  intros K U O. rewrite ghlServicesRequest_set by done.
  unfold bind, fetch. rewrite U. by rewrite handle_response_ok.
Qed.

End Negotiation.

(** A [DELETE] answered with the plain text [OK]. *)
Lemma ghlRequest_content_negotiation_witness :
  fst (ghlRequest (scripted []) with_key "/contacts/7"
         (mkOptions (Some "DELETE") [] None)
         (start [Responded (mkResponse 200 "OK" (Some "text/plain") "OK")]))
  = Ok (VObj [("success", VBool true);
              ("message", VStr "OK"); ("raw", VStr "OK")]).
Proof.
  apply (ghlRequest_content_negotiation (scripted []) with_key "/contacts/7"
           (mkOptions (Some "DELETE") [] None)
           (start [Responded (mkResponse 200 "OK" (Some "text/plain") "OK")])
           (mkResponse 200 "OK" (Some "text/plain") "OK") []);
    reflexivity.
Defined.

(** C7 as stated fails: a successful response that announces JSON and
    carries a body that is not JSON makes the helper throw; nothing is
    returned. *)
Lemma ghlRequest_unparsable_json_throws :
  let resp := mkResponse 200 "OK" (Some "application/json") "<html>" in
  resp_ok resp = true /\
  blank (scripted []) (resp_text resp) = false /\
  includes (default "" (resp_content_type resp)) "application/json" = true /\
  fst (ghlRequest (scripted []) with_key "/contacts/7" no_options
         (start [Responded resp]))
  = Throw (Error "Invalid JSON response: <html>").
Proof. repeat split; reflexivity. Qed.

(** ** Searching a contact (C2, C10) *)

Section Search.

Context (rt : runtime) (env : environment).

Lemma sent_by_log {A} (m : M rt A) (s : state rt) (l : list request) :
  log (snd (m s)) = log s ++ l -> sent_by m s = l.
Proof. intros H. unfold sent_by. rewrite H. apply drop_app_length. Qed.




(** Any other shape, short of [null], carries no contact. *)
Lemma contact_list_unrecognized (data : value) :
  nullish data = false -> recognized_shape data = false ->
  contact_list rt data = Ok [].
Proof.
  unfold recognized_shape. intros N R.
  apply orb_false_iff in R as [R A]. apply orb_false_iff in R as [R1 R2].
  destruct data; simpl in *; try done.
  unfold contact_list. simpl. unfold field.
  destruct (assoc "contact" props); [done|].
  destruct (assoc "contacts" props) as [[]|]; simpl; try done;
    by rewrite ?andb_false_r.
Qed.



(** Whatever the entries are, a contact that passes the filter is an
    object whose e-mail address matches. *)
Lemma exact_match_true (email : string) (c : value) :
  exact_match rt email c = Ok true ->
  (exists ps, c = VObj ps) /\ email_matches rt email c = true.
Proof.
  unfold exact_match, email_matches. destruct c; simpl; try done.
  intros H. split; [by eauto|].
  destruct (truthy (field "email" props)) eqn:T; [|done].
  destruct (field "email" props); try done.
  simpl in T. rewrite T. simpl. congruence.
Qed.

Lemma filter_r_sound {A} (p : A -> result bool) (l r : list A) :
  filter_r p l = Ok r -> Forall (fun x => p x = Ok true) r.
Proof.
  revert r. induction l as [|x l IH]; simpl; intros r H.
  - by inversion H.
  - destruct (p x) as [b|] eqn:P; simpl in H; [|done].
    destruct (filter_r p l) as [r'|]; simpl in H; [|done].
    inversion H; subst. destruct b; [constructor|]; eauto.
Qed.


(** The search sends its one request when the credential is set. *)
Lemma searchContactByEmail_log (email : string) (s : state rt) :
  log (snd (searchContactByEmail rt env email s)) =
  log s ++ (if is_set (GHL_API_KEY env) then [search_request rt env email] else []).
Proof.
  unfold searchContactByEmail, bind, lift, ret.
  pose proof (ghlRequest_log rt env
                ("/contacts/?query=" +:+ encodeURIComponent rt email)
                no_options s) as L.
  destruct (ghlRequest _ _ _ _ s) as [[data|e] s1]; simpl in *; [|done].
  repeat (case_match; simpl in *; simplify_eq); done.
Qed.

(** What a search returns, for any response at all, is [null] or an object
    whose e-mail address matches. *)
Lemma searchContactByEmail_sound (email : string) (s s' : state rt) (c : value) :
  searchContactByEmail rt env email s = (Ok c, s') ->
  c = VNull \/ ((exists ps, c = VObj ps) /\ email_matches rt email c = true).
Proof.
  unfold searchContactByEmail, bind, lift, ret. intros H.
  destruct (ghlRequest _ _ _ _ s) as [[data|e] s1]; [|done].
  destruct (contact_list rt data) as [contacts|]; [|done].
  destruct (filter_r _ contacts) as [r|] eqn:F; [|done].
  simplify_eq. apply filter_r_sound in F.
  destruct r as [|x r]; simpl; [by left|].
  right. inversion F; subst. by eapply exact_match_true.
Qed.

Lemma searchContactByEmail_result (email : string) (s s' : state rt) (c : value) :
  searchContactByEmail rt env email s = (Ok c, s') ->
  c = VNull \/ exists ps, c = VObj ps.
Proof.
  intros H. destruct (searchContactByEmail_sound _ _ _ _ H) as [?|[? _]]; auto.
Qed.


(** C10, as amended.  A successful search response that is not [null] and
    has none of the three recognised shapes carries no contact:
    [searchContactByEmail] returns [null] and does not throw. *)
Theorem searchContactByEmail_unrecognized_shape
    (email : string) (s s' : state rt) (data : value) :
  ghlRequest rt env ("/contacts/?query=" +:+ encodeURIComponent rt email)
    no_options s = (Ok data, s') ->
  nullish data = false ->
  recognized_shape data = false ->
  searchContactByEmail rt env email s = (Ok VNull, s').
Proof.
  intros G N R. unfold searchContactByEmail, bind, lift, ret.
  rewrite G. by rewrite contact_list_unrecognized.
Qed.

End Search.


Example searchContactByEmail_filters_partial_match :
  fst (searchContactByEmail
         (scripted
            [("{c}", VObj [("contacts",
                       VArr [VObj [("id", VStr "1"); ("email", VStr "ab@x.com")];
                             VObj [("id", VStr "2"); ("email", VStr "A@X.com")]])])])
         with_key "a@x.com" (start [json_ok "{c}"]))
  = Ok (VObj [("id", VStr "2"); ("email", VStr "A@X.com")]).
Proof. reflexivity. Qed.

(** Outside the data model the filter raises: an entry whose e-mail address
    is a number has no [toLowerCase]. *)
Example searchContactByEmail_malformed_entry :
  fst (searchContactByEmail
         (scripted [("{c}", VObj [("contacts", VArr [VObj [("email", VNum 5)]])])])
         with_key "a@x.com" (start [json_ok "{c}"]))
  = Throw (mkError "TypeError" "illegal operation: contact.email.toLowerCase"
             None None).
Proof. reflexivity. Qed.


(** A response with an empty body is read as [{success: true}], which has
    none of the recognised shapes. *)
Lemma searchContactByEmail_unrecognized_shape_witness :
  searchContactByEmail (scripted []) with_key "a@x.com"
    (start [Responded (mkResponse 200 "OK" None "")])
  = (Ok VNull, script [] [search_request (scripted []) with_key "a@x.com"]).
Proof.
  apply (searchContactByEmail_unrecognized_shape (scripted []) with_key
           "a@x.com" (start [Responded (mkResponse 200 "OK" None "")]) _
           (VObj [("success", VBool true)]));
    reflexivity.
Defined.

(** C10 as stated fails: the JSON body [null] has none of the recognised
    shapes, the helper returns it, and reading [data.contacts] throws. *)
Lemma searchContactByEmail_null_body_throws :
  let rt := scripted [("null", VNull)] in
  recognized_shape VNull = false /\
  fst (ghlRequest rt with_key "/contacts/?query=a%40x.com" no_options
         (start [json_ok "null"])) = Ok VNull /\
  fst (searchContactByEmail rt with_key "a@x.com" (start [json_ok "null"]))
  = Throw (mkError "TypeError" "illegal operation: data.contacts" None None).
Proof. repeat split; reflexivity. Qed.

(** ** Finding, creating and deleting a contact (C3, C8, C9) *)

Section Contacts.

Context (rt : runtime) (env : environment).

Lemma searchContactByEmail_sent (email : string) (s : state rt) :
  Forall (fun r => req_method r = None)
    (sent_by (searchContactByEmail rt env email) s).
Proof.
  rewrite (sent_by_log rt _ _ _ (searchContactByEmail_log rt env email s)).
  destruct (is_set (GHL_API_KEY env)); by repeat constructor.
Qed.

Lemma searchContactByEmail_Ok (email : string) (s s' : state rt) (c : value) :
  searchContactByEmail rt env email s = (Ok c, s') ->
  is_set (GHL_API_KEY env) = true /\
  log s' = log s ++ [search_request rt env email].
Proof.
  intros H. pose proof (searchContactByEmail_log rt env email s) as L.
  rewrite H in L. simpl in L.
  destruct (is_set (GHL_API_KEY env)) eqn:K; [done|].
  unfold searchContactByEmail, bind in H.
  by rewrite ghlRequest_unset in H.
Qed.

Lemma createContact_log (contactData : list (string * value)) (s : state rt) :
  log (snd (createContact rt env contactData s)) =
  log s ++ (if is_set (GHL_API_KEY env)
            then [create_request rt env contactData] else []).
Proof.
  unfold createContact, bind, lift.
  pose proof (ghlRequest_log rt env "/contacts/"
    (mkOptions (Some "POST") []
       (Some (JSON_stringify rt (VObj (contact_payload contactData))))) s) as L.
  destruct (ghlRequest _ _ _ _ s) as [[data|e] s1]; simpl in *; done.
Qed.

(** The three ways [findOrCreateContact] goes on after the search. *)
Lemma findOrCreateContact_found email contactData (s s' : state rt) ps :
  searchContactByEmail rt env email s = (Ok (VObj ps), s') ->
  findOrCreateContact rt env email contactData s = (Ok (VObj ps), s').
Proof. intros H. unfold findOrCreateContact, bind. by rewrite H. Qed.

Lemma findOrCreateContact_absent email contactData (s s' : state rt) :
  searchContactByEmail rt env email s = (Ok VNull, s') ->
  findOrCreateContact rt env email contactData s =
  createContact rt env (spread_into [("email", VStr email)] contactData) s'.
Proof. intros H. unfold findOrCreateContact, bind. by rewrite H. Qed.

Lemma findOrCreateContact_failed email contactData (s s' : state rt) e :
  searchContactByEmail rt env email s = (Throw e, s') ->
  findOrCreateContact rt env email contactData s = (Throw e, s').
Proof. intros H. unfold findOrCreateContact, bind. by rewrite H. Qed.

Lemma sent_by_same {A B} (m : M rt A) (m' : M rt B) (s : state rt) :
  snd (m s) = snd (m' s) -> sent_by m s = sent_by m' s.
Proof. unfold sent_by. by intros ->. Qed.

(** C3.  When the search returns a contact, [findOrCreateContact] returns
    that contact from the state the search left, having sent nothing but
    the search request: no create request is issued.  A [POST] is among the
    requests of [findOrCreateContact] only when the search returned
    [null]. *)
Theorem findOrCreateContact_creates_only_when_absent
    (email : string) (contactData : list (string * value)) (s : state rt) :
  (forall c s',
      searchContactByEmail rt env email s = (Ok c, s') -> c <> VNull ->
      findOrCreateContact rt env email contactData s = (Ok c, s') /\
      sent_by (findOrCreateContact rt env email contactData) s
      = [search_request rt env email] /\
      req_method (search_request rt env email) = None) /\
  (forall r,
      In r (sent_by (findOrCreateContact rt env email contactData) s) ->
      req_method r = Some "POST" ->
      exists s', searchContactByEmail rt env email s = (Ok VNull, s')).
Proof.
  split.
  - intros c s' H N.
    destruct (searchContactByEmail_result rt env _ _ _ _ H) as [->|[ps ->]];
      [done|].
    pose proof (findOrCreateContact_found email contactData _ _ _ H) as F.
    split; [done|]. split; [|done].
    apply sent_by_log. rewrite F. simpl.
    by apply searchContactByEmail_Ok in H as [_ ->].
  - intros r I P.
    assert (snd (findOrCreateContact rt env email contactData s)
            = snd (searchContactByEmail rt env email s) ->
            False) as only_search.
    { intros E. rewrite (sent_by_same _ (searchContactByEmail rt env email)) in I
        by done.
      pose proof (searchContactByEmail_sent email s) as A.
      rewrite Forall_forall in A. apply list_elem_of_In, A in I. congruence. }
    destruct (searchContactByEmail rt env email s) as [[c|e] s1] eqn:H.
    + destruct (searchContactByEmail_result rt env _ _ _ _ H) as [->|[ps ->]];
        [by eauto|].
      destruct only_search.
      by rewrite (findOrCreateContact_found email contactData _ _ _ H).
    + destruct only_search.
      by rewrite (findOrCreateContact_failed email contactData _ _ _ H).
Qed.

Lemma search_request_method (email : string) :
  req_method (search_request rt env email) = None.
Proof. reflexivity. Qed.

Lemma deleteContact_run (contactId : value) (s : state rt) :
  deleteContact rt env contactId s =
  match ghlRequest rt env ("/contacts/" +:+ js_String contactId)
          (mkOptions (Some "DELETE") [] None) s with
  | (Ok _, s') => (Ok (VBool true), s')
  | (Throw e, s') => (Throw e, s')
  end.
Proof. reflexivity. Qed.

(** C8.  [deleteContactByEmail] searches first.  When the search returns
    [null] it returns [false] from the state the search left: it does not
    throw and the search request is the only request sent.  When the search
    returns a contact it sends a [DELETE] for the id of that contact and
    returns [true] if that request succeeds; if the request fails, its
    error is thrown. *)
Theorem deleteContactByEmail_outcomes (email : string) (s : state rt) :
  (forall s',
      searchContactByEmail rt env email s = (Ok VNull, s') ->
      deleteContactByEmail rt env email s = (Ok (VBool false), s') /\
      sent_by (deleteContactByEmail rt env email) s
      = [search_request rt env email]) /\
  (forall c s',
      searchContactByEmail rt env email s = (Ok c, s') -> c <> VNull ->
      exists ps,
        c = VObj ps /\
        sent_by (deleteContactByEmail rt env email) s
        = [search_request rt env email; delete_request env (field "id" ps)] /\
        req_method (delete_request env (field "id" ps)) = Some "DELETE" /\
        match ghlRequest rt env ("/contacts/" +:+ js_String (field "id" ps))
                (mkOptions (Some "DELETE") [] None) s' with
        | (Ok _, s'') =>
            deleteContactByEmail rt env email s = (Ok (VBool true), s'')
        | (Throw e, s'') =>
            deleteContactByEmail rt env email s = (Throw e, s'')
        end).
Proof.
  split.
  - intros s' H.
    assert (deleteContactByEmail rt env email s = (Ok (VBool false), s')) as D
      by (unfold deleteContactByEmail, bind; by rewrite H).
    split; [done|]. apply sent_by_log. rewrite D. simpl.
    by apply searchContactByEmail_Ok in H as [_ ->].
  - intros c s' H N.
    destruct (searchContactByEmail_result rt env _ _ _ _ H) as [->|[ps ->]];
      [done|].
    exists ps. split; [done|].
    pose proof (searchContactByEmail_Ok _ _ _ _ H) as [K L].
    pose proof (ghlRequest_log rt env
                  ("/contacts/" +:+ js_String (field "id" ps))
                  (mkOptions (Some "DELETE") [] None) s') as L'.
    rewrite K in L'.
    assert (deleteContactByEmail rt env email s =
            deleteContact rt env (field "id" ps) s') as D.
    { unfold deleteContactByEmail, bind, lift. rewrite H. simpl.
      rewrite deleteContact_run.
      by destruct (ghlRequest _ _ _ _ s') as [[d|e] s'']. }
    rewrite D, deleteContact_run.
    split; [|split; [done|]].
    + apply sent_by_log. rewrite D, deleteContact_run.
      destruct (ghlRequest _ _ _ _ s') as [[d|e] s'']; simpl in *;
        rewrite L', L, <- app_assoc; done.
    + by destruct (ghlRequest _ _ _ _ s') as [[d|e] s''].
Qed.

(** The payload is the e-mail address followed by the optional fields that
    hold a truthy value. *)
Lemma contact_payload_eq (contactData : list (string * value)) :
  contact_payload contactData =
  ("email", field "email" contactData) ::
  optional "firstName" contactData ++ optional "lastName" contactData ++
  optional "name" contactData ++ optional "phone" contactData.
Proof. unfold contact_payload, optional. by repeat case_match. Qed.

(** C9, as amended.  [createContact] posts to [/contacts/] the
    serialisation of a payload object that holds the [email] property and,
    of the optional fields, exactly those whose value in the input is
    truthy, each with that value; a field that is undefined, or empty, is
    left out and never sent as [null]; the payload has no other
    property. *)
Theorem createContact_payload
    (contactData : list (string * value)) (s : state rt) :
  is_set (GHL_API_KEY env) = true ->
  sent_by (createContact rt env contactData) s
  = [create_request rt env contactData] /\
  req_url (create_request rt env contactData) = GHL_API_BASE +:+ "/contacts/" /\
  req_method (create_request rt env contactData) = Some "POST" /\
  req_body (create_request rt env contactData)
  = Some (JSON_stringify rt (VObj (contact_payload contactData))) /\
  assoc "email" (contact_payload contactData)
  = Some (field "email" contactData) /\
  (forall k, In k optional_fields ->
     assoc k (contact_payload contactData) =
     if truthy (field k contactData) then Some (field k contactData)
     else None) /\
  (forall k v, assoc k (contact_payload contactData) = Some v ->
     k = "email" \/ In k optional_fields).
Proof.
  intros K. split.
  { apply sent_by_log. by rewrite createContact_log, K. }
  do 3 (split; [done|]). rewrite contact_payload_eq. split; [done|]. split.
  - intros k I. simpl in I. unfold optional.
    destruct I as [<-|[<-|[<-|[<-|[]]]]]; by repeat case_match.
  - intros k v. unfold optional, optional_fields. simpl.
    destruct (String.eqb_spec k "email"); [by left|].
    destruct (String.eqb_spec k "firstName"); [subst; simpl; by auto|].
    destruct (String.eqb_spec k "lastName"); [subst; simpl; by auto 10|].
    destruct (String.eqb_spec k "name"); [subst; simpl; by auto 10|].
    destruct (String.eqb_spec k "phone"); [subst; simpl; by auto 10|].
    intros H. exfalso.
    repeat (case_match; simpl in H; simplify_eq);
      repeat match goal with
             | H : String.eqb _ _ = true |- _ => apply String.eqb_eq in H
             end; congruence.
Qed.

End Contacts.

(** A sender already known to the CRM is returned as found; a sender not
    yet known is created. *)
Lemma findOrCreateContact_creates_only_when_absent_witness :
  let ann := VObj [("id", VStr "2"); ("email", VStr "a@x.com")] in
  let bodies :=
    [("{c}", VObj [("contacts", VArr [ann])]);
     ("{}", VObj [("contacts", VArr [])]);
     ("{new}", VObj [("contact", ann)])] in
  let contactData := [("firstName", VStr "Ann"); ("name", VStr "Ann")] in
  (findOrCreateContact (scripted bodies) with_key "a@x.com" contactData
     (start [json_ok "{c}"])
   = (Ok ann, script [] [search_request (scripted bodies) with_key "a@x.com"]) /\
   sent_by (findOrCreateContact (scripted bodies) with_key "a@x.com" contactData)
     (start [json_ok "{c}"])
   = [search_request (scripted bodies) with_key "a@x.com"] /\
   req_method (search_request (scripted bodies) with_key "a@x.com") = None) /\
  (exists s',
      searchContactByEmail (scripted bodies) with_key "a@x.com"
        (start [json_ok "{}"; json_ok "{new}"]) = (Ok VNull, s')).
Proof.
  intros ann bodies contactData. split.
  - apply (findOrCreateContact_creates_only_when_absent (scripted bodies)
             with_key "a@x.com" contactData (start [json_ok "{c}"])).
    + reflexivity.
    + discriminate.
  - apply (proj2 (findOrCreateContact_creates_only_when_absent
                    (scripted bodies) with_key "a@x.com" contactData
                    (start [json_ok "{}"; json_ok "{new}"]))
             (create_request (scripted bodies) with_key
                (spread_into [("email", VStr "a@x.com")] contactData))).
    + right. left. reflexivity.
    + reflexivity.
Defined.

Example findOrCreateContact_creates_when_absent :
  let ann := VObj [("id", VStr "2"); ("email", VStr "a@x.com")] in
  let bodies :=
    [("{}", VObj [("contacts", VArr [])]); ("{new}", VObj [("contact", ann)])] in
  let run :=
    findOrCreateContact (scripted bodies) with_key "a@x.com"
      [("firstName", VStr "Ann"); ("name", VStr "Ann")]
      (start [json_ok "{}"; json_ok "{new}"]) in
  fst run = Ok ann /\
  map req_method (log (snd run)) = [None; Some "POST"] /\
  map req_body (log (snd run))
  = [None; Some "{'email':'a@x.com','firstName':'Ann','name':'Ann'}"].
Proof. repeat split; reflexivity. Qed.

(** Deleting an address the CRM does not know, and one it knows. *)
Lemma deleteContactByEmail_outcomes_witness :
  let ann := VObj [("id", VStr "2"); ("email", VStr "a@x.com")] in
  let bodies :=
    [("{c}", VObj [("contacts", VArr [ann])]);
     ("{}", VObj [("contacts", VArr [])])] in
  (deleteContactByEmail (scripted bodies) with_key "a@x.com"
     (start [json_ok "{}"])
   = (Ok (VBool false),
      script [] [search_request (scripted bodies) with_key "a@x.com"]) /\
   sent_by (deleteContactByEmail (scripted bodies) with_key "a@x.com")
     (start [json_ok "{}"])
   = [search_request (scripted bodies) with_key "a@x.com"]) /\
  (exists ps,
      ann = VObj ps /\
      sent_by (deleteContactByEmail (scripted bodies) with_key "a@x.com")
        (start [json_ok "{c}"; failed 500 "boom"])
      = [search_request (scripted bodies) with_key "a@x.com";
         delete_request with_key (field "id" ps)] /\
      req_method (delete_request with_key (field "id" ps)) = Some "DELETE" /\
      match ghlRequest (scripted bodies) with_key
              ("/contacts/" +:+ js_String (field "id" ps))
              (mkOptions (Some "DELETE") [] None)
              (script [failed 500 "boom"]
                 [search_request (scripted bodies) with_key "a@x.com"]) with
      | (Ok _, s'') =>
          deleteContactByEmail (scripted bodies) with_key "a@x.com"
            (start [json_ok "{c}"; failed 500 "boom"]) = (Ok (VBool true), s'')
      | (Throw e, s'') =>
          deleteContactByEmail (scripted bodies) with_key "a@x.com"
            (start [json_ok "{c}"; failed 500 "boom"]) = (Throw e, s'')
      end).
Proof.
  intros ann bodies. split.
  - apply (deleteContactByEmail_outcomes (scripted bodies) with_key "a@x.com"
             (start [json_ok "{}"])).
    reflexivity.
  - apply (proj2 (deleteContactByEmail_outcomes (scripted bodies) with_key
                    "a@x.com" (start [json_ok "{c}"; failed 500 "boom"]))).
    + reflexivity.
    + discriminate.
Defined.

Example deleteContactByEmail_runs :
  let ann := VObj [("id", VStr "2"); ("email", VStr "a@x.com")] in
  let bodies :=
    [("{c}", VObj [("contacts", VArr [ann])]);
     ("{}", VObj [("contacts", VArr [])])] in
  fst (deleteContactByEmail (scripted bodies) with_key "a@x.com"
         (start [json_ok "{}"])) = Ok (VBool false) /\
  fst (deleteContactByEmail (scripted bodies) with_key "a@x.com"
         (start [json_ok "{c}";
                 Responded (mkResponse 200 "OK" (Some "text/plain") "OK")]))
  = Ok (VBool true) /\
  fst (deleteContactByEmail (scripted bodies) with_key "a@x.com"
         (start [json_ok "{c}"; failed 500 "boom"]))
  = Throw (Error "GHL API Error: 500 - boom").
Proof. repeat split; reflexivity. Qed.

Lemma createContact_payload_witness :
  let contactData :=
    [("email", VStr "a@x.com"); ("firstName", VStr "Ann");
     ("lastName", VUndefined); ("phone", VStr "555")] in
  sent_by (createContact (scripted []) with_key contactData) (start [])
  = [create_request (scripted []) with_key contactData] /\
  req_url (create_request (scripted []) with_key contactData)
  = GHL_API_BASE +:+ "/contacts/" /\
  req_method (create_request (scripted []) with_key contactData) = Some "POST" /\
  req_body (create_request (scripted []) with_key contactData)
  = Some (JSON_stringify (scripted []) (VObj (contact_payload contactData))) /\
  assoc "email" (contact_payload contactData)
  = Some (field "email" contactData) /\
  (forall k, In k optional_fields ->
     assoc k (contact_payload contactData) =
     if truthy (field k contactData) then Some (field k contactData)
     else None) /\
  (forall k v, assoc k (contact_payload contactData) = Some v ->
     k = "email" \/ In k optional_fields).
Proof.
  intros contactData.
  apply (createContact_payload (scripted []) with_key contactData (start [])).
  reflexivity.
Defined.

(** C9 as stated fails: a first name given as the empty string is provided,
    not undefined, and yet it is left out of the payload. *)
Lemma createContact_omits_empty_field :
  let contactData := [("email", VStr "a@x.com"); ("firstName", VStr "")] in
  field "firstName" contactData <> VUndefined /\
  assoc "firstName" (contact_payload contactData) = None /\
  map req_body (sent_by (createContact (scripted []) with_key contactData)
                  (start []))
  = [Some "{'email':'a@x.com'}"].
Proof. repeat split; [discriminate | reflexivity..]. Qed.

(** ** Custom fields (C4) *)

(** Where the conversion succeeds, [js_String] is its result. *)
Lemma ToString_js_String : forall (v : value) (text : string),
  ToString v = Some text -> js_String v = text.
Proof.
  fix IH 1. intros [| |b|n|t|l|ps] text H; simpl in *;
    try (by injection H as <-).
  - destruct (_ l) as [texts|] eqn:E in H; [|done].
    injection H as <-. f_equal. revert texts E.
    induction l as [|x l IHl]; intros texts E.
    + by injection E as <-.
    + cbn [mbind option_bind] in E. pose proof (IH x) as IHx.
      assert (exists a texts',
                 match x with
                 | VUndefined | VNull => Some ""
                 | _ => ToString x
                 end = Some a /\
                 (fix elems (l : list value) : option (list string) :=
                    match l with
                    | [] => Some []
                    | x :: l' =>
                        match x with
                        | VUndefined | VNull => Some ""
                        | _ => ToString x
                        end ≫= fun a => cons a <$> elems l'
                    end) l = Some texts' /\
                 texts = a :: texts') as (a & texts' & Ha & Hl & ->).
      { destruct (match x with
                  | VUndefined | VNull => Some ""
                  | _ => ToString x
                  end) as [a|]; [|done]. simpl in E.
        destruct (_ l) as [texts'|] in E |- *; [|done].
        injection E as <-. by eauto. }
      simpl. f_equal; [|by apply IHl].
      clear -Ha IHx. destruct x; try (by injection Ha as <-); by apply IHx.
  - destruct (assoc "toString" ps); [done|]. by injection H as <-.
Qed.

(** Numbers are printed in plain digits below 10^21 and with an exponent
    from there on; beyond 2^53 the digits are the shortest that read back
    as the same double. *)
Example Number_toString_examples :
  map Number_toString
    [0; 7; -12; 9007199254740992; 1152921504606846976;
     1000000000000000000000; 1180591620717411303424]%Z
  = ["0"; "7"; "-12"; "9007199254740992"; "1152921504606847000";
     "1e+21"; "1.1805916207174113e+21"].
Proof. vm_compute. reflexivity. Qed.

(** A value with a property [toString] of its own does not convert. *)
Example ToString_examples :
  ToString (VArr [VNum 1; VNull; VArr [VStr "a"; VBool true]])
  = Some "1,,a,true" /\
  ToString (VObj [("id", VNum 1)]) = Some "[object Object]" /\
  ToString (VObj [("toString", VNum 1)]) = None.
Proof. repeat split; reflexivity. Qed.

Lemma inherited_names_eq : inherited_names = "__proto__" :: Object_prototype.
Proof. reflexivity. Qed.

Section CustomFields.

Context (rt : runtime) (env : environment).

Lemma to_string_Some (what : string) (v : value) (text : string) :
  ToString v = Some text -> to_string rt what v = Ok text.
Proof. intros H. unfold to_string. by rewrite H. Qed.

Lemma getCustomFieldDefinitions_log (s : state rt) :
  log (snd (getCustomFieldDefinitions rt env s)) =
  log s ++ (if is_set (GHL_API_KEY env) then [definitions_request env] else []).
Proof.
  unfold getCustomFieldDefinitions, definitions_request, bind, lift, ret.
  pose proof (ghlRequest_log rt env
    (if is_set (GHL_LOCATION_ID env)
     then "/custom-fields/?locationId=" +:+ env_String (GHL_LOCATION_ID env)
     else "/custom-fields/") no_options s) as L.
  destruct (ghlRequest _ _ _ _ s) as [[data|e] s1]; simpl in *; [|done].
  repeat (case_match; simpl in *; simplify_eq); done.
Qed.

Lemma getCustomFieldDefinitions_Ok (s s' : state rt) defs :
  getCustomFieldDefinitions rt env s = (Ok defs, s') ->
  log s' = log s ++ [definitions_request env].
Proof.
  intros H. pose proof (getCustomFieldDefinitions_log s) as L.
  rewrite H in L. simpl in L.
  destruct (is_set (GHL_API_KEY env)) eqn:K; [done|].
  unfold getCustomFieldDefinitions, bind in H.
  by rewrite ghlRequest_unset in H.
Qed.

Lemma getCustomFieldDefinitions_key (s s' : state rt) defs :
  getCustomFieldDefinitions rt env s = (Ok defs, s') ->
  is_set (GHL_API_KEY env) = true.
Proof.
  intros H. destruct (is_set (GHL_API_KEY env)) eqn:K; [done|].
  unfold getCustomFieldDefinitions, bind in H.
  by rewrite ghlRequest_unset in H.
Qed.

(** An assignment changes the properties the map has of its own at the
    assigned key at most. *)
Lemma assign_own (m : field_map) (k : string) (v : value) (k' : string) :
  own (assign m k v) !! k' = own m !! k' \/
  (k' = k /\ own (assign m k v) !! k' = Some v).
Proof.
  unfold assign.
  destruct (negb (String.eqb k "__proto__") || _).
  - simpl. destruct (decide (k' = k)) as [->|N].
    + right. by rewrite lookup_insert_eq.
    + left. by rewrite lookup_insert_ne.
  - left. by destruct v.
Qed.



(** Every id the definition map holds is truthy. *)
Lemma add_field_truthy (m m' : field_map) (fld : value) :
  (forall k id, own m !! k = Some id -> truthy id = true) ->
  add_field rt m fld = Ok m' ->
  forall k id, own m' !! k = Some id -> truthy id = true.
Proof.
  intros Hm. unfold add_field, rbind.
  destruct (get_prop rt "field.id" fld "id") as [id|]; [|done].
  destruct (truthy id) eqn:T; [|intros; simplify_eq; eauto].
  destruct (get_prop rt "field.fieldKey" fld "fieldKey") as [fk|]; [|done].
  destruct (truthy fk); [|intros; simplify_eq; eauto].
  destruct fk as [| | | |fk| |]; try done. intros H k id' L. simplify_eq.
  destruct (assign_own m (if startsWith fk "contact." then substring_from 8 fk
                          else fk) id k) as [E|[_ E]];
    rewrite E in L; [by eauto|by simplify_eq].
Qed.

Lemma add_fields_truthy (l : list value) (m m' : field_map) :
  (forall k id, own m !! k = Some id -> truthy id = true) ->
  add_fields rt m l = Ok m' ->
  forall k id, own m' !! k = Some id -> truthy id = true.
Proof.
  revert m. induction l as [|fld l IH]; simpl; intros m Hm H.
  - by simplify_eq.
  - unfold rbind in H. destruct (add_field rt m fld) as [m1|] eqn:A; [|done].
    eapply IH; [|done]. by eapply add_field_truthy.
Qed.

Lemma getCustomFieldDefinitions_truthy (s s' : state rt) defs :
  getCustomFieldDefinitions rt env s = (Ok defs, s') ->
  forall k id, own defs !! k = Some id -> truthy id = true.
Proof.
  unfold getCustomFieldDefinitions, bind, lift, ret. intros H.
  destruct (ghlRequest _ _ _ _ s) as [[data|e] s1]; [|done].
  destruct (get_prop _ _ data _) as [cfs|]; [|done].
  destruct (truthy cfs && isArray cfs).
  - destruct (add_fields rt empty_object (elements cfs)) as [m|] eqn:A; [|done].
    simplify_eq. eapply add_fields_truthy; [|done]. intros k id.
    simpl. by rewrite lookup_empty.
  - simplify_eq. intros k id. simpl. by rewrite lookup_empty.
Qed.

(** What a map with the prototype of an object literal gives for a key:
    a truthy property exactly when the key is one of its own or one of the
    names inherited from [Object.prototype]. *)
Lemma read_plain (m : field_map) (k : string) :
  proto m = PlainObject ->
  (forall k id, own m !! k = Some id -> truthy id = true) ->
  slot_truthy (read (Array_prototype rt) m k) = true <->
  is_Some (own m !! k) \/ k ∈ inherited_names.
Proof.
  intros P T. unfold read. rewrite P.
  destruct (own m !! k) as [id|] eqn:L.
  - simpl. split; [by eauto|]. intros _. by eapply T.
  - unfold from_Object_prototype. rewrite inherited_names_eq.
    destruct (String.eqb k "__proto__") eqn:E.
    + apply String.eqb_eq in E as ->. simpl. split; [|done].
      intros _. right. by left.
    + apply String.eqb_neq in E. case_bool_decide as I; simpl.
      * split; [|done]. intros _. right. by right.
      * split; [done|]. intros [[? ?]|[?|?]%elem_of_cons]; done.
Qed.

Lemma read_inherited (m : field_map) (k : string) :
  proto m = PlainObject -> own m !! k = None -> k ∈ Object_prototype ->
  read (Array_prototype rt) m k = Builtin.
Proof.
  intros P L I. unfold read, from_Object_prototype. rewrite P, L.
  destruct (String.eqb k "__proto__") eqn:E.
  - apply String.eqb_eq in E as ->. exfalso. revert I.
    unfold Object_prototype. rewrite !elem_of_cons, elem_of_nil.
    intros H. repeat destruct H as [H|H]; done.
  - by rewrite bool_decide_eq_true_2.
Qed.


Lemma resolve_fields_resolved (defs : field_map)
    (fieldUpdates : list (string * value)) :
  Forall (convertible_update rt defs) fieldUpdates ->
  resolve_fields rt defs fieldUpdates = Ok (resolved_fields rt defs fieldUpdates).
Proof.
  unfold resolved_fields.
  induction 1 as [|[k v] l H _ IH]; simpl in *; [done|].
  unfold convertible_update in H. simpl in H.
  destruct (slot_truthy (read (Array_prototype rt) defs k)) eqn:T; [|done].
  destruct (H eq_refl) as [[text Hv] Hs].
  rewrite (to_string_Some _ _ _ Hv). simpl.
  rewrite (ToString_js_String _ _ Hv).
  assert (slot_to_string rt "fieldId" (read (Array_prototype rt) defs k)
          = Ok tt) as ->.
  { destruct (read (Array_prototype rt) defs k) as [id| |]; try done.
    destruct Hs as [t Ht]. simpl. by rewrite (to_string_Some _ _ _ Ht). }
  simpl. by rewrite IH.
Qed.


(** When some update key does, it sends one more request, the [PUT] of the
    entries. *)
Lemma updateContactCustomFields_resolved
    (contactId : value) (id : string) (fieldUpdates : list (string * value))
    (s s1 : state rt) (defs : field_map) :
  ToString contactId = Some id ->
  getCustomFieldDefinitions rt env s = (Ok defs, s1) ->
  Forall (convertible_update rt defs) fieldUpdates ->
  resolved_fields rt defs fieldUpdates <> [] ->
  updateContactCustomFields rt env contactId fieldUpdates s
  = bind (ghlRequest rt env ("/contacts/" +:+ js_String contactId)
            (mkOptions (Some "PUT") []
               (Some (JSON_stringify rt
                        (VObj [("customField",
                                VArr (resolved_fields rt defs fieldUpdates))])))))
      (fun data => lift (unwrap_contact rt data)) s1 /\
  sent_by (updateContactCustomFields rt env contactId fieldUpdates) s
  = [definitions_request env;
     fields_request rt env contactId (resolved_fields rt defs fieldUpdates)].
Proof.
  intros C G U N.
  assert (updateContactCustomFields rt env contactId fieldUpdates s
    = bind (ghlRequest rt env ("/contacts/" +:+ js_String contactId)
              (mkOptions (Some "PUT") []
                 (Some (JSON_stringify rt
                          (VObj [("customField",
                                  VArr (resolved_fields rt defs fieldUpdates))])))))
        (fun data => lift (unwrap_contact rt data)) s1) as R.
  { unfold updateContactCustomFields at 1. unfold bind at 1, lift at 1.
    rewrite (to_string_Some _ _ _ C). unfold bind at 1. rewrite G.
    unfold bind at 1, lift at 1. rewrite resolve_fields_resolved by done.
    rewrite (ToString_js_String _ _ C).
    destruct (resolved_fields rt defs fieldUpdates); done. }
  split; [done|]. apply sent_by_log. rewrite R.
  pose proof (getCustomFieldDefinitions_Ok _ _ _ G) as L.
  pose proof (getCustomFieldDefinitions_key _ _ _ G) as K.
  pose proof (ghlRequest_log rt env ("/contacts/" +:+ js_String contactId)
    (mkOptions (Some "PUT") []
       (Some (JSON_stringify rt
                (VObj [("customField",
                        VArr (resolved_fields rt defs fieldUpdates))])))) s1)
    as L'.
  rewrite K in L'. unfold bind, lift.
  destruct (ghlRequest _ _ _ _ s1) as [[d|e] s2]; simpl in *;
    rewrite L', L, <- app_assoc; done.
Qed.

(** C4, where the code departs from it.  A key that no definition
    resolves, but that names a function every object inherits from
    [Object.prototype], is read from the map as that function: the update
    is not dropped.  [updateContactCustomFields] sends a [PUT] after the
    request for the definitions, with an entry that carries the value and
    no id. *)
Theorem updateContactCustomFields_inherited_key_is_written
    (contactId : value) (id : string) (k : string) (v : value) (text : string)
    (s s1 : state rt) (defs : field_map) :
  ToString contactId = Some id ->
  getCustomFieldDefinitions rt env s = (Ok defs, s1) ->
  proto defs = PlainObject ->
  own defs !! k = None ->
  k ∈ Object_prototype ->
  ToString v = Some text ->
  sent_by (updateContactCustomFields rt env contactId [(k, v)]) s
  = [definitions_request env;
     fields_request rt env contactId [VObj [("value", VStr text)]]] /\
  req_method (fields_request rt env contactId [VObj [("value", VStr text)]])
  = Some "PUT".
Proof.
  intros C G P L I V. split; [|done].
  pose proof (read_inherited defs k P L I) as R.
  assert (resolved_fields rt defs [(k, v)] = [VObj [("value", VStr text)]])
    as E.
  { unfold resolved_fields. simpl. rewrite R. simpl.
    by rewrite (ToString_js_String _ _ V). }
  rewrite <- E.
  apply (updateContactCustomFields_resolved contactId id [(k, v)] s s1 defs);
    try done.
  - constructor; [|by constructor].
    intros _. simpl. rewrite R. split; [by eexists|done].
  - by rewrite E.
Qed.

End CustomFields.

(** The update [{constructor: 'x'}] for a contact of a CRM that defines the
    one field [tyg_message]. *)
Lemma updateContactCustomFields_inherited_key_is_written_witness :
  let bodies :=
    [("{defs}",
      VObj [("customFields",
             VArr [VObj [("id", VStr "f1");
                         ("fieldKey", VStr "contact.tyg_message")]])])] in
  sent_by (updateContactCustomFields (scripted bodies) with_key (VStr "c1")
             [("constructor", VStr "x")])
    (start [json_ok "{defs}"; json_ok ""])
  = [definitions_request with_key;
     fields_request (scripted bodies) with_key (VStr "c1")
       [VObj [("value", VStr "x")]]] /\
  req_method (fields_request (scripted bodies) with_key (VStr "c1")
                [VObj [("value", VStr "x")]])
  = Some "PUT".
Proof.
  intros bodies.
  apply (updateContactCustomFields_inherited_key_is_written (scripted bodies)
           with_key (VStr "c1") "c1" "constructor" (VStr "x") "x"
           (start [json_ok "{defs}"; json_ok ""])
           (script [json_ok ""] [definitions_request with_key])
           (mkFieldMap {["tyg_message" := VStr "f1"]} PlainObject)).
  - reflexivity.
  - reflexivity.
  - reflexivity.
  - reflexivity.
  - set_solver.
  - reflexivity.
Defined.

(** What is sent for that update, and what the call returns. *)
Example updateContactCustomFields_constructor :
  let bodies :=
    [("{defs}",
      VObj [("customFields",
             VArr [VObj [("id", VStr "f1");
                         ("fieldKey", VStr "contact.tyg_message")]])])] in
  let run :=
    updateContactCustomFields (scripted bodies) with_key (VStr "c1")
      [("constructor", VStr "x")]
      (start [json_ok "{defs}"; json_ok ""]) in
  fst run = Ok (VObj [("success", VBool true)]) /\
  map req_method (log (snd run)) = [None; Some "PUT"] /\
  map req_body (log (snd run))
  = [None; Some "{'customField':[{'value':'x'}]}"].
Proof. repeat split; reflexivity. Qed.

(** A key that resolves is written, with its value turned into a string;
    the one that does not is dropped. *)
Example updateContactCustomFields_partial :
  let bodies :=
    [("{defs}",
      VObj [("customFields",
             VArr [VObj [("id", VStr "f1");
                         ("fieldKey", VStr "contact.tyg_message")]])])] in
  let run :=
    updateContactCustomFields (scripted bodies) with_key (VStr "c1")
      [("tyg_message", VNum 7); ("other", VStr "x")]
      (start [json_ok "{defs}"; json_ok ""]) in
  fst run = Ok (VObj [("success", VBool true)]) /\
  map req_method (log (snd run)) = [None; Some "PUT"] /\
  map req_body (log (snd run))
  = [None; Some "{'customField':[{'id':'f1','value':'7'}]}"].
Proof. repeat split; reflexivity. Qed.

(** ** Tags (C5) *)

Section Tags.

Context (rt : runtime) (env : environment).

Lemma existsb_same_value_zero (x : string) (seen : list string) :
  existsb (same_value_zero (VStr x)) (map VStr seen) = true <-> In x seen.
Proof.
  rewrite existsb_exists. split.
  - intros (v & I & E). apply in_map_iff in I as (y & <- & I).
    simpl in E. by apply String.eqb_eq in E as ->.
  - intros I. exists (VStr x). split; [by apply in_map|].
    simpl. apply String.eqb_refl.
Qed.

(** On strings, [new Set] keeps one copy of each member of the list that
    was not seen before. *)
Lemma set_of_strings (l seen : list string) :
  exists new,
    set_of (map VStr seen) (map VStr l) = map VStr new /\
    NoDup new /\
    forall t, In t new <-> In t l /\ ~ In t seen.
Proof.
  revert seen. induction l as [|x l IH]; intros seen; simpl.
  - exists []. split; [done|]. split; [constructor|]. simpl. tauto.
  - destruct (existsb _ (map VStr seen)) eqn:E.
    + apply existsb_same_value_zero in E.
      destruct (IH seen) as (new & H1 & H2 & H3).
      exists new. split; [done|]. split; [done|].
      intros t. rewrite H3. split; [tauto|].
      intros [[<-|I] N]; tauto.
    + assert (~ In x seen) as N.
      { intros I. apply existsb_same_value_zero in I. congruence. }
      destruct (IH (seen ++ [x])) as (new & H1 & H2 & H3).
      exists (x :: new). split.
      { simpl. f_equal. by rewrite <- H1, map_app. }
      split.
      { constructor; [|done]. rewrite list_elem_of_In, H3, in_app_iff.
        simpl. tauto. }
      intros t. simpl. rewrite H3, in_app_iff. simpl.
      destruct (decide (x = t)) as [<-|D]; tauto.
Qed.

Lemma tags_array_strings (tags : value) (given : list string) :
  tag_argument tags given -> tags_array tags = map VStr given.
Proof. by intros [(t & -> & ->)| ->]. Qed.

Lemma existing_tags (contact : value) (old : list string) :
  current_tags contact old ->
  exists t,
    get_prop rt "contact.tags" contact "tags" = Ok t /\
    spread_elements rt "existingTags" (js_or t (VArr [])) = Ok (map VStr old).
Proof.
  intros (ps & -> & [H|[H ->]]); simpl; eexists; (split; [done|]).
  - rewrite H. done.
  - unfold js_or. by rewrite H.
Qed.

(** C5.  When the contact read from the CRM holds the tags [old] and the
    tag argument stands for the tags [given] (a single string standing for
    the list of that one string), [addTagsToContact] reads the contact and
    then writes back, in a [PUT], a tag list without repetition whose
    members are exactly the members of [old] and of [given]. *)
Theorem addTagsToContact_writes_union
    (contactId tags : value) (s s1 : state rt)
    (currentContact contact : value) (old given : list string) :
  ghlRequest rt env ("/contacts/" +:+ js_String contactId) no_options s
  = (Ok currentContact, s1) ->
  unwrap_contact rt currentContact = Ok contact ->
  current_tags contact old ->
  tag_argument tags given ->
  exists written,
    sent_by (addTagsToContact rt env contactId tags) s
    = [contact_request env contactId;
       tags_request rt env contactId (map VStr written)] /\
    req_method (tags_request rt env contactId (map VStr written)) = Some "PUT" /\
    req_body (tags_request rt env contactId (map VStr written))
    = Some (JSON_stringify rt (VObj [("tags", VArr (map VStr written))])) /\
    NoDup written /\
    forall t, In t written <-> In t old \/ In t given.
Proof.
  intros G U C T.
  destruct (existing_tags contact old C) as (t & P & E).
  destruct (set_of_strings (old ++ given) []) as (written & H1 & H2 & H3).
  exists written. split; [|split; [done|split; [done|split; [done|]]]].
  - apply sent_by_log.
    pose proof (ghlRequest_Ok rt env _ _ _ _ _ G) as [K L].
    unfold addTagsToContact, bind, lift. rewrite G, U, P, E.
    rewrite (tags_array_strings tags given T), <- map_app.
    change (@nil value) with (map VStr []). rewrite H1.
    pose proof (ghlRequest_log rt env ("/contacts/" +:+ js_String contactId)
      (mkOptions (Some "PUT") []
         (Some (JSON_stringify rt (VObj [("tags", VArr (map VStr written))]))))
      s1) as L'.
    rewrite K in L'.
    destruct (ghlRequest _ _ _ _ s1) as [[d|e] s2]; simpl in *;
      rewrite L', L, <- app_assoc; done.
  - intros x. rewrite H3, in_app_iff. simpl. tauto.
Qed.

End Tags.

(** The contact has the tag [a] and is given the tag [b]. *)
Lemma addTagsToContact_writes_union_witness :
  let bodies := [("{c}", VObj [("contact",
                     VObj [("id", VStr "c1"); ("tags", VArr [VStr "a"])])])] in
  exists written,
    sent_by (addTagsToContact (scripted bodies) with_key (VStr "c1") (VStr "b"))
      (start [json_ok "{c}"; json_ok ""])
    = [contact_request with_key (VStr "c1");
       tags_request (scripted bodies) with_key (VStr "c1") (map VStr written)] /\
    req_method (tags_request (scripted bodies) with_key (VStr "c1")
                  (map VStr written)) = Some "PUT" /\
    req_body (tags_request (scripted bodies) with_key (VStr "c1")
                (map VStr written))
    = Some (JSON_stringify (scripted bodies)
              (VObj [("tags", VArr (map VStr written))])) /\
    NoDup written /\
    forall t, In t written <-> In t ["a"] \/ In t ["b"].
Proof.
  intros bodies.
  apply (addTagsToContact_writes_union (scripted bodies) with_key
           (VStr "c1") (VStr "b") (start [json_ok "{c}"; json_ok ""])
           (script [json_ok ""] [contact_request with_key (VStr "c1")])
           (VObj [("contact",
                   VObj [("id", VStr "c1"); ("tags", VArr [VStr "a"])])])
           (VObj [("id", VStr "c1"); ("tags", VArr [VStr "a"])])
           ["a"] ["b"]).
  - reflexivity.
  - reflexivity.
  - eexists. split; [reflexivity|]. left. reflexivity.
  - left. eexists. split; reflexivity.
Defined.

(** The two examples of the specification. *)
Example addTagsToContact_known_tag :
  let bodies := [("{c}", VObj [("contact",
                     VObj [("id", VStr "c1"); ("tags", VArr [VStr "x"])])])] in
  map req_body
    (sent_by (addTagsToContact (scripted bodies) with_key (VStr "c1") (VStr "x"))
       (start [json_ok "{c}"; json_ok ""]))
  = [None; Some "{'tags':['x']}"].
Proof. reflexivity. Qed.

Example addTagsToContact_new_tag :
  let bodies := [("{c}", VObj [("contact",
                     VObj [("id", VStr "c1"); ("tags", VArr [VStr "a"])])])] in
  map req_body
    (sent_by (addTagsToContact (scripted bodies) with_key (VStr "c1") (VStr "b"))
       (start [json_ok "{c}"; json_ok ""]))
  = [None; Some "{'tags':['a','b']}"].
Proof. reflexivity. Qed.

(** ** Templated e-mail (C1) *)

Section Fallback.

Context (rt : runtime) (env : environment).

Lemma services_with_location_header_log (payload : value) (s : state rt) :
  log (snd (services_with_location_header rt env payload s)) =
  log s ++ [location_header_request rt env payload].
Proof.
  unfold services_with_location_header, bind, fetch, lift, throw, ret.
  destruct (upstream rt _ (world s)) as [[e|resp] w']; simpl; [done|].
  repeat (case_match; simpl in *; simplify_eq); done.
Qed.

Lemma services_plain_log (payload : value) (s : state rt) :
  log (snd (services_plain rt env payload s)) =
  log s ++ (if is_set (GHL_API_KEY env)
            then [services_request rt env payload] else []).
Proof. apply ghlServicesRequest_log. Qed.

Lemma rest_with_location_path_log (payload : value) (s : state rt) :
  log (snd (rest_with_location_path rt env payload s)) =
  log s ++ (if is_set (GHL_API_KEY env)
            then [location_path_request rt env payload] else []).
Proof. apply ghlRequest_log. Qed.

(** The error of a missing credential stops the loop. *)
Lemma missing_key_not_retried : try_next (Error missing_key_message) = false.
Proof. reflexivity. Qed.

Lemma services_plain_retried (payload : value) (s s' : state rt) (e : error) :
  services_plain rt env payload s = (Throw e, s') ->
  try_next e = true ->
  is_set (GHL_API_KEY env) = true.
Proof.
  intros H T. destruct (is_set (GHL_API_KEY env)) eqn:K; [done|].
  unfold services_plain in H. rewrite ghlServicesRequest_unset in H by done.
  injection H as <- <-. by rewrite missing_key_not_retried in T.
Qed.

Lemma endpoints_with_location (payload : value) :
  is_set (GHL_LOCATION_ID env) = true ->
  endpoints rt env payload =
  [services_with_location_header rt env payload;
   services_plain rt env payload;
   rest_with_location_path rt env payload].
Proof. intros H. unfold endpoints. by rewrite H. Qed.

Lemma endpoints_without_location (payload : value) :
  is_set (GHL_LOCATION_ID env) = false ->
  endpoints rt env payload = [services_plain rt env payload].
Proof. intros H. unfold endpoints. by rewrite H. Qed.

(** An error that sends the loop on has a message, and the final error
    quotes it. *)
Lemma all_failed_message_quotes (e : error) (templateId : value) :
  try_next e = true ->
  includes (all_failed_message (Some e) templateId) (err_message e) = true.
Proof.
  unfold try_next, all_failed_message, last_message. intros T.
  apply andb_true_iff in T as [N _]. apply negb_true_iff in N. rewrite N.
  apply includes_middle.
Qed.




(** The loop over the three candidates, outcome by outcome, in the terms
    of the code. *)
Lemma sendEmailTemplate_loop
    (contactId templateId : value) (s0 : state rt) :
  is_set (GHL_LOCATION_ID env) = true ->
  let payload := emailPayload contactId templateId in
  sendEmailTemplate rt env contactId templateId s0 =
  match services_with_location_header rt env payload s0 with
  | (Ok data, s1) => (Ok data, s1)
  | (Throw e1, s1) =>
      if try_next e1 then
        match services_plain rt env payload s1 with
        | (Ok data, s2) => (Ok data, s2)
        | (Throw e2, s2) =>
            if try_next e2 then
              match rest_with_location_path rt env payload s2 with
              | (Ok data, s3) => (Ok data, s3)
              | (Throw e3, s3) =>
                  if try_next e3 then
                    (Throw (Error (all_failed_message (Some e3) templateId)), s3)
                  else (Throw e3, s3)
              end
            else (Throw e2, s2)
        end
      else (Throw e1, s1)
  end /\
  (forall e, try_next e = true ->
     includes (all_failed_message (Some e) templateId) (err_message e) = true) /\
  exists n, n <= 3 /\
    sent_by (sendEmailTemplate rt env contactId templateId) s0 =
    take n [location_header_request rt env payload;
            services_request rt env payload;
            location_path_request rt env payload].
Proof.
  intros Hloc payload.
  assert (sendEmailTemplate rt env contactId templateId s0 =
    match services_with_location_header rt env payload s0 with
    | (Ok data, s1) => (Ok data, s1)
    | (Throw e1, s1) =>
        if try_next e1 then
          match services_plain rt env payload s1 with
          | (Ok data, s2) => (Ok data, s2)
          | (Throw e2, s2) =>
              if try_next e2 then
                match rest_with_location_path rt env payload s2 with
                | (Ok data, s3) => (Ok data, s3)
                | (Throw e3, s3) =>
                    if try_next e3 then
                      (Throw (Error (all_failed_message (Some e3) templateId)), s3)
                    else (Throw e3, s3)
                end
              else (Throw e2, s2)
          end
        else (Throw e1, s1)
    end) as R.
  { unfold sendEmailTemplate, bind. fold payload.
    rewrite endpoints_with_location by done. cbn [try_endpoints].
    destruct (services_with_location_header rt env payload s0)
      as [[d1|e1] s1]; [done|].
    destruct (try_next e1); [|done].
    destruct (services_plain rt env payload s1) as [[d2|e2] s2]; [done|].
    destruct (try_next e2); [|done].
    destruct (rest_with_location_path rt env payload s2)
      as [[d3|e3] s3]; [done|].
    by destruct (try_next e3). }
  split; [exact R|]. split; [intros e; apply all_failed_message_quotes|].
  pose proof (services_with_location_header_log payload s0) as L1.
  destruct (services_with_location_header rt env payload s0)
    as [[d1|e1] s1] eqn:C1; simpl in L1.
  { exists 1. split; [lia|]. apply sent_by_log. by rewrite R. }
  destruct (try_next e1) eqn:T1;
    [|exists 1; split; [lia|]; apply sent_by_log; by rewrite R].
  pose proof (services_plain_log payload s1) as L2.
  destruct (services_plain rt env payload s1) as [[d2|e2] s2] eqn:C2;
    simpl in L2.
  { destruct (is_set (GHL_API_KEY env)).
    - exists 2. split; [lia|]. apply sent_by_log. rewrite R. simpl.
      by rewrite L2, L1, <- app_assoc.
    - exists 1. split; [lia|]. apply sent_by_log. rewrite R. simpl.
      by rewrite L2, L1, app_nil_r. }
  destruct (try_next e2) eqn:T2.
  - pose proof (services_plain_retried _ _ _ _ C2 T2) as K.
    pose proof (rest_with_location_path_log payload s2) as L3.
    rewrite K in L2, L3.
    exists 3. split; [lia|]. apply sent_by_log. rewrite R.
    destruct (rest_with_location_path rt env payload s2) as [[d3|e3] s3];
      [|destruct (try_next e3)]; simpl in *;
      by rewrite L3, L2, L1, <- !app_assoc.
  - destruct (is_set (GHL_API_KEY env)).
    + exists 2. split; [lia|]. apply sent_by_log. rewrite R. simpl.
      by rewrite L2, L1, <- app_assoc.
    + exists 1. split; [lia|]. apply sent_by_log. rewrite R. simpl.
      by rewrite L2, L1, app_nil_r.
Qed.

(** The test of line 467 is the test for one of the marks. *)
Lemma try_next_continue_shaped (e : error) : try_next e = continue_shaped e.
Proof.
  unfold try_next, continue_shaped, continue_marks. simpl.
  rewrite orb_false_r, !orb_assoc.
  destruct (err_message e) as [|c m]; reflexivity.
Qed.

Lemma candidate_requests_eq (loc : string) (payload : value) :
  GHL_LOCATION_ID env = Some loc ->
  [location_header_request rt env payload;
   services_request rt env payload;
   location_path_request rt env payload]
  = candidate_requests rt env loc payload.
Proof.
  intros H.
  unfold location_header_request, services_request, location_path_request,
    candidate_requests, request_of, default_headers, env_String.
  by rewrite H.
Qed.

(** C1.  With a location id configured, [sendEmailTemplate] runs the
    candidates in the order services base with the location header,
    services base without it, legacy base with the location id in the
    path.  It returns the result of the first candidate that succeeds, from
    the state that candidate left, so that no later candidate runs; it goes
    on to the next candidate exactly when the message of the error holds
    404, Not found, 401 or Invalid JWT; it rethrows any other error from
    the state the candidate left; and when the three candidates fail with
    such errors it throws an error whose message quotes the message of the
    last one.  Each candidate sends its own request, the second and third
    only with a credential, and the requests sent are an initial segment
    of the three candidate requests. *)
Theorem sendEmailTemplate_fallback
    (contactId templateId : value) (s0 : state rt) (loc : string) :
  GHL_LOCATION_ID env = Some loc ->
  loc <> "" ->
  let payload := emailPayload contactId templateId in
  let with_credential (l : list request) :=
    if is_set (GHL_API_KEY env) then l else [] in
  sendEmailTemplate rt env contactId templateId s0 =
  match services_with_location_header rt env payload s0 with
  | (Ok data, s1) => (Ok data, s1)
  | (Throw e1, s1) =>
      if continue_shaped e1 then
        match services_plain rt env payload s1 with
        | (Ok data, s2) => (Ok data, s2)
        | (Throw e2, s2) =>
            if continue_shaped e2 then
              match rest_with_location_path rt env payload s2 with
              | (Ok data, s3) => (Ok data, s3)
              | (Throw e3, s3) =>
                  if continue_shaped e3 then
                    (Throw (Error (all_failed_message (Some e3) templateId)), s3)
                  else (Throw e3, s3)
              end
            else (Throw e2, s2)
        end
      else (Throw e1, s1)
  end /\
  (forall e, continue_shaped e = true ->
     includes (all_failed_message (Some e) templateId) (err_message e) = true) /\
  (forall s,
     sent_by (services_with_location_header rt env payload) s
     = take 1 (candidate_requests rt env loc payload) /\
     sent_by (services_plain rt env payload) s
     = with_credential (take 1 (drop 1 (candidate_requests rt env loc payload))) /\
     sent_by (rest_with_location_path rt env payload) s
     = with_credential (drop 2 (candidate_requests rt env loc payload))) /\
  exists n, n <= 3 /\
    sent_by (sendEmailTemplate rt env contactId templateId) s0 =
    take n (candidate_requests rt env loc payload).
Proof.
  intros L N payload with_credential.
  assert (is_set (GHL_LOCATION_ID env) = true) as Hloc.
  { rewrite L. simpl. by apply negb_true_iff, String.eqb_neq. }
  destruct (sendEmailTemplate_loop contactId templateId s0 Hloc)
    as (R & Q & n & Hn & S).
  fold payload in R, S. rewrite (candidate_requests_eq loc payload L) in S.
  split.
  { rewrite R.
    destruct (services_with_location_header rt env payload s0)
      as [[d1|e1] s1]; [done|].
    rewrite try_next_continue_shaped. destruct (continue_shaped e1); [|done].
    destruct (services_plain rt env payload s1) as [[d2|e2] s2]; [done|].
    rewrite try_next_continue_shaped. destruct (continue_shaped e2); [|done].
    destruct (rest_with_location_path rt env payload s2)
      as [[d3|e3] s3]; [done|].
    by rewrite try_next_continue_shaped. }
  split.
  { intros e. rewrite <- try_next_continue_shaped. apply Q. }
  split; [|by exists n].
  intros s. rewrite <- (candidate_requests_eq loc payload L).
  repeat split.
  - apply sent_by_log, services_with_location_header_log.
  - apply sent_by_log. rewrite services_plain_log. unfold with_credential.
    by destruct (is_set (GHL_API_KEY env)).
  - apply sent_by_log. rewrite rest_with_location_path_log.
    unfold with_credential. by destruct (is_set (GHL_API_KEY env)).
Qed.

(** Without a location id the second candidate is the only one. *)
Lemma sendEmailTemplate_without_location
    (contactId templateId : value) (s0 : state rt) :
  is_set (GHL_LOCATION_ID env) = false ->
  sendEmailTemplate rt env contactId templateId s0 =
  match services_plain rt env (emailPayload contactId templateId) s0 with
  | (Ok data, s1) => (Ok data, s1)
  | (Throw e1, s1) =>
      if try_next e1 then
        (Throw (Error (all_failed_message (Some e1) templateId)), s1)
      else (Throw e1, s1)
  end.
Proof.
  intros Hloc. unfold sendEmailTemplate, bind.
  rewrite endpoints_without_location by done. cbn [try_endpoints].
  destruct (services_plain rt env _ s0) as [[d1|e1] s1]; [done|].
  by destruct (try_next e1).
Qed.

End Fallback.

(** The first example of the specification: the first two candidates
    answer 404 and the third succeeds. *)
Lemma sendEmailTemplate_fallback_witness :
  let bodies := [("{sent}", VObj [("messageId", VStr "m1")])] in
  let headers :=
    [("Authorization", "Bearer key"); ("Content-Type", "application/json");
     ("Version", "2021-07-28")] in
  let body :=
    Some "{'type':'Email','contactId':'c1','templateId':'t1','subject':'Someone shared encouragement with you'}" in
  sendEmailTemplate (scripted bodies) with_key_and_location
    (VStr "c1") (VStr "t1")
    (start [failed 404 "Not found"; failed 404 "Not found"; json_ok "{sent}"])
  = (Ok (VObj [("messageId", VStr "m1")]),
     script []
       [mkRequest "https://services.leadconnectorhq.com/conversations/messages"
          (Some "POST") (headers ++ [("locationId", "loc")]) body;
        mkRequest "https://services.leadconnectorhq.com/conversations/messages"
          (Some "POST") headers body;
        mkRequest
          "https://rest.gohighlevel.com/v1/locations/loc/conversations/messages"
          (Some "POST") headers body]).
Proof.
  intros bodies headers body.
  pose proof (proj1 (sendEmailTemplate_fallback (scripted bodies)
                       with_key_and_location (VStr "c1") (VStr "t1")
                       (start [failed 404 "Not found"; failed 404 "Not found";
                               json_ok "{sent}"])
                       "loc" eq_refl ltac:(discriminate))) as H.
  exact H.
Defined.

(** The second example: a first candidate that fails with another error
    ends the call; the outcomes scripted for the later candidates are left
    unused. *)
Example sendEmailTemplate_aborts :
  let run :=
    sendEmailTemplate (scripted []) with_key_and_location
      (VStr "c1") (VStr "t1")
      (start [failed 422 "bad template"; json_ok ""; json_ok ""]) in
  fst run = Throw (Error "GHL Services API Error: 422 - bad template") /\
  world (snd run) = [json_ok ""; json_ok ""] /\
  map req_url (log (snd run))
  = ["https://services.leadconnectorhq.com/conversations/messages"].
Proof. repeat split; reflexivity. Qed.

Example sendEmailTemplate_all_fail :
  let run :=
    sendEmailTemplate (scripted []) with_key_and_location
      (VStr "c1") (VStr "t1")
      (start [failed 404 "Not found"; failed 401 "Invalid JWT";
              failed 404 "no route"]) in
  fst run
  = Throw (Error "All email endpoints failed. Last error: GHL API Error: 404 - no route. Please verify the template ID (t1) and API configuration. If you're getting 401 errors, you may need to use an OAuth token instead of an API key for the services endpoint.") /\
  map req_url (log (snd run))
  = ["https://services.leadconnectorhq.com/conversations/messages";
     "https://services.leadconnectorhq.com/conversations/messages";
     "https://rest.gohighlevel.com/v1/locations/loc/conversations/messages"] /\
  map (assoc "locationId") (map req_headers (log (snd run)))
  = [Some "loc"; None; None].
Proof. repeat split; reflexivity. Qed.

(** ** Regular expressions and the e-mail check *)

Lemma matches_Void_inv (l : list N) : matches Void l -> False.
Proof. inversion 1. Qed.

Lemma matches_Eps_inv (l : list N) : matches Eps l -> l = [].
Proof. by inversion 1. Qed.

Lemma matches_Class_inv (p : N -> bool) (l : list N) :
  matches (Class p) l -> exists a, l = [a] /\ p a = true.
Proof. inversion 1; subst; eauto. Qed.

Lemma matches_Cat_inv (r1 r2 : regex) (l : list N) :
  matches (Cat r1 r2) l ->
  exists l1 l2, l = l1 ++ l2 /\ matches r1 l1 /\ matches r2 l2.
Proof. inversion 1; subst; eauto. Qed.

Lemma matches_Alt_inv (r1 r2 : regex) (l : list N) :
  matches (Alt r1 r2) l -> matches r1 l \/ matches r2 l.
Proof. inversion 1; subst; auto. Qed.

Lemma nullable_matches (r : regex) : nullable r = true <-> matches r [].
Proof.
  induction r as [| |p|r1 IH1 r2 IH2|r1 IH1 r2 IH2|r IH]; simpl.
  - split; [done|]. by intros []%matches_Void_inv.
  - split; [constructor|done].
  - split; [done|]. by intros (a & ? & _)%matches_Class_inv.
  - rewrite andb_true_iff, IH1, IH2. split.
    + intros [H1 H2]. by apply (matches_Cat _ _ [] []).
    + intros (l1 & l2 & E & H1 & H2)%matches_Cat_inv.
      symmetry in E. apply app_eq_nil in E as [-> ->]. done.
  - rewrite orb_true_iff, IH1, IH2. split.
    + intros [H|H]; [by apply matches_Alt_l | by apply matches_Alt_r].
    + apply matches_Alt_inv.
  - split; [constructor|done].
Qed.

(** A non-empty word of [r*] starts with a non-empty word of [r]. *)
Lemma matches_Star_cons (r : regex) (a : N) (l : list N) :
  matches (Star r) (a :: l) ->
  exists l1 l2, l = l1 ++ l2 /\ matches r (a :: l1) /\ matches (Star r) l2.
Proof.
  intros H. remember (Star r) as r' eqn:Er. remember (a :: l) as w eqn:Ew.
  revert a l Ew.
  induction H as [| | | | | |r0 l1 l2 H1 _ H2 IH2]; intros x w Ew;
    try discriminate.
  injection Er as ->. destruct l1 as [|b l1]; simpl in Ew.
  - by apply IH2.
  - simplify_eq. by exists l1, l2.
Qed.

Lemma deriv_matches (a : N) (r : regex) (l : list N) :
  matches (deriv a r) l <-> matches r (a :: l).
Proof.
  revert l.
  induction r as [| |p|r1 IH1 r2 IH2|r1 IH1 r2 IH2|r IH]; intros l; simpl.
  - split; by intros []%matches_Void_inv.
  - split; [by intros []%matches_Void_inv|]. by intros ?%matches_Eps_inv.
  - destruct (p a) eqn:P; split.
    + intros ->%matches_Eps_inv. by constructor.
    + intros (b & E & _)%matches_Class_inv. simplify_eq. constructor.
    + by intros []%matches_Void_inv.
    + intros (b & E & Hb)%matches_Class_inv. simplify_eq. congruence.
  - split.
    + intros [H|H]%matches_Alt_inv.
      * apply matches_Cat_inv in H as (l1 & l2 & -> & H1 & H2).
        apply IH1 in H1. by apply (matches_Cat _ _ (a :: l1) l2).
      * destruct (nullable r1) eqn:Nl; [|by apply matches_Void_inv in H].
        apply nullable_matches in Nl. apply IH2 in H.
        by apply (matches_Cat _ _ [] (a :: l)).
    + intros (l1 & l2 & E & H1 & H2)%matches_Cat_inv.
      destruct l1 as [|b l1]; simpl in E.
      * subst l2. apply matches_Alt_r.
        apply nullable_matches in H1. rewrite H1. by apply IH2.
      * simplify_eq. apply matches_Alt_l.
        constructor; [by apply IH1|done].
  - split.
    + intros [H|H]%matches_Alt_inv;
        [apply matches_Alt_l; by apply IH1 | apply matches_Alt_r; by apply IH2].
    + intros [H|H]%matches_Alt_inv;
        [apply matches_Alt_l; by apply IH1 | apply matches_Alt_r; by apply IH2].
  - split.
    + intros (l1 & l2 & -> & H1 & H2)%matches_Cat_inv.
      apply IH in H1. by apply (matches_Star_app _ (a :: l1) l2).
    + intros (l1 & l2 & -> & H1 & H2)%matches_Star_cons.
      constructor; [by apply IH|done].
Qed.

(** Testing by derivatives decides membership. *)
Lemma regex_test_matches (r : regex) (l : list N) :
  regex_test r l = true <-> matches r l.
Proof.
  unfold regex_test. revert r. induction l as [|a l IH]; intros r; simpl.
  - apply nullable_matches.
  - rewrite IH. apply deriv_matches.
Qed.

(** The words of [[c]*] and of [[c]+] for a class [c]. *)
Lemma matches_Star_Class (p : N -> bool) (l : list N) :
  matches (Star (Class p)) l <-> Forall (fun c => p c = true) l.
Proof.
  split.
  - induction l as [|a l IH]; intros H; [constructor|].
    apply matches_Star_cons in H as (l1 & l2 & -> & H1 & H2).
    apply matches_Class_inv in H1 as (b & E & Hb). simplify_eq.
    simpl. constructor; [done|]. by apply IH.
  - induction 1 as [|a l Ha _ IH]; [constructor|].
    apply (matches_Star_app _ [a] l); [by constructor|done].
Qed.

Lemma matches_Plus_Class (p : N -> bool) (l : list N) :
  matches (Plus (Class p)) l <-> l <> [] /\ Forall (fun c => p c = true) l.
Proof.
  unfold Plus. split.
  - intros (l1 & l2 & -> & H1 & H2)%matches_Cat_inv.
    apply matches_Class_inv in H1 as (b & -> & Hb).
    apply matches_Star_Class in H2. split; [done|]. by constructor.
  - intros [Hne H]. destruct l as [|a l]; [done|].
    inversion H; subst.
    apply (matches_Cat _ _ [a] l); [by constructor|].
    by apply matches_Star_Class.
Qed.

Lemma matches_Class_Cat (c : N) (r : regex) (l : list N) :
  matches (Cat (Class (N.eqb c)) r) l <-> exists l', l = c :: l' /\ matches r l'.
Proof.
  split.
  - intros (l1 & l2 & -> & H1 & H2)%matches_Cat_inv.
    apply matches_Class_inv in H1 as (b & -> & Hb).
    apply N.eqb_eq in Hb as <-. by exists l2.
  - intros (l' & -> & H).
    apply (matches_Cat _ _ [c] l'); [|done].
    constructor. apply N.eqb_refl.
Qed.

(** The words of the e-mail expression. *)
Lemma matches_emailRegex (l : list N) :
  matches emailRegex l <->
  exists local domain top,
    l = local ++ [at_sign] ++ domain ++ [full_stop] ++ top /\
    local <> [] /\ domain <> [] /\ top <> [] /\
    Forall (fun c => address_unit c = true) (local ++ domain ++ top).
Proof.
  unfold emailRegex. split.
  - intros (local & l2 & -> & H1 & H2)%matches_Cat_inv.
    apply matches_Class_Cat in H2 as (l3 & -> & H3).
    apply matches_Cat_inv in H3 as (domain & l4 & -> & H4 & H5).
    apply matches_Class_Cat in H5 as (top & -> & H6).
    apply matches_Plus_Class in H1 as [N1 F1], H4 as [N4 F4], H6 as [N6 F6].
    exists local, domain, top. repeat split; try done.
    rewrite !Forall_app. done.
  - intros (local & domain & top & -> & N1 & N2 & N3 & F).
    rewrite !Forall_app in F. destruct F as (F1 & F2 & F3).
    constructor; [by apply matches_Plus_Class|].
    apply matches_Class_Cat. eexists. split; [done|].
    constructor; [by apply matches_Plus_Class|].
    apply matches_Class_Cat. eexists. split; [done|].
    by apply matches_Plus_Class.
Qed.

Lemma address_units (l : list N) :
  Forall (fun c => address_unit c = true) l ->
  Forall (fun c => white_space c = false) l /\
  List.filter (N.eqb at_sign) l = [].
Proof.
  induction 1 as [|c l Hc _ [IH1 IH2]]; [by split|].
  unfold address_unit in Hc. apply negb_true_iff, orb_false_iff in Hc.
  destruct Hc as [W E]. split; [by constructor|]. cbn [List.filter].
  by rewrite N.eqb_sym, E.
Qed.

(** The words of the e-mail expression hold no white space and one at
    sign. *)
Lemma matches_emailRegex_units (l : list N) :
  matches emailRegex l ->
  Forall (fun c => white_space c = false) l /\
  length (List.filter (N.eqb at_sign) l) = 1.
Proof.
  intros (local & domain & top & -> & _ & _ & _ & F)%matches_emailRegex.
  rewrite !Forall_app in F. destruct F as (F1 & F2 & F3).
  destruct (address_units _ F1) as [W1 C1], (address_units _ F2) as [W2 C2],
    (address_units _ F3) as [W3 C3].
  split.
  - rewrite !Forall_app. repeat split; try done; by repeat constructor.
  - rewrite !List.filter_app, C1, C2, C3. reflexivity.
Qed.

(** X1.  [isValidEmail] accepts exactly the texts made of a local part, an
    at sign, a first domain part, a full stop and a last domain part, where
    the three parts are not empty and hold neither white space nor an at
    sign (a full stop may occur in any of them). *)
Theorem isValidEmail_shape (email : string) :
  isValidEmail email = true <->
  exists local domain top,
    utf16 email = local ++ [at_sign] ++ domain ++ [full_stop] ++ top /\
    local <> [] /\ domain <> [] /\ top <> [] /\
    Forall (fun c => address_unit c = true) (local ++ domain ++ top).
Proof.
  unfold isValidEmail. rewrite regex_test_matches.
  apply matches_emailRegex.
Qed.

(** X2.  A text [isValidEmail] accepts holds no white space at all, not
    even at its ends, and exactly one at sign: an address is checked as it
    is given, not after trimming. *)
Theorem isValidEmail_no_space_one_at (email : string) :
  isValidEmail email = true ->
  Forall (fun c => white_space c = false) (utf16 email) /\
  length (List.filter (N.eqb at_sign) (utf16 email)) = 1.
Proof.
  unfold isValidEmail. rewrite regex_test_matches.
  apply matches_emailRegex_units.
Qed.

Lemma isValidEmail_no_space_one_at_witness :
  Forall (fun c => white_space c = false) (utf16 "ann@example.com") /\
  length (List.filter (N.eqb at_sign) (utf16 "ann@example.com")) = 1.
Proof. apply (isValidEmail_no_space_one_at "ann@example.com"). reflexivity. Defined.

Example isValidEmail_examples :
  map isValidEmail
    ["ann@example.com"; "ann@example"; " ann@example.com"; "ann@example.com ";
     "a b@example.com"; "a@@example.com"; "ann@.example.com"; ""]
  = [true; false; false; false; false; false; true; false].
Proof. reflexivity. Qed.

(** ** The origin answered to the browser *)

Lemma prefix_split (p s : string) :
  String.prefix p s = true -> exists b, s = p +:+ b.
Proof.
  revert s. induction p as [|c p IH]; intros s H.
  - by exists s.
  - destruct s as [|d s]; [done|]. cbn [String.prefix] in H.
    destruct (Ascii.ascii_dec c d) as [->|]; [|done].
    destruct (IH s H) as [b ->]. by exists b.
Qed.

Lemma includes_split (s sub : string) :
  includes s sub = true -> exists a b, s = a +:+ sub +:+ b.
Proof.
  induction s as [|c s IH]; intros H; cbn [includes] in H.
  - rewrite orb_false_r in H. apply prefix_split in H as [b H].
    by exists "", b.
  - apply orb_true_iff in H as [H|H].
    + apply prefix_split in H as [b H]. by exists "", b.
    + destruct (IH H) as (a & b & ->). by exists (String c a), b.
Qed.

(** X3.  The origin of a request is echoed in
    [Access-Control-Allow-Origin] as soon as it contains one of the listed
    origins anywhere in its text, so "https://dailyhug.com.evil.example" is
    echoed too; every other request gets the wildcard.  The answer is never
    anything but the wildcard or such an origin. *)
Theorem corsOrigin_echoes_containing_origin :
  (forall a allowed b,
      In allowed allowedOrigins ->
      corsOrigin (Some (a +:+ allowed +:+ b)) = a +:+ allowed +:+ b) /\
  (forall origin,
      corsOrigin origin = "*" \/
      exists a allowed b,
        In allowed allowedOrigins /\
        origin = Some (a +:+ allowed +:+ b) /\
        corsOrigin origin = a +:+ allowed +:+ b).
Proof.
  split.
  - intros a allowed b I. unfold corsOrigin.
    assert (String.eqb (a +:+ allowed +:+ b) "" = false) as ->.
    { destruct a; [|reflexivity]. simpl in *.
      destruct I as [<-|[<-|[<-|[<-|[]]]]]; reflexivity. }
    assert (existsb (fun x => includes (a +:+ allowed +:+ b) x) allowedOrigins
            = true) as ->; [|done].
    apply existsb_exists. exists allowed. split; [done|].
    apply includes_middle.
  - intros [o|]; [|by left]. unfold corsOrigin.
    destruct (negb (String.eqb o "") &&
              existsb (fun x => includes o x) allowedOrigins) eqn:E;
      [|by left].
    apply andb_true_iff in E as [_ E].
    apply existsb_exists in E as (allowed & I & H).
    apply includes_split in H as (a & b & ->).
    right. by exists a, allowed, b.
Qed.

Lemma corsOrigin_echoes_containing_origin_witness :
  corsOrigin (Some "https://dailyhug.com.evil.example")
  = "https://dailyhug.com.evil.example".
Proof.
  apply (proj1 corsOrigin_echoes_containing_origin
           "" "https://dailyhug.com" ".evil.example").
  left. reflexivity.
Defined.

(** ** Failed responses *)

Section Failures.

Context (rt : runtime) (env : environment).





End Failures.


(** A 401 whose body is the JSON text [null]: the error has no code. *)
Example ghlRequest_null_error_body :
  fst (ghlRequest (scripted [("null", VNull)]) with_key "/contacts/7" no_options
         (start [Responded (mkResponse 401 "Unauthorized"
                              (Some "application/json") "null")]))
  = Throw (mkError "TypeError" "illegal operation: errorData.msg" None None).
Proof. reflexivity. Qed.

(** A services call answered with JSON. *)
Lemma ghlServicesRequest_content_negotiation_witness :
  ghlServicesRequest (scripted [("{m}", VObj [("messageId", VStr "m1")])])
    with_key "/conversations/messages" (mkOptions (Some "POST") [] (Some "{}"))
    (start [json_ok "{m}"])
  = (Ok (VObj [("messageId", VStr "m1")]),
     script []
       [request_of with_key GHL_SERVICES_BASE "/conversations/messages"
          (mkOptions (Some "POST") [] (Some "{}"))]).
Proof.
  apply (ghlServicesRequest_content_negotiation
           (scripted [("{m}", VObj [("messageId", VStr "m1")])]) with_key
           "/conversations/messages" (mkOptions (Some "POST") [] (Some "{}"))
           (start [json_ok "{m}"])
           (mkResponse 200 "OK" (Some "application/json; charset=utf-8") "{m}")
           []);
    reflexivity.
Defined.

(** ** Which answers send the loop on *)

Section Retried.

Context (rt : runtime) (env : environment).




End Retried.


(** ** The definition map *)

Section Definitions.

Context (rt : runtime) (env : environment).

Lemma substring_all (s : string) : String.substring 0 (String.length s) s = s.
Proof. induction s as [|c s IH]; simpl; [done|]. by rewrite IH. Qed.

(** The prefix [contact.] is taken off a key, once. *)
Lemma normalized_key_strips (k : string) :
  normalized_key ("contact." +:+ k) = k.
Proof.
  unfold normalized_key, startsWith. rewrite prefix_app.
  unfold substring_from. simpl. rewrite Nat.sub_0_r. apply substring_all.
Qed.

Lemma add_field_lookup (m m' : field_map) (fld : value)
    (k : string) (id : value) :
  add_field rt m fld = Ok m' ->
  own m' !! k = Some id ->
  own m !! k = Some id \/
  (get_prop rt "field.id" fld "id" = Ok id /\
   exists fieldKey,
     get_prop rt "field.fieldKey" fld "fieldKey" = Ok (VStr fieldKey) /\
     normalized_key fieldKey = k).
Proof.
  unfold add_field, rbind.
  destruct (get_prop rt "field.id" fld "id") as [i|]; [|done].
  destruct (truthy i); [|intros; simplify_eq; auto].
  destruct (get_prop rt "field.fieldKey" fld "fieldKey") as [fk|]; [|done].
  destruct (truthy fk); [|intros; simplify_eq; auto].
  destruct fk as [| | | |fk| |]; try done. intros H L. simplify_eq.
  fold (normalized_key fk) in L.
  destruct (assign_own m (normalized_key fk) i k) as [E|[-> E]];
    rewrite E in L; [by left|].
  simplify_eq. right. split; [done|]. by eexists.
Qed.

Lemma add_fields_lookup (l : list value) (m m' : field_map)
    (k : string) (id : value) :
  add_fields rt m l = Ok m' ->
  own m' !! k = Some id ->
  own m !! k = Some id \/
  exists fld fieldKey,
    In fld l /\
    get_prop rt "field.id" fld "id" = Ok id /\
    get_prop rt "field.fieldKey" fld "fieldKey" = Ok (VStr fieldKey) /\
    normalized_key fieldKey = k.
Proof.
  revert m. induction l as [|fld l IH]; simpl; intros m H L.
  - simplify_eq. by left.
  - unfold rbind in H. destruct (add_field rt m fld) as [m1|] eqn:A; [|done].
    destruct (IH _ H L) as [L1|(f & fk & I & H1 & H2 & H3)].
    + destruct (add_field_lookup _ _ _ _ _ A L1) as [?|(H1 & fk & H2 & H3)];
        [by left|].
      right. exists fld, fk. auto.
    + right. exists f, fk. auto.
Qed.




Lemma getCustomFieldDefinitions_run (s : state rt) :
  getCustomFieldDefinitions rt env s =
  match ghlRequest rt env (definitions_endpoint env) no_options s with
  | (Ok data, s') =>
      match get_prop rt "data.customFields" data "customFields" with
      | Ok cfs =>
          if truthy cfs && isArray cfs
          then (add_fields rt empty_object (elements cfs), s')
          else (Ok empty_object, s')
      | Throw e => (Throw e, s')
      end
  | (Throw e, s') => (Throw e, s')
  end.
Proof.
  unfold getCustomFieldDefinitions, definitions_endpoint, bind, lift, ret.
  destruct (ghlRequest _ _ _ _ s) as [[data|e] s']; [|done].
  destruct (get_prop _ _ data _) as [cfs|]; [|done].
  by destruct (truthy cfs && isArray cfs).
Qed.

(** X7.  Every entry of the map [getCustomFieldDefinitions] returns comes
    from an element of [customFields] in the response: the id is the
    truthy [id] of that element, and the key is its [fieldKey] with a
    leading [contact.] taken off. *)
Theorem getCustomFieldDefinitions_entries
    (s s' : state rt) (defs : field_map) (k : string) (id : value) :
  getCustomFieldDefinitions rt env s = (Ok defs, s') ->
  own defs !! k = Some id ->
  truthy id = true /\
  exists data customFields fld fieldKey,
    ghlRequest rt env (definitions_endpoint env) no_options s = (Ok data, s') /\
    get_prop rt "data.customFields" data "customFields"
    = Ok (VArr customFields) /\
    In fld customFields /\
    get_prop rt "field.id" fld "id" = Ok id /\
    get_prop rt "field.fieldKey" fld "fieldKey" = Ok (VStr fieldKey) /\
    normalized_key fieldKey = k.
Proof.
  intros H L. split; [by eapply getCustomFieldDefinitions_truthy|].
  rewrite getCustomFieldDefinitions_run in H.
  destruct (ghlRequest _ _ _ _ s) as [[data|e] s1]; [|done].
  destruct (get_prop _ _ data _) as [cfs|] eqn:G; [|done].
  destruct (truthy cfs && isArray cfs) eqn:T.
  - destruct cfs as [| | | | |customFields|]; try (by rewrite andb_false_r in T).
    simpl in H. injection H as H <-.
    destruct (add_fields_lookup _ _ _ _ _ H L)
      as [E|(fld & fk & I & H1 & H2 & H3)];
      [simpl in E; by rewrite lookup_empty in E|].
    by exists data, customFields, fld, fk.
  - injection H as <- <-. simpl in L. by rewrite lookup_empty in L.
Qed.


(** X9.  When at least one key of the updates reads as a truthy property
    of the definition map, [updateContactCustomFields] sends, after the
    request for the definitions, one [PUT] whose [customField] lists, in
    the order of the updates, exactly the updates whose key reads so, each
    with the id read and its value turned into a string, provided these
    conversions do not raise; the other updates are left out.  Its result
    is the contact read from the answer to that [PUT].  On a map whose
    prototype the response has not replaced, a key reads as a truthy
    property exactly when a definition stored it or it is one of the names
    inherited from [Object.prototype]. *)
Theorem updateContactCustomFields_writes_resolved
    (contactId : value) (id : string) (fieldUpdates : list (string * value))
    (s s1 : state rt) (defs : field_map) :
  ToString contactId = Some id ->
  getCustomFieldDefinitions rt env s = (Ok defs, s1) ->
  Forall (convertible_update rt defs) fieldUpdates ->
  resolved_fields rt defs fieldUpdates <> [] ->
  sent_by (updateContactCustomFields rt env contactId fieldUpdates) s
  = [definitions_request env;
     fields_request rt env contactId (resolved_fields rt defs fieldUpdates)] /\
  updateContactCustomFields rt env contactId fieldUpdates s
  = bind (ghlRequest rt env ("/contacts/" +:+ js_String contactId)
            (mkOptions (Some "PUT") []
               (Some (JSON_stringify rt
                        (VObj [("customField",
                                VArr (resolved_fields rt defs fieldUpdates))])))))
      (fun data => lift (unwrap_contact rt data)) s1 /\
  (proto defs = PlainObject ->
   forall k,
     slot_truthy (read (Array_prototype rt) defs k) = true <->
     is_Some (own defs !! k) \/ k ∈ inherited_names).
Proof.
  intros C G U N.
  destruct (updateContactCustomFields_resolved rt env contactId id
              fieldUpdates s s1 defs C G U N) as [R S].
  split; [exact S|]. split; [exact R|].
  intros P k. apply read_plain; [done|].
  by eapply getCustomFieldDefinitions_truthy.
Qed.


End Definitions.

Lemma getCustomFieldDefinitions_entries_witness :
  let bodies :=
    [("{defs}",
      VObj [("customFields",
             VArr [VObj [("id", VStr "f1");
                         ("fieldKey", VStr "contact.tyg_message")]])])] in
  truthy (VStr "f1") = true /\
  exists data customFields fld fieldKey,
    ghlRequest (scripted bodies) with_key (definitions_endpoint with_key)
      no_options (start [json_ok "{defs}"])
    = (Ok data, script [] [definitions_request with_key]) /\
    get_prop (scripted bodies) "data.customFields" data "customFields"
    = Ok (VArr customFields) /\
    In fld customFields /\
    get_prop (scripted bodies) "field.id" fld "id" = Ok (VStr "f1") /\
    get_prop (scripted bodies) "field.fieldKey" fld "fieldKey"
    = Ok (VStr fieldKey) /\
    normalized_key fieldKey = "tyg_message".
Proof.
  intros bodies.
  apply (getCustomFieldDefinitions_entries (scripted bodies) with_key
           (start [json_ok "{defs}"]) (script [] [definitions_request with_key])
           (mkFieldMap {["tyg_message" := VStr "f1"]} PlainObject)
           "tyg_message" (VStr "f1"));
    reflexivity.
Defined.


(** An assignment to [__proto__] stores no property: the key then reads as
    [Object.prototype]. *)
Example getCustomFieldDefinitions_proto_key :
  let bodies :=
    [("{defs}",
      VObj [("customFields",
             VArr [VObj [("id", VStr "f1"); ("fieldKey", VStr "__proto__")]])])] in
  fst (getCustomFieldDefinitions (scripted bodies) with_key
         (start [json_ok "{defs}"]))
  = Ok empty_object /\
  read (Array_prototype (scripted bodies)) empty_object "__proto__"
  = ObjectPrototype.
Proof. split; reflexivity. Qed.

Lemma updateContactCustomFields_writes_resolved_witness :
  let bodies :=
    [("{defs}",
      VObj [("customFields",
             VArr [VObj [("id", VStr "f1");
                         ("fieldKey", VStr "contact.tyg_message")]])])] in
  let rt := scripted bodies in
  let fieldUpdates :=
    [("other", VStr "x"); ("tyg_message", VNum 7); ("toString", VBool true)] in
  let defs := mkFieldMap {["tyg_message" := VStr "f1"]} PlainObject in
  let written :=
    [VObj [("id", VStr "f1"); ("value", VStr "7")];
     VObj [("value", VStr "true")]] in
  resolved_fields rt defs fieldUpdates = written /\
  sent_by (updateContactCustomFields rt with_key (VStr "c1") fieldUpdates)
    (start [json_ok "{defs}"; json_ok ""])
  = [definitions_request with_key;
     fields_request rt with_key (VStr "c1") written] /\
  updateContactCustomFields rt with_key (VStr "c1") fieldUpdates
    (start [json_ok "{defs}"; json_ok ""])
  = bind (ghlRequest rt with_key ("/contacts/" +:+ js_String (VStr "c1"))
            (mkOptions (Some "PUT") []
               (Some (JSON_stringify rt
                        (VObj [("customField", VArr written)])))))
      (fun data => lift (unwrap_contact rt data))
      (script [json_ok ""] [definitions_request with_key]).
Proof.
  intros bodies rt fieldUpdates defs written.
  split; [reflexivity|].
  pose proof (updateContactCustomFields_writes_resolved rt with_key
                (VStr "c1") "c1" fieldUpdates
                (start [json_ok "{defs}"; json_ok ""])
                (script [json_ok ""] [definitions_request with_key]) defs)
    as H.
  destruct H as (S & R & _).
  - reflexivity.
  - reflexivity.
  - constructor; [|constructor; [|constructor; [|constructor]]];
      intros _; (split; [by eexists|]); vm_compute; try done; by eexists.
  - discriminate.
  - split; [exact S|exact R].
Defined.


(** ** Sending a template to an address *)

Section SendByEmail.

Context (rt : runtime) (env : environment).

(** X10.  [sendEmailTemplateByEmail] resolves the address first.  When the
    search returns [null] it throws the error "Contact not found with
    email: ..." from the state the search left, the search being the only
    request sent; when the search returns a contact it goes on as
    [sendEmailTemplate] does for the id of that contact; when the search
    throws, so does it. *)
Theorem sendEmailTemplateByEmail_resolves_first
    (email : string) (templateId : value) (s : state rt) :
  (forall s',
      searchContactByEmail rt env email s = (Ok VNull, s') ->
      sendEmailTemplateByEmail rt env email templateId s
      = (Throw (Error ("Contact not found with email: " +:+ email)), s') /\
      sent_by (sendEmailTemplateByEmail rt env email templateId) s
      = [search_request rt env email]) /\
  (forall ps s',
      searchContactByEmail rt env email s = (Ok (VObj ps), s') ->
      sendEmailTemplateByEmail rt env email templateId s
      = sendEmailTemplate rt env (field "id" ps) templateId s') /\
  (forall e s',
      searchContactByEmail rt env email s = (Throw e, s') ->
      sendEmailTemplateByEmail rt env email templateId s = (Throw e, s')).
Proof.
  repeat split.
  - unfold sendEmailTemplateByEmail, bind. by rewrite H.
  - apply sent_by_log. unfold sendEmailTemplateByEmail, bind. rewrite H.
    simpl. by apply searchContactByEmail_Ok in H as [_ ->].
  - intros ps s' H. unfold sendEmailTemplateByEmail, bind. by rewrite H.
  - intros e s' H. unfold sendEmailTemplateByEmail, bind. by rewrite H.
Qed.

(** X11.  Without a location id [sendEmailTemplate] has one candidate, the
    services base without location header: it returns what that call
    returns, rethrows its error, or wraps it in the final error when the
    error passes the test [try_next]; it sends that one request when the
    credential is set and none otherwise, and never a [locationId]
    header. *)
Theorem sendEmailTemplate_single_candidate
    (contactId templateId : value) (s0 : state rt) :
  is_set (GHL_LOCATION_ID env) = false ->
  let payload := emailPayload contactId templateId in
  sendEmailTemplate rt env contactId templateId s0 =
  match ghlServicesRequest rt env "/conversations/messages"
          (mkOptions (Some "POST") [] (Some (JSON_stringify rt payload))) s0 with
  | (Ok data, s1) => (Ok data, s1)
  | (Throw e1, s1) =>
      if try_next e1 then
        (Throw (Error (all_failed_message (Some e1) templateId)), s1)
      else (Throw e1, s1)
  end /\
  sent_by (sendEmailTemplate rt env contactId templateId) s0
  = (if is_set (GHL_API_KEY env) then [services_request rt env payload] else []) /\
  assoc "locationId" (req_headers (services_request rt env payload)) = None.
Proof.
  intros Hloc payload.
  pose proof (sendEmailTemplate_without_location rt env contactId templateId
                s0 Hloc) as R.
  split; [exact R|]. split; [|done].
  apply sent_by_log. rewrite R. fold payload.
  pose proof (services_plain_log rt env payload s0) as L.
  destruct (services_plain rt env payload s0) as [[d|e] s1]; simpl in *;
    [done|]. by destruct (try_next e).
Qed.

(** X12.  With a location id and no credential [sendEmailTemplate] still
    calls the CRM: the first candidate is sent, and it is the only request.
    If that call fails with an error that passes [try_next], the second
    candidate stops the loop with the error of the missing key, which
    carries no code. *)
Theorem sendEmailTemplate_without_credential
    (contactId templateId : value) (s0 : state rt) :
  is_set (GHL_LOCATION_ID env) = true ->
  is_set (GHL_API_KEY env) = false ->
  let payload := emailPayload contactId templateId in
  sent_by (sendEmailTemplate rt env contactId templateId) s0
  = [location_header_request rt env payload] /\
  assoc "Authorization" (req_headers (location_header_request rt env payload))
  = Some ("Bearer " +:+ env_String (GHL_API_KEY env)) /\
  sendEmailTemplate rt env contactId templateId s0 =
  match services_with_location_header rt env payload s0 with
  | (Ok data, s1) => (Ok data, s1)
  | (Throw e1, s1) =>
      if try_next e1 then (Throw (Error missing_key_message), s1)
      else (Throw e1, s1)
  end.
Proof.
  intros Hloc K payload.
  assert (sendEmailTemplate rt env contactId templateId s0 =
    match services_with_location_header rt env payload s0 with
    | (Ok data, s1) => (Ok data, s1)
    | (Throw e1, s1) =>
        if try_next e1 then (Throw (Error missing_key_message), s1)
        else (Throw e1, s1)
    end) as R.
  { unfold sendEmailTemplate, bind. fold payload.
    rewrite endpoints_with_location by done. cbn [try_endpoints].
    destruct (services_with_location_header rt env payload s0)
      as [[d1|e1] s1]; [done|].
    destruct (try_next e1); [|done].
    unfold services_plain. rewrite ghlServicesRequest_unset by done.
    by rewrite missing_key_not_retried. }
  split; [|split; [done|exact R]].
  apply sent_by_log. rewrite R.
  pose proof (services_with_location_header_log rt env payload s0) as L.
  destruct (services_with_location_header rt env payload s0) as [[d|e] s1];
    simpl in *; [done|]. by destruct (try_next e).
Qed.

(** The first candidate negotiates a successful response almost as the
    request helpers do. *)
Lemma services_with_location_header_ok
    (payload : value) (s : state rt) (resp : response) (w' : World rt) :
  upstream rt (location_header_request rt env payload) (world s)
  = (Responded resp, w') ->
  resp_ok resp = true ->
  services_with_location_header rt env payload s =
  (if blank rt (resp_text resp) then Ok (VObj [("success", VBool true)])
   else if includes (default "" (resp_content_type resp)) "application/json"
   then match JSON_parse rt (resp_text resp) with
        | inl v => Ok v
        | inr m => Throw (mkError "SyntaxError" m None None)
        end
   else Ok (VObj [("success", VBool true);
                  ("message", VStr (resp_text resp))]),
   mkState w' (log s ++ [location_header_request rt env payload])).
Proof.
  intros U O. unfold services_with_location_header, bind, fetch. rewrite U, O.
  simpl. repeat case_match; done.
Qed.

(** X15.  The first candidate of [sendEmailTemplate] is sent whether or not
    the credential is set, and reads a successful response on its own
    terms: a blank body gives [{success: true}]; a body announced as JSON
    gives the parsed value, and the error of [JSON.parse] itself when it
    does not parse; any other body gives [{success: true, message: text}],
    without the [raw] property of the request helpers. *)
Theorem first_candidate_negotiation
    (payload : value) (s : state rt) (resp : response) (w' : World rt) :
  upstream rt (location_header_request rt env payload) (world s)
  = (Responded resp, w') ->
  resp_ok resp = true ->
  let text := resp_text resp in
  let contentType := default "" (resp_content_type resp) in
  let r := services_with_location_header rt env payload s in
  snd r = mkState w' (log s ++ [location_header_request rt env payload]) /\
  (blank rt text = true -> fst r = Ok (VObj [("success", VBool true)])) /\
  (blank rt text = false -> includes contentType "application/json" = true ->
   forall v, JSON_parse rt text = inl v -> fst r = Ok v) /\
  (blank rt text = false -> includes contentType "application/json" = true ->
   forall m, JSON_parse rt text = inr m ->
   fst r = Throw (mkError "SyntaxError" m None None)) /\
  (blank rt text = false -> includes contentType "application/json" = false ->
   fst r = Ok (VObj [("success", VBool true); ("message", VStr text)])).
Proof.
  intros U O text contentType r. subst r.
  rewrite (services_with_location_header_ok _ _ _ _ U O). simpl.
  fold text contentType. split; [done|]. repeat split.
  - by intros ->.
  - intros -> -> v ->. done.
  - intros -> -> m ->. done.
  - by intros -> ->.
Qed.

End SendByEmail.

Lemma sendEmailTemplateByEmail_resolves_first_witness :
  let bodies := [("{}", VObj [("contacts", VArr [])])] in
  sendEmailTemplateByEmail (scripted bodies) with_key "a@x.com" (VStr "t1")
    (start [json_ok "{}"])
  = (Throw (Error "Contact not found with email: a@x.com"),
     script [] [search_request (scripted bodies) with_key "a@x.com"]) /\
  sent_by (sendEmailTemplateByEmail (scripted bodies) with_key "a@x.com"
             (VStr "t1")) (start [json_ok "{}"])
  = [search_request (scripted bodies) with_key "a@x.com"].
Proof.
  intros bodies.
  apply (proj1 (sendEmailTemplateByEmail_resolves_first (scripted bodies)
                  with_key "a@x.com" (VStr "t1") (start [json_ok "{}"]))).
  reflexivity.
Defined.

Lemma sendEmailTemplate_single_candidate_witness :
  sent_by (sendEmailTemplate (scripted []) with_key (VStr "c1") (VStr "t1"))
    (start [json_ok ""])
  = [services_request (scripted []) with_key
       (emailPayload (VStr "c1") (VStr "t1"))].
Proof.
  apply (proj1 (proj2 (sendEmailTemplate_single_candidate (scripted [])
                         with_key (VStr "c1") (VStr "t1") (start [json_ok ""])
                         eq_refl))).
Defined.

(** No key, a location id, and a CRM that answers 401 to the call made with
    [Bearer undefined]. *)
Lemma sendEmailTemplate_without_credential_witness :
  let payload := emailPayload (VStr "c1") (VStr "t1") in
  sent_by (sendEmailTemplate (scripted []) without_key (VStr "c1") (VStr "t1"))
    (start [failed 401 "Invalid JWT"])
  = [location_header_request (scripted []) without_key payload] /\
  assoc "Authorization"
    (req_headers (location_header_request (scripted []) without_key payload))
  = Some "Bearer undefined" /\
  sendEmailTemplate (scripted []) without_key (VStr "c1") (VStr "t1")
    (start [failed 401 "Invalid JWT"])
  = (Throw (Error missing_key_message),
     script [] [location_header_request (scripted []) without_key payload]).
Proof.
  intros payload.
  apply (sendEmailTemplate_without_credential (scripted []) without_key
           (VStr "c1") (VStr "t1") (start [failed 401 "Invalid JWT"]));
    reflexivity.
Defined.

Lemma first_candidate_negotiation_witness :
  fst (services_with_location_header (scripted []) with_key_and_location
         (emailPayload (VStr "c1") (VStr "t1"))
         (start [Responded (mkResponse 200 "OK" (Some "text/plain") "queued")]))
  = Ok (VObj [("success", VBool true); ("message", VStr "queued")]).
Proof.
  apply (first_candidate_negotiation (scripted []) with_key_and_location
           (emailPayload (VStr "c1") (VStr "t1"))
           (start [Responded (mkResponse 200 "OK" (Some "text/plain") "queued")])
           (mkResponse 200 "OK" (Some "text/plain") "queued") []);
    reflexivity.
Defined.

(** ** The contact handed back to the caller *)

Section Handed.

Context (rt : runtime) (env : environment).

Lemma unwrap_contact_not_nullish (data c : value) :
  unwrap_contact rt data = Ok c -> nullish c = false.
Proof.
  unfold unwrap_contact, rbind, js_or.
  destruct data; simpl; try done; intros H; simplify_eq; try done.
  destruct (truthy (field "contact" props)) eqn:T; [|done].
  by destruct (field "contact" props).
Qed.

Lemma get_prop_not_nullish (what : string) (v : value) (k : string) :
  nullish v = false -> exists x, get_prop rt what v k = Ok x.
Proof. destruct v; simpl; try done; eauto. Qed.

(** X13.  A contact returned by [findOrCreateContact] is never [null] or
    [undefined], whether it was found or created, so that reading its [id]
    cannot throw. *)
Theorem findOrCreateContact_not_nullish
    (email : string) (contactData : list (string * value))
    (s s' : state rt) (c : value) :
  findOrCreateContact rt env email contactData s = (Ok c, s') ->
  nullish c = false /\
  exists id, get_prop rt "senderContact" c "id" = Ok id.
Proof.
  intros H.
  assert (nullish c = false) as N; [|split; [done|by apply get_prop_not_nullish]].
  destruct (searchContactByEmail rt env email s) as [[f|e] s1] eqn:S.
  - destruct (searchContactByEmail_result rt env _ _ _ _ S) as [->|[ps ->]].
    + rewrite (findOrCreateContact_absent rt env _ contactData _ _ S) in H.
      unfold createContact, bind, lift in H.
      destruct (ghlRequest _ _ _ _ s1) as [[data|e] s2]; [|done].
      destruct (unwrap_contact rt data) as [c'|] eqn:U; [|done].
      simplify_eq. by eapply unwrap_contact_not_nullish.
    + rewrite (findOrCreateContact_found rt env _ contactData _ _ _ S) in H.
      by simplify_eq.
  - by rewrite (findOrCreateContact_failed rt env _ contactData _ _ _ S) in H.
Qed.

Lemma assoc_set_prop {A} (k k' : string) (v : A) (ps : list (string * A)) :
  assoc k (set_prop k' v ps) = if String.eqb k k' then Some v else assoc k ps.
Proof.
  induction ps as [|[k0 v0] ps IH]; simpl.
  - done.
  - destruct (String.eqb_spec k' k0) as [->|N]; simpl.
    + by destruct (String.eqb k k0).
    + destruct (String.eqb_spec k k0) as [->|N'].
      * destruct (String.eqb_spec k0 k'); [congruence|done].
      * apply IH.
Qed.

(** After [{...base, ...extra}] a key has the value [extra] gives it, and
    the value [base] gives it when [extra] has none. *)
Lemma assoc_spread_into {A} (k : string) (extra base : list (string * A)) :
  NoDup (map fst extra) ->
  assoc k (spread_into base extra) =
  match assoc k extra with
  | Some v => Some v
  | None => assoc k base
  end.
Proof.
  unfold spread_into. revert base.
  induction extra as [|[k0 v0] extra IH]; intros base D; simpl; [done|].
  inversion D as [|? ? Hk D']; subst.
  rewrite IH by done. rewrite assoc_set_prop.
  destruct (String.eqb_spec k k0) as [->|N]; [|done].
  destruct (assoc k0 extra) as [v|] eqn:E; [|done].
  exfalso. apply Hk. clear -E.
  induction extra as [|[k1 v1] extra IH]; simpl in *; [done|].
  destruct (String.eqb_spec k0 k1) as [->|N]; [by left|].
  right. by apply IH.
Qed.

(** X14.  When the search returns [null], [findOrCreateContact] posts a
    contact built from [{email, ...contactData}]: the payload carries the
    address that was searched for, unless [contactData] has an [email] of
    its own, which then replaces it, and it carries the optional fields of
    [contactData] that are truthy. *)
Theorem findOrCreateContact_created_payload
    (email : string) (contactData : list (string * value)) (s s' : state rt) :
  searchContactByEmail rt env email s = (Ok VNull, s') ->
  NoDup (map fst contactData) ->
  let created := spread_into [("email", VStr email)] contactData in
  sent_by (findOrCreateContact rt env email contactData) s
  = [search_request rt env email; create_request rt env created] /\
  assoc "email" (contact_payload created)
  = Some (default (VStr email) (assoc "email" contactData)) /\
  (forall k, In k optional_fields ->
     assoc k (contact_payload created) =
     if truthy (field k contactData) then Some (field k contactData)
     else None).
Proof.
  intros S D created.
  assert (forall k, field k created =
            match assoc k contactData with
            | Some v => v
            | None => field k [("email", VStr email)]
            end) as F.
  { intros k. unfold field, created. rewrite assoc_spread_into by done.
    by destruct (assoc k contactData). }
  split; [|split].
  - apply sent_by_log.
    rewrite (findOrCreateContact_absent rt env _ contactData _ _ S).
    pose proof (searchContactByEmail_Ok rt env _ _ _ _ S) as [K L].
    rewrite createContact_log, K, L, <- app_assoc. done.
  - rewrite contact_payload_eq. simpl. rewrite F.
    by destruct (assoc "email" contactData).
  - intros k I. rewrite contact_payload_eq.
    assert (field k created = field k contactData) as E.
    { rewrite F. unfold field at 2. destruct (assoc k contactData); [done|].
      simpl in I. destruct I as [<-|[<-|[<-|[<-|[]]]]]; reflexivity. }
    simpl in I. unfold optional.
    destruct I as [<-|[<-|[<-|[<-|[]]]]]; rewrite <- ?E;
      repeat case_match; done.
Qed.

End Handed.

Lemma findOrCreateContact_not_nullish_witness :
  let bodies := [("{}", VObj [("contacts", VArr [])])] in
  nullish (VObj [("success", VBool true)]) = false /\
  exists id,
    get_prop (scripted bodies) "senderContact" (VObj [("success", VBool true)])
      "id" = Ok id.
Proof.
  intros bodies.
  apply (findOrCreateContact_not_nullish (scripted bodies) with_key "a@x.com"
           [] (start [json_ok "{}"; json_ok ""])
           (script [] [search_request (scripted bodies) with_key "a@x.com";
                       create_request (scripted bodies) with_key
                         [("email", VStr "a@x.com")]])).
  reflexivity.
Defined.

Lemma findOrCreateContact_created_payload_witness :
  let bodies := [("{}", VObj [("contacts", VArr [])])] in
  let contactData := [("firstName", VStr "Ann"); ("name", VUndefined)] in
  let created := spread_into [("email", VStr "a@x.com")] contactData in
  sent_by (findOrCreateContact (scripted bodies) with_key "a@x.com" contactData)
    (start [json_ok "{}"; json_ok ""])
  = [search_request (scripted bodies) with_key "a@x.com";
     create_request (scripted bodies) with_key created] /\
  assoc "email" (contact_payload created)
  = Some (default (VStr "a@x.com") (assoc "email" contactData)) /\
  (forall k, In k optional_fields ->
     assoc k (contact_payload created) =
     if truthy (field k contactData) then Some (field k contactData)
     else None).
Proof.
  intros bodies contactData created.
  apply (findOrCreateContact_created_payload (scripted bodies) with_key
           "a@x.com" contactData (start [json_ok "{}"; json_ok ""])
           (script [json_ok ""]
              [search_request (scripted bodies) with_key "a@x.com"])).
  - reflexivity.
  - repeat constructor; simpl; intros H; inversion H as [|? ? ? H'];
      subst; try discriminate; inversion H'.
Defined.

(** ** The form handler *)

(** One step of a run that returned: the next call returned too. *)
Ltac run_step H :=
  match type of H with
  | context [match ?x with _ => _ end] =>
      lazymatch type of x with
      | (_ * _)%type => destruct x as [[?|?] ?]
      | result _ => destruct x as [?|?]
      | option _ => destruct x as [?|]
      | _ => destruct x
      end;
      try discriminate H
  end.

Section FormHandler.

Context (rt : runtime) (env : environment) (site : deployment).

(** The calls to the CRM end in the answer 200 or in an error. *)
Lemma synchronise_answer (headers : list (string * string))
    (d : SubmitTygForm.submission) (s s' : state rt) (res : outgoing) :
  SubmitTygForm.synchronise rt env headers d s = (Ok res, s') ->
  res_status res = 200%Z /\ res_headers res = headers /\
  field "success" (match res_json res with VObj ps => ps | _ => [] end)
  = VBool true.
Proof.
  unfold SubmitTygForm.synchronise, bind, lift, ret. intros H.
  repeat run_step H. by injection H as <- <-.
Qed.

(** What the handler does once the method is [POST]. *)
Lemma handler_post (req : incoming) (s : state rt) :
  http_method req = "POST" ->
  let headers := cors_headers "POST, OPTIONS, GET" (http_origin req) in
  let bodyData := SubmitTygForm.body_data site (http_body req) in
  SubmitTygForm.handler rt env site req s =
  match SubmitTygForm.validate rt bodyData with
  | Throw e =>
      (Ok (mkOutgoing 500 headers
             (VObj [("success", VBool false);
                    ("message", VStr "Internal server error");
                    ("error",
                     if development site then VStr (err_message e)
                     else VUndefined)])), s)
  | Ok ([], Some fields) =>
      match SubmitTygForm.prepare rt site bodyData fields with
      | Throw e =>
          (Ok (mkOutgoing 500 headers
                 (VObj [("success", VBool false);
                        ("message", VStr "Internal server error");
                        ("error",
                         if development site then VStr (err_message e)
                         else VUndefined)])), s)
      | Ok d =>
          match SubmitTygForm.synchronise rt env headers d s with
          | (Ok res, s') => (Ok res, s')
          | (Throw e, s') => (Ok (SubmitTygForm.sync_failed site headers d e), s')
          end
      end
  | Ok (errors, _) =>
      (Ok (mkOutgoing 400 headers
             (VObj [("success", VBool false);
                    ("errors", VArr (map VStr errors))])), s)
  end.
Proof.
  intros P headers bodyData. unfold SubmitTygForm.handler. rewrite P. simpl.
  fold headers bodyData. unfold catch, bind, lift, ret.
  destruct (SubmitTygForm.validate rt bodyData) as [[errors fields]|e];
    [|done].
  destruct errors as [|er errors]; [|done].
  destruct fields as [fields|]; [|done].
  destruct (SubmitTygForm.prepare rt site bodyData fields) as [d|e]; [|done].
  by destruct (SubmitTygForm.synchronise rt env headers d s) as [[res|e] s'].
Qed.

(** X16.  The form handler always answers: whatever the request and
    whatever the CRM does, it returns a response and throws nothing; the
    status is 200, 400, 405 or 500 and the response carries the four CORS
    headers. *)
Theorem submit_handler_always_answers (req : incoming) (s : state rt) :
  exists res s',
    SubmitTygForm.handler rt env site req s = (Ok res, s') /\
    In (res_status res) [200%Z; 400%Z; 405%Z; 500%Z] /\
    res_headers res = cors_headers "POST, OPTIONS, GET" (http_origin req).
Proof.
  destruct (String.eqb_spec (http_method req) "POST") as [P|P].
  - rewrite (handler_post req s P).
    destruct (SubmitTygForm.validate rt _) as [[errors fields]|e].
    + destruct errors as [|er errors]; [destruct fields as [fields|]|].
      * destruct (SubmitTygForm.prepare rt site _ fields) as [d|e].
        -- destruct (SubmitTygForm.synchronise rt env _ d s) as [[res|e] s']
             eqn:Y.
           ++ apply synchronise_answer in Y as (Y1 & Y2 & _).
              do 2 eexists. split; [done|]. rewrite Y1, Y2. simpl. by auto.
           ++ do 2 eexists. split; [done|]. simpl. by auto.
        -- do 2 eexists. split; [done|]. simpl. by auto 10.
      * do 2 eexists. split; [done|]. simpl. by auto.
      * do 2 eexists. split; [done|]. simpl. by auto.
    + do 2 eexists. split; [done|]. simpl. by auto 10.
  - unfold SubmitTygForm.handler.
    destruct (String.eqb (http_method req) "OPTIONS").
    + do 2 eexists. split; [done|]. simpl. by auto.
    + apply String.eqb_neq in P. rewrite P. simpl.
      do 2 eexists. split; [done|]. simpl. by auto 10.
Qed.

(** X17.  The form handler touches the CRM only for a [POST] that it
    answers with 200: an answer with another status, or to another method,
    leaves the world and the request log as they were. *)
Theorem submit_handler_rejects_before_calling
    (req : incoming) (s s' : state rt) (res : outgoing) :
  SubmitTygForm.handler rt env site req s = (Ok res, s') ->
  res_status res <> 200%Z \/ http_method req <> "POST" ->
  s' = s.
Proof.
  intros H C.
  destruct (String.eqb_spec (http_method req) "POST") as [P|P].
  - destruct C as [C|C]; [|done].
    rewrite (handler_post req s P) in H.
    destruct (SubmitTygForm.validate rt _) as [[errors fields]|e];
      [|by simplify_eq].
    destruct errors as [|er errors]; [|by simplify_eq].
    destruct fields as [fields|]; [|by simplify_eq].
    destruct (SubmitTygForm.prepare rt site _ fields) as [d|e];
      [|by simplify_eq].
    destruct (SubmitTygForm.synchronise rt env _ d s) as [[r|e] s1] eqn:Y.
    + apply synchronise_answer in Y as (Y1 & _). by simplify_eq.
    + by simplify_eq.
  - unfold SubmitTygForm.handler, ret in H.
    destruct (String.eqb (http_method req) "OPTIONS");
      [simpl in H; by simplify_eq|].
    apply String.eqb_neq in P. rewrite P in H. simpl in H. by simplify_eq.
Qed.

(** X18.  Once the fields have passed validation, what the form handler
    answers depends on [senderName] alone.  If it is falsy or a string,
    the submission is prepared and the handler answers 200 with
    [success: true] whatever the CRM does: the answer of the four CRM calls
    when they all succeed, and otherwise the same success with a warning,
    the error being named only in development mode.  If it is any other
    value, trimming it raises outside the inner [try] and the handler
    answers 500 without calling the CRM. *)
Theorem submit_handler_succeeds_despite_crm
    (req : incoming) (s : state rt) (fields : string * string * string * string)
    (ps : list (string * value)) :
  http_method req = "POST" ->
  SubmitTygForm.body_data site (http_body req) = VObj ps ->
  SubmitTygForm.validate rt (VObj ps) = Ok ([], Some fields) ->
  let headers := cors_headers "POST, OPTIONS, GET" (http_origin req) in
  let plain :=
    match field "senderName" ps with
    | VStr _ => true
    | v => negb (truthy v)
    end in
  if plain then
    exists d res s',
      SubmitTygForm.prepare rt site (VObj ps) fields = Ok d /\
      SubmitTygForm.handler rt env site req s = (Ok res, s') /\
      res_status res = 200%Z /\
      field "success" (match res_json res with VObj ps => ps | _ => [] end)
      = VBool true /\
      forall e s1,
        SubmitTygForm.synchronise rt env headers d s = (Throw e, s1) ->
        s' = s1 /\
        res = SubmitTygForm.sync_failed site headers d e /\
        field "error" (match res_json res with VObj ps => ps | _ => [] end)
        = if development site then VStr (err_message e) else VUndefined
  else
    exists res,
      SubmitTygForm.handler rt env site req s = (Ok res, s) /\
      res_status res = 500%Z /\
      field "success" (match res_json res with VObj ps => ps | _ => [] end)
      = VBool false.
Proof.
  intros P B V headers plain. rewrite (handler_post req s P), B, V.
  fold headers.
  destruct plain eqn:Pl; subst plain.
  - assert (exists d, SubmitTygForm.prepare rt site (VObj ps) fields = Ok d)
      as [d R].
    { destruct fields as [[[name email] text] sender].
      unfold SubmitTygForm.prepare, rbind. simpl.
      destruct (field "senderName" ps) as [| |b|n|str|l|o];
        simpl in Pl |- *; try done; try (by eexists).
      - destruct b; [done|by eexists].
      - rewrite negb_involutive in Pl. rewrite Pl. by eexists.
      - destruct (negb (String.eqb str "")); by eexists. }
    rewrite R. exists d.
    destruct (SubmitTygForm.synchronise rt env headers d s)
      as [[res|e] s1] eqn:Y.
    + apply synchronise_answer in Y as (Y1 & _ & Y3).
      exists res, s1. by repeat split.
    + exists (SubmitTygForm.sync_failed site headers d e), s1.
      repeat split; try done; intros; by simplify_eq.
  - assert (exists e, SubmitTygForm.prepare rt site (VObj ps) fields = Throw e)
      as [e R].
    { destruct fields as [[[name email] text] sender].
      unfold SubmitTygForm.prepare, rbind. simpl.
      destruct (field "senderName" ps) as [| |b|n|str|l|o];
        simpl in Pl |- *; try done; try (by eexists).
      - destruct b; [by eexists|done].
      - rewrite negb_involutive in Pl. rewrite Pl. by eexists. }
    rewrite R. by eexists.
Qed.

(** X19.  With no credential configured a valid submission is still
    answered 200 with [success: true]: the first CRM call fails before any
    request is sent, and the handler turns that into a warning. *)
Theorem submit_handler_without_credential
    (req : incoming) (s : state rt) (fields : string * string * string * string)
    (d : SubmitTygForm.submission) :
  is_set (GHL_API_KEY env) = false ->
  http_method req = "POST" ->
  SubmitTygForm.validate rt (SubmitTygForm.body_data site (http_body req))
  = Ok ([], Some fields) ->
  SubmitTygForm.prepare rt site (SubmitTygForm.body_data site (http_body req))
    fields = Ok d ->
  SubmitTygForm.handler rt env site req s =
  (Ok (SubmitTygForm.sync_failed site
         (cors_headers "POST, OPTIONS, GET" (http_origin req)) d
         (mkError "Error" missing_key_message (Some "MISSING_API_KEY") None)),
   s).
Proof.
  intros K P V R. rewrite (handler_post req s P), V, R.
  unfold SubmitTygForm.synchronise, bind, findOrCreateContact,
    searchContactByEmail, bind.
  by rewrite ghlRequest_unset.
Qed.

End FormHandler.

Lemma submit_handler_rejects_before_calling_witness :
  let rt := scripted [] in
  let req := mkIncoming "POST" None VUndefined
               (VObj [("recipientName", VStr "Bob")]) in
  let run := SubmitTygForm.handler rt with_key (scripted_site None []) req
               (start [json_ok ""]) in
  option_map res_status (match fst run with Ok res => Some res | _ => None end)
  = Some 400%Z /\
  snd run = start [json_ok ""].
Proof.
  intros rt req run. split; [reflexivity|].
  apply (submit_handler_rejects_before_calling rt with_key
           (scripted_site None []) req (start [json_ok ""]) (snd run)
           (mkOutgoing 400 (cors_headers "POST, OPTIONS, GET" None)
              (VObj [("success", VBool false);
                     ("errors",
                      VArr [VStr "recipientEmail is required";
                            VStr "message is required";
                            VStr "senderEmail is required"])]))).
  - reflexivity.
  - left. discriminate.
Defined.

(** A valid submission while the CRM is down. *)
Lemma submit_handler_succeeds_despite_crm_witness :
  let rt := scripted [] in
  let site := scripted_site (Some "development") [] in
  let ps := [("recipientName", VStr "Bob");
             ("recipientEmail", VStr "Bob@x.com");
             ("message", VStr " hi ");
             ("senderEmail", VStr "ann@x.com");
             ("sendAnonymously", VStr "true")] in
  let req := mkIncoming "POST" (Some "https://dailyhug.com") VUndefined
               (VObj ps) in
  let headers := cors_headers "POST, OPTIONS, GET" (http_origin req) in
  exists d res s',
    SubmitTygForm.prepare rt site (VObj ps)
      ("Bob", "Bob@x.com", " hi ", "ann@x.com") = Ok d /\
    SubmitTygForm.handler rt with_key site req (start [failed 500 "down"])
    = (Ok res, s') /\
    res_status res = 200%Z /\
    field "success" (match res_json res with VObj ps => ps | _ => [] end)
    = VBool true /\
    forall e s1,
      SubmitTygForm.synchronise rt with_key headers d (start [failed 500 "down"])
      = (Throw e, s1) ->
      s' = s1 /\
      res = SubmitTygForm.sync_failed site headers d e /\
      field "error" (match res_json res with VObj ps => ps | _ => [] end)
      = if development site then VStr (err_message e) else VUndefined.
Proof.
  intros rt site ps req headers.
  exact (submit_handler_succeeds_despite_crm rt with_key site req
           (start [failed 500 "down"])
           ("Bob", "Bob@x.com", " hi ", "ann@x.com") ps
           eq_refl eq_refl eq_refl).
Defined.

(** A sender name that is a number passes validation and is answered
    500. *)
Example submit_handler_sender_name_number :
  let req := mkIncoming "POST" None VUndefined
               (VObj [("recipientName", VStr "Bob");
                      ("recipientEmail", VStr "bob@x.com");
                      ("message", VStr "hi");
                      ("senderEmail", VStr "ann@x.com");
                      ("senderName", VNum 5)]) in
  SubmitTygForm.handler (scripted []) with_key (scripted_site None []) req
    (start [json_ok ""])
  = (Ok (mkOutgoing 500 (cors_headers "POST, OPTIONS, GET" None)
           (VObj [("success", VBool false);
                  ("message", VStr "Internal server error");
                  ("error", VUndefined)])),
     start [json_ok ""]).
Proof. reflexivity. Qed.

Example submit_handler_crm_down :
  let req := mkIncoming "POST" (Some "https://dailyhug.com") VUndefined
               (VObj [("recipientName", VStr "Bob");
                      ("recipientEmail", VStr "Bob@x.com");
                      ("message", VStr " hi ");
                      ("senderEmail", VStr "ann@x.com")]) in
  fst (SubmitTygForm.handler (scripted []) with_key
         (scripted_site (Some "development") []) req (start [failed 500 "down"]))
  = Ok (mkOutgoing 200
          (cors_headers "POST, OPTIONS, GET" (Some "https://dailyhug.com"))
          (VObj [("success", VBool true);
                 ("message",
                  VStr "Form submitted successfully (GHL sync had issues)");
                 ("warning",
                  VStr "GoHighLevel integration encountered an error");
                 ("data",
                  VObj [("recipientEmail", VStr "bob@x.com");
                        ("timestamp", VStr "2026-01-01T00:00:00.000Z")]);
                 ("error", VStr "GHL API Error: 500 - down")])).
Proof. reflexivity. Qed.

Lemma submit_handler_without_credential_witness :
  let rt := scripted [] in
  let site := scripted_site None [] in
  let req := mkIncoming "POST" None VUndefined
               (VObj [("recipientName", VStr "Bob");
                      ("recipientEmail", VStr "bob@x.com");
                      ("message", VStr "hi");
                      ("senderEmail", VStr "ann@x.com")]) in
  let d := SubmitTygForm.mkSubmission "Bob" "bob@x.com" "hi" "ann@x.com" ""
             false false (VStr "2026-01-01T00:00:00.000Z") in
  SubmitTygForm.handler rt without_key site req (start [json_ok ""]) =
  (Ok (SubmitTygForm.sync_failed site
         (cors_headers "POST, OPTIONS, GET" None) d
         (mkError "Error" missing_key_message (Some "MISSING_API_KEY") None)),
   start [json_ok ""]).
Proof.
  intros rt site req d.
  apply (submit_handler_without_credential rt without_key site req
           (start [json_ok ""]) ("Bob", "bob@x.com", "hi", "ann@x.com") d);
    reflexivity.
Defined.

(** ** The webhook handlers *)

Section Webhooks.

Context (rt : runtime) (env : environment) (site : deployment).

(** What the send handler does once the method is accepted. *)
Lemma send_handler_accepted (req : incoming) (s : state rt) :
  http_method req = "POST" \/ http_method req = "GET" ->
  let headers := cors_headers "POST, GET, OPTIONS" (http_origin req) in
  SendAnonymousTyg.handler rt env site req s =
  catch
    (bind (lift (email_parameter rt site "target_email" req)) (fun targetEmail =>
     bind (lift (required rt "targetEmail" targetEmail)) (fun provided =>
     match provided with
     | None =>
         ret (mkOutgoing 400 headers
                (VObj [("success", VBool false);
                       ("message", VStr "target_email parameter is required");
                       ("error",
                        VStr "Please provide target_email in the query parameter (?target_email=...) or request body")]))
     | Some text =>
         let emailTrimmed := toLowerCase rt (trim rt text) in
         if negb (isValidEmail emailTrimmed) then
           ret (mkOutgoing 400 headers
                  (VObj [("success", VBool false);
                         ("message", VStr "Invalid email format");
                         ("error",
                          VStr (quotation_mark +:+ emailTrimmed +:+
                                quotation_mark +:+
                                " is not a valid email address"))]))
         else
           bind (sendEmailTemplateByEmail rt env emailTrimmed
                   (VStr SendAnonymousTyg.EMAIL_TEMPLATE_ID)) (fun _ =>
           ret (mkOutgoing 200 headers
                  (VObj [("success", VBool true);
                         ("message", VStr "Email sent successfully");
                         ("data",
                          VObj [("targetEmail", VStr emailTrimmed);
                                ("templateId",
                                 VStr SendAnonymousTyg.EMAIL_TEMPLATE_ID);
                                ("sent", VBool true)])])))
     end)))
    (SendAnonymousTyg.on_error rt site headers) s.
Proof.
  intros M headers. unfold SendAnonymousTyg.handler.
  destruct M as [M|M]; rewrite M; reflexivity.
Qed.

(** The answers of the [catch] block of the send handler have status
    500. *)
Lemma send_on_error_answer (headers : list (string * string))
    (e : error) (s s' : state rt) (res : outgoing) :
  SendAnonymousTyg.on_error rt site headers e s = (Ok res, s') ->
  res_status res = 500%Z /\ s' = s.
Proof.
  unfold SendAnonymousTyg.on_error, ret, throw. intros H.
  repeat case_match; by simplify_eq.
Qed.

(** X20.  When the address is well formed and the CRM knows no contact for
    it, the send handler does not answer at all.  The [catch] block means
    to answer 404, but it mentions [targetEmail], which is declared inside
    the [try] block and is out of scope there: the handler throws a
    [ReferenceError]. *)
Theorem send_handler_unknown_contact_throws
    (req : incoming) (s s' : state rt) (targetEmail : value) (text : string) :
  http_method req = "POST" \/ http_method req = "GET" ->
  email_parameter rt site "target_email" req = Ok targetEmail ->
  required rt "targetEmail" targetEmail = Ok (Some text) ->
  isValidEmail (toLowerCase rt (trim rt text)) = true ->
  searchContactByEmail rt env (toLowerCase rt (trim rt text)) s = (Ok VNull, s') ->
  SendAnonymousTyg.handler rt env site req s
  = (Throw (ReferenceError "targetEmail"), s').
Proof.
  intros M P R V S. rewrite (send_handler_accepted req s M).
  unfold catch, bind at 1 2, lift. rewrite P, R, V. simpl.
  unfold bind at 1. unfold sendEmailTemplateByEmail, bind at 1. rewrite S.
  reflexivity.
Qed.

(** X21.  A response of the send handler has status 200, 400, 405 or 500:
    the answer 404 written in its [catch] block is never given. *)
Theorem send_handler_statuses
    (req : incoming) (s s' : state rt) (res : outgoing) :
  SendAnonymousTyg.handler rt env site req s = (Ok res, s') ->
  In (res_status res) [200%Z; 400%Z; 405%Z; 500%Z].
Proof.
  unfold SendAnonymousTyg.handler. intros H.
  destruct (String.eqb (http_method req) "OPTIONS").
  { unfold ret in H. simplify_eq. simpl. by auto. }
  destruct (negb _).
  { unfold ret in H. simplify_eq. simpl. by auto 10. }
  unfold catch in H.
  match type of H with
  | context [match ?m s with _ => _ end] => destruct (m s) as [[r|e] s1] eqn:B
  end.
  - simplify_eq. unfold bind, lift, ret in B.
    repeat run_step B; simplify_eq; simpl; by auto 10.
  - apply send_on_error_answer in H as [-> _]. simpl. by auto 10.
Qed.

(** X22.  With no credential configured the send handler answers a well
    formed address with 500 "Server configuration error", and sends
    nothing: the search that comes first fails with the coded error of
    [ghlRequest]. *)
Theorem send_handler_without_credential
    (req : incoming) (s : state rt) (targetEmail : value) (text : string) :
  is_set (GHL_API_KEY env) = false ->
  http_method req = "POST" \/ http_method req = "GET" ->
  email_parameter rt site "target_email" req = Ok targetEmail ->
  required rt "targetEmail" targetEmail = Ok (Some text) ->
  isValidEmail (toLowerCase rt (trim rt text)) = true ->
  SendAnonymousTyg.handler rt env site req s =
  (Ok (mkOutgoing 500 (cors_headers "POST, GET, OPTIONS" (http_origin req))
         (VObj [("success", VBool false);
                ("message", VStr "Server configuration error");
                ("error", VStr "GHL_API_KEY is not configured")])), s).
Proof.
  intros K M P R V. rewrite (send_handler_accepted req s M).
  unfold catch, bind at 1 2, lift. rewrite P, R, V. simpl.
  unfold bind at 1. unfold sendEmailTemplateByEmail, bind at 1.
  unfold searchContactByEmail, bind at 1. rewrite ghlRequest_unset by done.
  reflexivity.
Qed.

End Webhooks.

Lemma send_handler_unknown_contact_throws_witness :
  let bodies := [("{}", VObj [("contacts", VArr [])])] in
  let req := mkIncoming "GET" None
               (VObj [("target_email", VStr " Ann@X.com ")]) VUndefined in
  SendAnonymousTyg.handler (scripted bodies) with_key (scripted_site None [])
    req (start [json_ok "{}"])
  = (Throw (ReferenceError "targetEmail"),
     script [] [search_request (scripted bodies) with_key "ann@x.com"]).
Proof.
  intros bodies req.
  apply (send_handler_unknown_contact_throws (scripted bodies) with_key
           (scripted_site None []) req (start [json_ok "{}"])
           (script [] [search_request (scripted bodies) with_key "ann@x.com"])
           (VStr " Ann@X.com ") " Ann@X.com ");
    try reflexivity.
  right. reflexivity.
Defined.

(** A call that reaches the [catch] block: the CRM refuses the
    credential. *)
Lemma send_handler_statuses_witness :
  let req := mkIncoming "POST" None VUndefined
               (VObj [("target_email", VStr "ann@x.com")]) in
  let res :=
    mkOutgoing 500 (cors_headers "POST, GET, OPTIONS" None)
      (VObj [("success", VBool false);
             ("message", VStr "Authentication error");
             ("error", VStr "Invalid GoHighLevel API key")]) in
  SendAnonymousTyg.handler (scripted []) with_key (scripted_site None []) req
    (start [failed 401 "no"])
  = (Ok res, script [] [search_request (scripted []) with_key "ann@x.com"]) /\
  In (res_status res) [200%Z; 400%Z; 405%Z; 500%Z].
Proof.
  intros req res. split; [reflexivity|].
  apply (send_handler_statuses (scripted []) with_key (scripted_site None [])
           req (start [failed 401 "no"])
           (script [] [search_request (scripted []) with_key "ann@x.com"]) res).
  reflexivity.
Defined.

Lemma send_handler_without_credential_witness :
  let req := mkIncoming "POST" None VUndefined
               (VObj [("target_email", VStr "ann@x.com")]) in
  SendAnonymousTyg.handler (scripted []) without_key (scripted_site None [])
    req (start [json_ok ""]) =
  (Ok (mkOutgoing 500 (cors_headers "POST, GET, OPTIONS" None)
         (VObj [("success", VBool false);
                ("message", VStr "Server configuration error");
                ("error", VStr "GHL_API_KEY is not configured")])),
   start [json_ok ""]).
Proof.
  intros req.
  apply (send_handler_without_credential (scripted []) without_key
           (scripted_site None []) req (start [json_ok ""])
           (VStr "ann@x.com") "ann@x.com");
    try reflexivity.
  left. reflexivity.
Defined.

Section DeleteHandler.

Context (rt : runtime) (env : environment) (site : deployment).

Lemma delete_on_error_status (headers : list (string * string)) (e : error) :
  res_status (DeleteContact.on_error site headers e) = 500%Z.
Proof. unfold DeleteContact.on_error. by repeat case_match. Qed.

(** X23.  The delete handler always answers: it returns a response and
    throws nothing, whatever the request and whatever the CRM does; the
    status is 200, 400, 404, 405 or 500. *)
Theorem delete_handler_always_answers (req : incoming) (s : state rt) :
  exists res s',
    DeleteContact.handler rt env site req s = (Ok res, s') /\
    In (res_status res) [200%Z; 400%Z; 404%Z; 405%Z; 500%Z] /\
    res_headers res
    = cors_headers "POST, GET, OPTIONS, DELETE" (http_origin req).
Proof.
  unfold DeleteContact.handler.
  destruct (String.eqb (http_method req) "OPTIONS").
  { do 2 eexists. split; [done|]. simpl. by auto. }
  destruct (negb _).
  { do 2 eexists. split; [done|]. simpl. by auto 10. }
  unfold catch.
  match goal with
  | |- context [match ?m s with _ => _ end] =>
      destruct (m s) as [[r|e] s1] eqn:B
  end.
  - exists r, s1. split; [done|]. unfold bind, lift, ret in B.
    repeat run_step B; simplify_eq; simpl; by auto 10.
  - do 2 eexists. split; [done|]. simpl.
    rewrite delete_on_error_status.
    split; [by auto 10|]. unfold DeleteContact.on_error.
    by repeat case_match.
Qed.

(** What the delete handler does once the address is accepted. *)
Lemma delete_handler_accepted
    (req : incoming) (s : state rt) (email : value) (text : string) :
  http_method req = "POST" \/ http_method req = "GET" \/
  http_method req = "DELETE" ->
  email_parameter rt site "email" req = Ok email ->
  required rt "email" email = Ok (Some text) ->
  isValidEmail (toLowerCase rt (trim rt text)) = true ->
  let headers := cors_headers "POST, GET, OPTIONS, DELETE" (http_origin req) in
  let emailTrimmed := toLowerCase rt (trim rt text) in
  DeleteContact.handler rt env site req s =
  match deleteContactByEmail rt env emailTrimmed s with
  | (Ok deleted, s') =>
      (Ok (if truthy deleted then
             mkOutgoing 200 headers
               (VObj [("success", VBool true);
                      ("message", VStr "Contact deleted successfully");
                      ("data",
                       VObj [("email", VStr emailTrimmed);
                             ("deleted", VBool true)])])
           else
             mkOutgoing 404 headers
               (VObj [("success", VBool false);
                      ("message", VStr "Contact not found");
                      ("data",
                       VObj [("email", VStr emailTrimmed);
                             ("deleted", VBool false)])])), s')
  | (Throw e, s') => (Ok (DeleteContact.on_error site headers e), s')
  end.
Proof.
  intros M P R V headers emailTrimmed. unfold DeleteContact.handler.
  assert (String.eqb (http_method req) "OPTIONS" = false) as ->
    by (destruct M as [M|[M|M]]; by rewrite M).
  assert (negb (existsb (String.eqb (http_method req))
                  ["POST"; "GET"; "DELETE"]) = false) as ->
    by (destruct M as [M|[M|M]]; by rewrite M).
  unfold catch, bind at 1 2, lift. rewrite P, R. fold emailTrimmed headers.
  subst emailTrimmed. rewrite V. simpl. unfold bind, ret.
  destruct (deleteContactByEmail rt env _ s) as [[deleted|e] s']; [|done].
  by destruct (truthy deleted).
Qed.

(** X24.  For a well formed address the delete handler answers 404 with
    [deleted: false] when the CRM knows no contact for it, the search being
    the only request sent; it answers 200 with [deleted: true] when the
    contact was found and its deletion succeeded; and it answers 500 when
    the deletion of a found contact fails. *)
Theorem delete_handler_outcomes
    (req : incoming) (s : state rt) (email : value) (text : string) :
  http_method req = "POST" \/ http_method req = "GET" \/
  http_method req = "DELETE" ->
  email_parameter rt site "email" req = Ok email ->
  required rt "email" email = Ok (Some text) ->
  isValidEmail (toLowerCase rt (trim rt text)) = true ->
  let headers := cors_headers "POST, GET, OPTIONS, DELETE" (http_origin req) in
  let emailTrimmed := toLowerCase rt (trim rt text) in
  (forall s',
      searchContactByEmail rt env emailTrimmed s = (Ok VNull, s') ->
      DeleteContact.handler rt env site req s
      = (Ok (mkOutgoing 404 headers
               (VObj [("success", VBool false);
                      ("message", VStr "Contact not found");
                      ("data",
                       VObj [("email", VStr emailTrimmed);
                             ("deleted", VBool false)])])), s') /\
      log s' = log s ++ [search_request rt env emailTrimmed]) /\
  (forall ps s' data s'',
      searchContactByEmail rt env emailTrimmed s = (Ok (VObj ps), s') ->
      ghlRequest rt env ("/contacts/" +:+ js_String (field "id" ps))
        (mkOptions (Some "DELETE") [] None) s' = (Ok data, s'') ->
      DeleteContact.handler rt env site req s
      = (Ok (mkOutgoing 200 headers
               (VObj [("success", VBool true);
                      ("message", VStr "Contact deleted successfully");
                      ("data",
                       VObj [("email", VStr emailTrimmed);
                             ("deleted", VBool true)])])), s'')) /\
  (forall ps s' e s'',
      searchContactByEmail rt env emailTrimmed s = (Ok (VObj ps), s') ->
      ghlRequest rt env ("/contacts/" +:+ js_String (field "id" ps))
        (mkOptions (Some "DELETE") [] None) s' = (Throw e, s'') ->
      exists res,
        DeleteContact.handler rt env site req s = (Ok res, s'') /\
        res_status res = 500%Z).
Proof.
  intros M P R V headers emailTrimmed.
  pose proof (delete_handler_accepted req s email text M P R V) as A.
  fold headers emailTrimmed in A. simpl in A. repeat split.
  - rewrite A. unfold deleteContactByEmail, bind. by rewrite H.
  - by apply searchContactByEmail_Ok in H as [_ ->].
  - intros ps s' data s'' S D. rewrite A.
    unfold deleteContactByEmail, bind, lift. rewrite S. simpl.
    rewrite deleteContact_run, D. done.
  - intros ps s' e s'' S D. rewrite A.
    unfold deleteContactByEmail, bind, lift. rewrite S. simpl.
    rewrite deleteContact_run, D. eexists. split; [done|].
    apply delete_on_error_status.
Qed.

End DeleteHandler.

Lemma delete_handler_outcomes_witness :
  let bodies := [("{}", VObj [("contacts", VArr [])])] in
  let req := mkIncoming "DELETE" None
               (VObj [("email", VStr " Ann@X.com ")]) VUndefined in
  DeleteContact.handler (scripted bodies) with_key (scripted_site None []) req
    (start [json_ok "{}"])
  = (Ok (mkOutgoing 404 (cors_headers "POST, GET, OPTIONS, DELETE" None)
           (VObj [("success", VBool false);
                  ("message", VStr "Contact not found");
                  ("data",
                   VObj [("email", VStr "ann@x.com");
                         ("deleted", VBool false)])])),
     script [] [search_request (scripted bodies) with_key "ann@x.com"]) /\
  log (script (bodies := bodies) []
         [search_request (scripted bodies) with_key "ann@x.com"])
  = log (start (bodies := bodies) [json_ok "{}"]) ++
    [search_request (scripted bodies) with_key "ann@x.com"].
Proof.
  intros bodies req.
  apply (proj1 (delete_handler_outcomes (scripted bodies) with_key
                  (scripted_site None []) req (start [json_ok "{}"])
                  (VStr " Ann@X.com ") " Ann@X.com "
                  (or_intror (or_intror eq_refl)) eq_refl eq_refl eq_refl)).
  reflexivity.
Defined.

(** ** What the form handler makes of the fields *)

Section Fields.

Context (rt : runtime) (env : environment) (site : deployment).

Lemma isValidEmail_space (e : string) :
  Exists (fun c => white_space c = true) (utf16 e) -> isValidEmail e = false.
Proof.
  intros X. destruct (isValidEmail e) eqn:V; [|done].
  unfold isValidEmail in V. apply regex_test_matches in V.
  apply matches_emailRegex_units in V as [W _].
  apply Exists_exists in X as (c & I & Hc).
  rewrite Forall_forall in W. specialize (W c I). congruence.
Qed.

Lemma required_text (what e : string) :
  e <> "" ->
  required rt what (VStr e)
  = Ok (if String.eqb (trim rt e) "" then None else Some e).
Proof. intros N. unfold required. simpl. by destruct e. Qed.

(** X25.  The form handler checks an address as it was typed: a recipient
    or sender address that holds white space anywhere, be it a blank before
    or after an otherwise good address, is never accepted.  The request is
    answered 400, or 500 when another field has the wrong type, and
    nothing is sent to the CRM. *)
Theorem submit_handler_rejects_untrimmed_address
    (req : incoming) (s : state rt) (ps : list (string * value)) (e : string) :
  http_method req = "POST" ->
  SubmitTygForm.body_data site (http_body req) = VObj ps ->
  field "recipientEmail" ps = VStr e \/ field "senderEmail" ps = VStr e ->
  Exists (fun c => white_space c = true) (utf16 e) ->
  exists res,
    SubmitTygForm.handler rt env site req s = (Ok res, s) /\
    (res_status res = 400%Z \/ res_status res = 500%Z).
Proof.
  intros P B F X. rewrite (handler_post rt env site req s P), B.
  assert (e <> "") as N by (intros ->; inversion X).
  pose proof (isValidEmail_space e X) as V.
  unfold SubmitTygForm.validate, rbind. simpl.
  destruct (required rt "recipientName" _) as [f1|]; [|by eauto].
  destruct (required rt "recipientEmail" _) as [f2|] eqn:R2; [|by eauto].
  destruct (required rt "message" _) as [f3|]; [|by eauto].
  destruct (required rt "senderEmail" _) as [f4|] eqn:R4; [|by eauto].
  assert (exists er errors,
    (match f1 with None => ["recipientName is required"] | Some _ => [] end) ++
    (match f2 with
     | None => ["recipientEmail is required"]
     | Some a =>
         if isValidEmail a then []
         else ["recipientEmail must be a valid email address"]
     end) ++
    (match f3 with None => ["message is required"] | Some _ => [] end) ++
    (match f4 with
     | None => ["senderEmail is required"]
     | Some a =>
         if isValidEmail a then []
         else ["senderEmail must be a valid email address"]
     end) = er :: errors) as (er & errors & ->).
  { destruct F as [F|F].
    - rewrite F, required_text in R2 by done. injection R2 as <-.
      destruct f1; destruct (String.eqb (trim rt e) ""); rewrite ?V;
        simpl; eauto.
    - rewrite F, required_text in R4 by done. injection R4 as <-.
      destruct f1, f2 as [a|], f3; try destruct (isValidEmail a);
        destruct (String.eqb (trim rt e) ""); rewrite ?V; simpl; eauto. }
  eauto.
Qed.

(** X26.  In a prepared submission the two addresses are trimmed and put in
    lower case, and each of the two flags is true exactly when the field
    is the string [true] or the boolean [true]. *)
Theorem submission_is_normalised
    (ps : list (string * value)) (fields : string * string * string * string)
    (d : SubmitTygForm.submission) :
  SubmitTygForm.prepare rt site (VObj ps) fields = Ok d ->
  SubmitTygForm.recipientEmail d
  = toLowerCase rt (trim rt (snd (fst (fst fields)))) /\
  SubmitTygForm.senderEmail d = toLowerCase rt (trim rt (snd fields)) /\
  (SubmitTygForm.sendAnonymously d = true <->
   field "sendAnonymously" ps = VStr "true" \/
   field "sendAnonymously" ps = VBool true) /\
  (SubmitTygForm.subscribeDailyHug d = true <->
   field "subscribeDailyHug" ps = VStr "true" \/
   field "subscribeDailyHug" ps = VBool true).
Proof.
  assert (forall v, SubmitTygForm.is_true v = true <->
                    v = VStr "true" \/ v = VBool true) as T.
  { intros v. destruct v; simpl; split; try done;
      try (by intros [?|?]).
    - intros ->. by right.
    - intros [?|?]; by simplify_eq.
    - intros ->%String.eqb_eq. by left.
    - intros [?|?]; simplify_eq. apply String.eqb_refl. }
  destruct fields as [[[name email] text] sender].
  unfold SubmitTygForm.prepare, rbind. simpl.
  destruct (if truthy (field "senderName" ps) then _ else _) as [sname|];
    [|done].
  intros H. injection H as <-. simpl. repeat split; try apply T; by apply T.
Qed.

End Fields.

Lemma submit_handler_rejects_untrimmed_address_witness :
  let req := mkIncoming "POST" None VUndefined
               (VObj [("recipientName", VStr "Bob");
                      ("recipientEmail", VStr " bob@x.com");
                      ("message", VStr "hi");
                      ("senderEmail", VStr "ann@x.com")]) in
  exists res,
    SubmitTygForm.handler (scripted []) with_key (scripted_site None []) req
      (start [json_ok ""]) = (Ok res, start [json_ok ""]) /\
    (res_status res = 400%Z \/ res_status res = 500%Z).
Proof.
  intros req.
  apply (submit_handler_rejects_untrimmed_address (scripted []) with_key
           (scripted_site None []) req (start [json_ok ""])
           [("recipientName", VStr "Bob");
            ("recipientEmail", VStr " bob@x.com");
            ("message", VStr "hi");
            ("senderEmail", VStr "ann@x.com")] " bob@x.com").
  - reflexivity.
  - reflexivity.
  - left. reflexivity.
  - left. reflexivity.
Defined.

Lemma submission_is_normalised_witness :
  let ps := [("sendAnonymously", VStr "true");
             ("subscribeDailyHug", VBool true)] in
  let d := SubmitTygForm.mkSubmission "Bob" "bob@x.com" "hi" "ann@x.com" ""
             true true (VStr "2026-01-01T00:00:00.000Z") in
  SubmitTygForm.recipientEmail d = "bob@x.com" /\
  SubmitTygForm.senderEmail d = "ann@x.com" /\
  (SubmitTygForm.sendAnonymously d = true <->
   field "sendAnonymously" ps = VStr "true" \/
   field "sendAnonymously" ps = VBool true) /\
  (SubmitTygForm.subscribeDailyHug d = true <->
   field "subscribeDailyHug" ps = VStr "true" \/
   field "subscribeDailyHug" ps = VBool true).
Proof.
  intros ps d.
  apply (submission_is_normalised (scripted []) (scripted_site None []) ps
           ("Bob", " Bob@X.com ", "hi", "Ann@x.com ") d).
  reflexivity.
Defined.
